(** * Event translation and login flow of the Codex relay: a shallow embedding

    The development follows the JavaScript sources file by file:
    - [Js]         : the JavaScript values, strings and conversions the code relies on;
    - [Sse]        : the response object of a request, with the events written so far;
    - [Translator] : [sendCodexResponse] and its route (fake-LLM server);
    - [Chat0]      : [mapJsonToSse] and the route of [0chat.js];
    - [Bridge]     : the Qwen bridge ([findPatchBlocks], [tryParseJson],
                     [emitToolCallsAndEnd] and the [/v1/responses] handler);
    - [Proxy]      : [handleResponses] and [postJson] of [mock-openai/openai-proxy.js];
    - [Login]      : [test_gpt.js] (PKCE, claims, credential readers, callback listener);
    - [Gg]         : [parseJwtClaims] of [gg.js].

    Strings are sequences of 8-bit code units ([string] of the standard library);
    [indexOf] and [slice] are [String.index] and [String.substring]. *)

From Stdlib Require Import List String Ascii Bool Arith NArith Lia.
Import ListNotations.
Local Open Scope string_scope.
#[local] Set Warnings "-register-all".

(** ** JavaScript values *)

(** A value produced by [JSON.parse]. A number carries the text that
    [String(n)] prints for it, which is all the code ever does with one.
    An object is the list of its own properties, in insertion order, with
    distinct keys. *)
Inductive Json : Type :=
| JNull
| JBool (b : bool)
| JNum (lit : string)
| JStr (s : string)
| JArr (items : list Json)
| JObj (fields : list (string * Json)).

(** What the host provides: [JSON.parse] ([None] when it throws a
    [SyntaxError], whose message is [JSON_parse_error]), the outcomes of
    [Math.random] and [Date.now] in base 36, [crypto], [Buffer] decoding and
    the matches of two regular expressions: the first group of the
    update-file expression of [detectFileUpdateIntent] and the first group
    of the fenced-block expression of [0chat.js]. A draw is
    numbered by the count of draws made before it. *)
Class Platform : Type := {
  JSON_parse : string -> option Json;
  JSON_parse_error : string -> string;
  random36 : nat -> string;
  now36 : nat -> string;
  randomBytes : nat -> nat -> list ascii;
  randomBytes_length : forall draw n, List.length (randomBytes draw n) = n;
  sha256 : list ascii -> list ascii;
  base64_decode_utf8 : string -> string;
  match_update_file : string -> option string;
  match_json_fence : string -> option string
}.

Module Js.

(** [None] is [undefined]. *)
Definition value : Type := option Json.

Definition dquote : ascii := "034"%char.
Definition quoted (s : string) : string := String dquote (s ++ String dquote "").

Fixpoint lookup (k : string) (fs : list (string * Json)) : value :=
  match fs with
  | [] => None
  | (k', v) :: fs' => if k' =? k then Some v else lookup k fs'
  end.

(** [v?.k] for a data property [k]. *)
Definition prop (k : string) (v : value) : value :=
  match v with
  | Some (JObj fs) => lookup k fs
  | _ => None
  end.

Definition has_key (k : string) (fs : list (string * Json)) : bool :=
  existsb (fun kv => fst kv =? k) fs.

Definition truthy (v : value) : bool :=
  match v with
  | None => false
  | Some JNull => false
  | Some (JBool b) => b
  | Some (JNum lit) => negb (lit =? "0")
  | Some (JStr s) => negb (s =? "")
  | Some (JArr _) => true
  | Some (JObj _) => true
  end.

(** [a || b], [a && b] and [a ?? b]. *)
Definition or_else (a b : value) : value := if truthy a then a else b.
Definition and_then (a b : value) : value := if truthy a then b else a.
Definition nullish (a b : value) : value :=
  match a with
  | None => b
  | Some JNull => b
  | Some _ => a
  end.

Definition of_bool (b : bool) : value := Some (JBool b).

Definition is_string (v : value) : bool :=
  match v with Some (JStr _) => true | _ => false end.
Definition is_number (v : value) : bool :=
  match v with Some (JNum _) => true | _ => false end.
Definition is_boolean (v : value) : bool :=
  match v with Some (JBool _) => true | _ => false end.
Definition isArray (v : value) : bool :=
  match v with Some (JArr _) => true | _ => false end.
(** [typeof v === "object"], which holds of [null] too. *)
Definition is_object (v : value) : bool :=
  match v with
  | Some JNull => true
  | Some (JArr _) => true
  | Some (JObj _) => true
  | _ => false
  end.
Definition is_true (v : value) : bool :=
  match v with Some (JBool true) => true | _ => false end.
(** [v === "s"]. *)
Definition str_is (s : string) (v : value) : bool :=
  match v with Some (JStr x) => x =? s | _ => false end.

Definition items_of (v : value) : list Json :=
  match v with Some (JArr l) => l | _ => [] end.

(** [String(v)] and [v.toString()] on a value that is not [undefined].
    A plain object prints as [[object Object]]; one whose own property
    [toString] hides the inherited method makes the conversion throw a
    [TypeError] ([None]). An array joins its elements with a comma, holes
    for [null]. *)
Fixpoint toString (v : Json) : option string :=
  match v with
  | JNull => Some "null"
  | JBool b => Some (if b then "true" else "false")
  | JNum lit => Some lit
  | JStr s => Some s
  | JArr items =>
      (fix go (l : list Json) : option string :=
         match l with
         | [] => Some ""
         | x :: r =>
             match (match x with JNull => Some "" | _ => toString x end), go r with
             | Some s, Some t =>
                 Some (match r with [] => s | _ :: _ => s ++ "," ++ t end)
             | _, _ => None
             end
         end) items
  | JObj fs => if has_key "toString" fs then None else Some "[object Object]"
  end.

(** [items.join(sep)]. *)
Fixpoint join (sep : string) (items : list Json) : option string :=
  match items with
  | [] => Some ""
  | x :: r =>
      match (match x with JNull => Some "" | _ => toString x end), join sep r with
      | Some s, Some t => Some (match r with [] => s | _ :: _ => s ++ sep ++ t end)
      | _, _ => None
      end
  end.

(** No object of the value has an own property named [toString]. *)
Fixpoint plain (v : Json) : bool :=
  match v with
  | JArr items => forallb plain items
  | JObj fs =>
      negb (has_key "toString" fs) &&
      (fix go (l : list (string * Json)) : bool :=
         match l with
         | [] => true
         | (_, x) :: r => plain x && go r
         end) fs
  | _ => true
  end.

Definition plain_value (v : value) : bool :=
  match v with Some j => plain j | None => true end.

(** *** [JSON.stringify] *)

Definition hex_digit (n : nat) : ascii :=
  match String.get n "0123456789abcdef" with Some c => c | None => "0"%char end.

Definition escape_char (c : ascii) : string :=
  let n := nat_of_ascii c in
  if (n =? 8)%nat then "\b"
  else if (n =? 9)%nat then "\t"
  else if (n =? 10)%nat then "\n"
  else if (n =? 12)%nat then "\f"
  else if (n =? 13)%nat then "\r"
  else if (n =? 34)%nat then String "\"%char (String dquote "")
  else if (n =? 92)%nat then "\\"
  else if (n <? 32)%nat then "\u00" ++ String (hex_digit (n / 16)) (String (hex_digit (n mod 16)) "")
  else String c "".

Fixpoint escape (s : string) : string :=
  match s with
  | EmptyString => ""
  | String c s' => escape_char c ++ escape s'
  end.

Definition quote (s : string) : string := quoted (escape s).

Fixpoint stringify (v : Json) : string :=
  match v with
  | JNull => "null"
  | JBool b => if b then "true" else "false"
  | JNum lit => lit
  | JStr s => quote s
  | JArr items =>
      "[" ++
      (fix go (l : list Json) : string :=
         match l with
         | [] => ""
         | x :: r =>
             match r with
             | [] => stringify x
             | _ :: _ => stringify x ++ "," ++ go r
             end
         end) items ++ "]"
  | JObj fs =>
      "{" ++
      (fix go (l : list (string * Json)) : string :=
         match l with
         | [] => ""
         | (k, x) :: r =>
             match r with
             | [] => quote k ++ ":" ++ stringify x
             | _ :: _ => quote k ++ ":" ++ stringify x ++ "," ++ go r
             end
         end) fs ++ "}"
  end.

(** [JSON.stringify(v, null, 2)]; [pad] is the indentation of [v]. *)
Definition newline : string := String "010"%char "".

Fixpoint stringify_pretty (pad : string) (v : Json) : string :=
  match v with
  | JArr [] => "[]"
  | JObj [] => "{}"
  | JArr items =>
      "[" ++ newline ++
      (fix go (l : list Json) : string :=
         match l with
         | [] => ""
         | x :: r =>
             match r with
             | [] => pad ++ "  " ++ stringify_pretty (pad ++ "  ") x ++ newline
             | _ :: _ => pad ++ "  " ++ stringify_pretty (pad ++ "  ") x ++ "," ++ newline ++ go r
             end
         end) items ++ pad ++ "]"
  | JObj fs =>
      "{" ++ newline ++
      (fix go (l : list (string * Json)) : string :=
         match l with
         | [] => ""
         | (k, x) :: r =>
             match r with
             | [] => pad ++ "  " ++ quote k ++ ": " ++ stringify_pretty (pad ++ "  ") x ++ newline
             | _ :: _ =>
                 pad ++ "  " ++ quote k ++ ": " ++ stringify_pretty (pad ++ "  ") x
                 ++ "," ++ newline ++ go r
             end
         end) fs ++ pad ++ "}"
  | _ => stringify v
  end.

(** *** Strings *)

(** White space as [trim] sees it, among 8-bit code units. *)
Definition is_space (c : ascii) : bool :=
  let n := nat_of_ascii c in
  ((9 <=? n)%nat && (n <=? 13)%nat) || (n =? 32)%nat || (n =? 160)%nat.

Fixpoint trimStart (s : string) : string :=
  match s with
  | EmptyString => ""
  | String c s' => if is_space c then trimStart s' else s
  end.

Fixpoint trimEnd (s : string) : string :=
  match s with
  | EmptyString => ""
  | String c s' =>
      let t := trimEnd s' in
      if is_space c && (t =? "") then "" else String c t
  end.

Definition trim (s : string) : string := trimEnd (trimStart s).

(** [text.indexOf(pat, from)], [None] for [-1]. *)
Definition indexOf (pat : string) (from : nat) (text : string) : option nat :=
  String.index from pat text.

Definition includes (pat text : string) : bool :=
  match indexOf pat 0 text with Some _ => true | None => false end.

Fixpoint lastIndexOf (pat text : string) : option nat :=
  match text with
  | EmptyString => if String.prefix pat "" then Some 0 else None
  | String _ rest =>
      match lastIndexOf pat rest with
      | Some n => Some (S n)
      | None => if String.prefix pat text then Some 0 else None
      end
  end.

(** [text.slice(i, j)] for [0 <= i]; empty when [j <= i]. *)
Definition slice (i j : nat) (text : string) : string :=
  String.substring i (j - i) text.

(** [text.slice(i)]. *)
Definition slice_from (i : nat) (text : string) : string :=
  String.substring i (String.length text - i) text.

(** [text.split(".")]: the segments between the dots, at least one. *)
Fixpoint split_dot (text : string) : list string :=
  match text with
  | EmptyString => [""]
  | String c rest =>
      if Ascii.eqb c "."%char then "" :: split_dot rest
      else
        match split_dot rest with
        | seg :: segs => String c seg :: segs
        | [] => [String c ""]
        end
  end.

(** [text.replace(/a/g, "b")] for single characters. *)
Fixpoint replace_char (a b : ascii) (text : string) : string :=
  match text with
  | EmptyString => ""
  | String c rest => String (if Ascii.eqb c a then b else c) (replace_char a b rest)
  end.

(** A call either returns or throws a value. *)
Inductive outcome (A : Type) : Type :=
| Returns (a : A)
| Throws (err : value).
Arguments Returns {A} a.
Arguments Throws {A} err.

(** The value a [TypeError] carries; its message is the engine's. *)
Definition TypeError : value :=
  Some (JObj [("name", JStr "TypeError"); ("message", JStr "not a function")]).

(** [new Error(message)] *)
Definition new_Error (message : string) : value :=
  Some (JObj [("message", JStr message)]).

End Js.

(** ** The response object and the events written to it *)

Module Sse.
Import Js.

(** One [event:]/[data:] record; the data is the object handed to
    [JSON.stringify]. *)
Record event : Type := Event { ev_name : string; ev_data : value }.

(** The state a request handler works on: the records written to [res],
    whether [res.end()] was called, and how many random or clock values
    were drawn. *)
Record world : Type := World {
  written : list event;
  ended : bool;
  draws : nat
}.

Definition fresh_world : world := World [] false 0.

Definition io (A : Type) : Type := world -> outcome A * world.

Definition ret {A : Type} (a : A) : io A := fun w => (Returns a, w).

Definition throw {A : Type} (err : value) : io A := fun w => (Throws err, w).

Definition bind {A B : Type} (m : io A) (k : A -> io B) : io B :=
  fun w =>
    match m w with
    | (Returns a, w') => k a w'
    | (Throws e, w') => (Throws e, w')
    end.

(** [try { m } catch (err) { h err }]. *)
Definition try_catch {A : Type} (m : io A) (h : value -> io A) : io A :=
  fun w =>
    match m w with
    | (Returns a, w') => (Returns a, w')
    | (Throws e, w') => h e w'
    end.

Declare Scope io_scope.
Delimit Scope io_scope with io.
Notation "x <- m ;; k" := (bind m (fun x => k))
  (at level 61, m at next level, right associativity) : io_scope.
Notation "m ;;; k" := (bind m (fun _ => k))
  (at level 61, right associativity) : io_scope.

Fixpoint for_each {A : Type} (l : list A) (body : A -> io unit) : io unit :=
  match l with
  | [] => ret tt
  | x :: r => bind (body x) (fun _ => for_each r body)
  end.

Definition lift_toString (v : Json) : io string :=
  match toString v with
  | Some s => ret s
  | None => throw TypeError
  end.

Definition lift_join (sep : string) (items : list Json) : io string :=
  match join sep items with
  | Some s => ret s
  | None => throw TypeError
  end.

(** [sse(res, event, data)] of the fake-LLM server and of [0chat.js]. *)
Definition sse (name : string) (data : Json) : io unit :=
  fun w => (Returns tt, World (written w ++ [Event name (Some data)]) (ended w) (draws w)).

(** [res.end()]. *)
Definition res_end : io unit :=
  fun w => (Returns tt, World (written w) true (draws w)).

(** [randId(prefix)]. *)
Definition randId {P : Platform} (prefix : string) : io string :=
  fun w => (Returns (prefix ++ "_" ++ random36 (draws w)),
            World (written w) (ended w) (S (draws w))).

(** [`<prefix>_${Date.now().toString(36)}_${Math.random().toString(36).slice(2, 8)}`],
    the identifiers of the bridge and of the proxy. *)
Definition timeId {P : Platform} (prefix : string) : io string :=
  fun w => (Returns (prefix ++ "_" ++ now36 (draws w) ++ "_" ++ slice 0 6 (random36 (draws w))),
            World (written w) (ended w) (S (draws w))).

(** *** What the claims read off an event *)

Definition is_created (e : event) : bool := ev_name e =? "response.created".
Definition is_completed (e : event) : bool := ev_name e =? "response.completed".
Definition is_failed (e : event) : bool := ev_name e =? "response.failed".
Definition is_delta (e : event) : bool := ev_name e =? "response.reasoning_summary_text.delta".

(** The [response.id] an event carries, if any. *)
Definition response_id (e : event) : value := prop "id" (prop "response" (ev_data e)).
Definition usage (e : event) : value := prop "usage" (prop "response" (ev_data e)).

Definition item_type (e : event) : value := prop "type" (prop "item" (ev_data e)).

Definition is_item_done (e : event) : bool := ev_name e =? "response.output_item.done".

Definition is_message (e : event) : bool :=
  is_item_done e && str_is "message" (item_type e).

Definition is_tool_call (e : event) : bool :=
  is_item_done e &&
  (str_is "function_call" (item_type e) || str_is "custom_tool_call" (item_type e)
   || str_is "local_shell_call" (item_type e)).

(** The text of a message item: [item.content[0].text]. *)
Definition message_text (e : event) : value :=
  match prop "content" (prop "item" (ev_data e)) with
  | Some (JArr (c :: _)) => prop "text" (Some c)
  | _ => None
  end.

Definition count (p : event -> bool) (l : list event) : nat :=
  List.length (filter p l).

(** Neither a [created] nor a [completed] event. *)
Definition is_middle (e : event) : bool := negb (is_created e) && negb (is_completed e).

(** The order of a stream: one [created] event first, carrying [id_first]
    as its response identifier, one [completed] event last, carrying
    [id_last], and neither kind in between. *)
Definition ordered (id_first id_last : value) (evs : list event) : Prop :=
  exists first mid last,
    evs = (first :: mid ++ [last])%list /\
    is_created first = true /\ is_completed last = true /\
    forallb is_middle mid = true /\
    response_id first = id_first /\ response_id last = id_last.

(** [m] writes only events that satisfy [p], whether it returns or throws. *)
Definition appends {A : Type} (p : event -> bool) (m : io A) : Prop :=
  forall w, exists evs,
    written (snd (m w)) = (written w ++ evs)%list /\ forallb p evs = true.

(** [m] returns, whatever the state it starts from. *)
Definition returns {A : Type} (m : io A) : Prop :=
  forall w, exists a, fst (m w) = Returns a.

(** [m] returns after writing only events that satisfy [p], and leaves
    the response open or ended as it was. *)
Definition writes {A : Type} (p : event -> bool) (m : io A) : Prop :=
  forall w, exists a evs d,
    m w = (Returns a, World (written w ++ evs) (ended w) d) /\ forallb p evs = true.

Definition zero_usage : Json :=
  JObj [("input_tokens", JNum "0"); ("output_tokens", JNum "0"); ("total_tokens", JNum "0")].

End Sse.

(** ** The fake-LLM server: [sendCodexResponse] *)

Module Translator.
Import Js Sse.
Local Open Scope io_scope.

Section WithPlatform.
Context {P : Platform}.

Definition created_event (responseId : string) : Json :=
  JObj [("type", JStr "response.created");
        ("response", JObj [("id", JStr responseId)])].

Definition completed_event (responseId : string) : Json :=
  JObj [("type", JStr "response.completed");
        ("response", JObj [("id", JStr responseId); ("usage", zero_usage)])].

Definition message_event (text : Json) : Json :=
  JObj [("type", JStr "response.output_item.done");
        ("item", JObj [("type", JStr "message");
                       ("role", JStr "assistant");
                       ("content", JArr [JObj [("type", JStr "output_text"); ("text", text)]])])].

Definition function_call_event (toolName argsStr callId : string) : Json :=
  JObj [("type", JStr "response.output_item.done");
        ("item", JObj [("type", JStr "function_call");
                       ("name", JStr toolName);
                       ("arguments", JStr argsStr);
                       ("call_id", JStr callId)])].

Definition custom_tool_call_event (patchText : Json) (callId : string) : Json :=
  JObj [("type", JStr "response.output_item.done");
        ("item", JObj [("type", JStr "custom_tool_call");
                       ("name", JStr "apply_patch");
                       ("input", patchText);
                       ("call_id", JStr callId)])].

(** [json?.final === true || json?.done === true || json?.finish === true] *)
Definition isFinal (json : value) : bool :=
  is_true (prop "final" json) || is_true (prop "done" json) || is_true (prop "finish" json).

Definition pushAssistantText (text : value) : io unit :=
  match text with
  | Some t => if truthy text then sse "response.output_item.done" (message_event t) else ret tt
  | None => ret tt
  end.

(** [typeof v === "string" && v] *)
Definition string_and_self (v : value) : value :=
  if is_string v then v else of_bool false.

(** [c?.type === "text" && typeof c.text === "string"] *)
Definition is_text_part (c : Json) : bool :=
  str_is "text" (prop "type" (Some c)) && is_string (prop "text" (Some c)).

(** [Array.isArray(json?.content) && json.content.find(...)?.text] *)
Definition first_text_part (json : value) : value :=
  if isArray (prop "content" json)
  then prop "text" (find is_text_part (items_of (prop "content" json)))
  else of_bool false.

Definition finalMsg (json : value) : value :=
  or_else (string_and_self (prop "assistant_message" json))
    (or_else (string_and_self (prop "output" json))
       (or_else (string_and_self (prop "content" json))
          (or_else (first_text_part json) (Some (JStr "Done."))))).

(** The text of the final message as the specification words it: the
    first of the assistant-message field, the output field and the content
    field (a string, or the first text-typed element of an array) that
    gives a non-empty text, else the literal fallback. *)
Definition nonempty_text (v : value) : option string :=
  match v with
  | Some (JStr s) => if s =? "" then None else Some s
  | _ => None
  end.

Definition content_text (content : value) : option string :=
  match content with
  | Some (JStr _) => nonempty_text content
  | Some (JArr items) =>
      match find is_text_part items with
      | Some c => nonempty_text (prop "text" (Some c))
      | None => None
      end
  | _ => None
  end.

Fixpoint first_match (candidates : list (option string)) (fallback : string) : string :=
  match candidates with
  | [] => fallback
  | Some text :: _ => text
  | None :: rest => first_match rest fallback
  end.

Definition final_text (json : value) : string :=
  first_match [nonempty_text (prop "assistant_message" json);
               nonempty_text (prop "output" json);
               content_text (prop "content" json)] "Done.".

Definition emit_summary (json : value) : io unit :=
  match prop "summary" (prop "reasoning" json) with
  | Some (JStr summary) =>
      if negb (trim summary =? "")
      then sse "response.reasoning_summary_text.delta"
             (JObj [("type", JStr "response.reasoning_summary_text.delta");
                    ("delta", JStr summary)])
      else ret tt
  | _ => ret tt
  end.

Definition emit_final (json : value) : io unit :=
  if isFinal json then pushAssistantText (finalMsg json) else ret tt.

Definition emit_content (json : value) : io unit :=
  if negb (isFinal json) && is_string (prop "content" json)
  then pushAssistantText (prop "content" json)
  else if negb (isFinal json) && isArray (prop "content" json)
  then for_each (items_of (prop "content" json))
         (fun c => if is_text_part c then pushAssistantText (prop "text" (Some c)) else ret tt)
  else ret tt.

(** [o && o.type === "output_text" && typeof o.text === "string"] *)
Definition is_output_text_part (o : Json) : bool :=
  truthy (Some o) && str_is "output_text" (prop "type" (Some o)) && is_string (prop "text" (Some o)).

Definition emit_output (json : value) : io unit :=
  if negb (isFinal json) && is_string (prop "output" json)
  then pushAssistantText (prop "output" json)
  else if negb (isFinal json) && isArray (prop "output" json)
  then for_each (items_of (prop "output" json))
         (fun o => if is_output_text_part o then pushAssistantText (prop "text" (Some o)) else ret tt)
  else ret tt.

(** [typeof obj === "string" ? obj : JSON.stringify(obj ?? {})] *)
Definition argsStr_of (obj : value) : string :=
  match obj with
  | Some (JStr s) => s
  | _ => match nullish obj (Some (JObj [])) with
         | Some o => stringify o
         | None => stringify (JObj [])
         end
  end.

Definition emitFunctionCall (toolName : string) (obj : value) : io bool :=
  callId <- randId "call_fn" ;;
  sse "response.output_item.done" (function_call_event toolName (argsStr_of obj) callId) ;;;
  ret true.

Definition shell_names : list string := ["shell"; "exec"; "bash"; "sh"; "run"].

Definition is_shell_name (name : string) : bool :=
  existsb (String.eqb name) shell_names.

(** The command string of a shell-like call; [None] is [undefined]. *)
Definition cmdStr_of (args : value) : io value :=
  if is_string (prop "cmd" args) then ret (prop "cmd" args)
  else if isArray (prop "command" args)
  then s <- lift_join " " (items_of (prop "command" args)) ;; ret (Some (JStr s))
  else if is_string (prop "command" args) then ret (prop "command" args)
  else if isArray args
  then s <- lift_join " " (items_of args) ;; ret (Some (JStr s))
  else ret None.

Definition knob (test : value -> bool) (k : string) (args : value) : list (string * Json) :=
  match prop k args with
  | Some v => if test (Some v) then [(k, v)] else []
  | None => []
  end.

Definition exec_payload (cmdStr : Json) (args : value) : Json :=
  JObj ((("cmd", cmdStr) :: knob is_number "yield_time_ms" args)
        ++ knob is_number "max_output_tokens" args
        ++ knob is_string "shell" args
        ++ knob is_boolean "login" args)%list.

(** The patch text of an [apply_patch] call; [None] is [undefined]. *)
Definition patchText_of (args : value) : value :=
  if is_string (prop "input" args) then prop "input" args
  else if is_string (prop "patch" args) then prop "patch" args
  else if is_string args then args
  else None.

Definition parse_args (argsIn : value) : value :=
  match argsIn with
  | Some (JStr s) =>
      match JSON_parse s with
      | Some v => Some v
      | None => argsIn
      end
  | _ => argsIn
  end.

Definition emit_generic (name : string) (args : value) : io bool :=
  emitFunctionCall name (nullish args (Some (JObj []))).

Definition emit_apply_patch_or_generic (name : string) (args : value) : io bool :=
  if name =? "apply_patch"
  then match patchText_of args with
       | Some patchText =>
           if truthy (Some patchText)
           then callId <- randId "call_apply_patch" ;;
                sse "response.output_item.done" (custom_tool_call_event patchText callId) ;;;
                ret true
           else emit_generic name args
       | None => emit_generic name args
       end
  else emit_generic name args.

Definition emitToolCall (nameIn argsIn : value) : io bool :=
  name <- match or_else nameIn (Some (JStr "unknown_function")) with
          | Some n => lift_toString n
          | None => throw TypeError
          end ;;
  let args := parse_args argsIn in
  if is_shell_name name
  then cmdStr <- cmdStr_of args ;;
       match cmdStr with
       | Some c =>
           if truthy cmdStr
           then emitFunctionCall "exec_command" (Some (exec_payload c args))
           else emit_apply_patch_or_generic name args
       | None => emit_apply_patch_or_generic name args
       end
  else emit_apply_patch_or_generic name args.

(** [x?.type || x?.name || x?.tool || x?.function] *)
Definition call_name (call : value) : value :=
  or_else (prop "type" call)
    (or_else (prop "name" call) (or_else (prop "tool" call) (prop "function" call))).

(** [x?.arguments ?? x?.parameters ?? x?.params ?? x?.args] *)
Definition call_args (call : value) : value :=
  nullish (prop "arguments" call)
    (nullish (prop "parameters" call) (nullish (prop "params" call) (prop "args" call))).

Definition tools_of (json : value) : list Json := items_of (prop "tool_calls" json).

Definition emit_tools (json : value) : io unit :=
  if negb (isFinal json) && negb (List.length (tools_of json) =? 0)%nat
  then for_each (tools_of json)
         (fun call => emitToolCall (call_name (Some call)) (call_args (Some call)) ;;; ret tt)
  else if negb (isFinal json) && truthy json && truthy (call_name json)
  then emitToolCall (call_name json) (call_args json) ;;; ret tt
  else ret tt.

(** The four argument shapes of the listing command. *)
Definition ls_shapes : list Json :=
  [JObj [("command", JArr [JStr "ls"; JStr "-la"])];
   JObj [("command", JStr "ls -la")];
   JObj [("cmd", JStr "ls -la")];
   JArr [JStr "ls"; JStr "-la"]].

(** [(nameIn || "unknown_function").toString()]; [None] when it throws. *)
Definition name_of (nameIn : value) : option string :=
  match or_else nameIn (Some (JStr "unknown_function")) with
  | Some n => toString n
  | None => None
  end.

(** The command of a shell-like call is made without a throw: the array
    that [cmdStr_of] joins, if it joins one, holds no element whose
    conversion throws. *)
Definition command_joins (args : value) : bool :=
  if is_string (prop "cmd" args) then true
  else if isArray (prop "command" args)
  then match join " " (items_of (prop "command" args)) with Some _ => true | None => false end
  else if is_string (prop "command" args) then true
  else if isArray args
  then match join " " (items_of args) with Some _ => true | None => false end
  else true.

(** The two conversions of [emitToolCall] that can throw do not: the
    name of the call converts to a string and, under a shell-like name,
    its command joins. Whatever is only serialized never throws. *)
Definition call_converts (call : value) : bool :=
  match name_of (call_name call) with
  | Some name => negb (is_shell_name name) || command_joins (parse_args (call_args call))
  | None => false
  end.

(** [converts] says so of the calls the translator emits for an envelope:
    every entry of a non-empty [tool_calls], or else the envelope itself
    when it names a call; none when the envelope is final. It is the
    condition under which [sendCodexResponse] returns. *)
Definition converts (json : value) : bool :=
  if negb (isFinal json) && negb (List.length (tools_of json) =? 0)%nat
  then forallb (fun call => call_converts (Some call)) (tools_of json)
  else if negb (isFinal json) && truthy json && truthy (call_name json)
  then call_converts json
  else true.

(** [opts.responseId || randId("resp")] *)
Definition pick_responseId (opts_responseId : option string) : io string :=
  match opts_responseId with
  | Some id => if id =? "" then randId "resp" else ret id
  | None => randId "resp"
  end.

Definition sendCodexResponse (json : value) (opts_responseId : option string) : io unit :=
  responseId <- pick_responseId opts_responseId ;;
  sse "response.created" (created_event responseId) ;;;
  emit_summary json ;;;
  emit_final json ;;;
  emit_content json ;;;
  emit_output json ;;;
  emit_tools json ;;;
  sse "response.completed" (completed_event responseId) ;;;
  res_end.

(** The route: [receivedRequest] is the upstream call, whose outcome is
    [answer]; the handler's [catch] turns a throw into an [error] record.
    Reading [err.message] of a rejection with [null] or [undefined] throws
    inside the [catch]: nothing is written then and the response is not
    ended. *)
Definition post_responses (answer : outcome value) : io unit :=
  try_catch
    (match answer with
     | Returns json => sendCodexResponse json None
     | Throws err => throw err
     end)
    (fun err =>
       match err with
       | None => throw TypeError
       | Some JNull => throw TypeError
       | Some _ =>
           sse "error" (JObj (match prop "message" err with
                              | Some m => [("error", m)]
                              | None => []
                              end)) ;;;
           res_end
       end).

End WithPlatform.
End Translator.

(** ** [0chat.js]: the generic adapter *)

Module Chat0.
Import Js Sse.
Local Open Scope io_scope.

Section WithPlatform.
Context {P : Platform}.

(** [tryParseJson] on the text [askLlm] returns; [null] is [JNull]. *)
Definition tryParseJson (text : string) : Json :=
  match JSON_parse text with
  | Some v => v
  | None =>
      match (match match_json_fence text with
             | Some body => if body =? "" then None else JSON_parse body
             | None => None
             end) with
      | Some v => v
      | None =>
          match indexOf "{" 0 text, lastIndexOf "}" text with
          | Some a, Some b =>
              if (a <? b)%nat
              then match JSON_parse (slice a (b + 1) text) with
                   | Some v => v
                   | None => JNull
                   end
              else JNull
          | _, _ => JNull
          end
      end
  end.

Definition message_event (text : string) : Json :=
  JObj [("type", JStr "response.output_item.done");
        ("item", JObj [("type", JStr "message");
                       ("role", JStr "assistant");
                       ("content", JArr [JObj [("type", JStr "output_text"); ("text", JStr text)]])])].

Definition is_shell_call (tc : Json) : bool :=
  str_is "function" (prop "type" (Some tc)) && str_is "shell" (prop "name" (Some tc))
  && isArray (prop "command" (prop "arguments" (Some tc))).

Definition is_update_plan (tc : Json) : bool :=
  str_is "function" (prop "type" (Some tc)) && str_is "update_plan" (prop "name" (Some tc)).

Definition emit_tool (tc : Json) : io unit :=
  if is_shell_call tc
  then callId <- randId "call_shell" ;;
       sse "response.output_item.done"
         (JObj [("type", JStr "response.output_item.done");
                ("item", JObj [("type", JStr "local_shell_call");
                               ("call_id", JStr callId);
                               ("status", JStr "in_progress");
                               ("action", JObj [("type", JStr "exec");
                                                ("command", JArr (items_of (prop "command" (prop "arguments" (Some tc)))));
                                                ("timeout_ms", JNum "120000")])])])
  else if is_update_plan tc
  then callId <- randId "call_update_plan" ;;
       sse "response.output_item.done"
         (JObj [("type", JStr "response.output_item.done");
                ("item", JObj [("type", JStr "function_call");
                               ("name", JStr "update_plan");
                               ("arguments",
                                JStr (match nullish (prop "arguments" (Some tc)) (Some (JObj [])) with
                                      | Some a => stringify a
                                      | None => stringify (JObj [])
                                      end));
                               ("call_id", JStr callId)])])
  else sse "response.output_item.done" (message_event (stringify tc)).

Definition emit_text_part (c : Json) : io unit :=
  match prop "text" (Some c) with
  | Some (JStr text) =>
      if str_is "text" (prop "type" (Some c))
      then sse "response.output_item.done" (message_event text)
      else ret tt
  | _ => ret tt
  end.

Definition mapJsonToSse (obj : value) : io unit :=
  match prop "summary" (prop "reasoning" obj) with
  | Some (JStr summary) =>
      if negb (trim summary =? "")
      then sse "response.reasoning_summary_text.delta"
             (JObj [("type", JStr "response.reasoning_summary_text.delta");
                    ("delta", JStr (trim summary))])
      else ret tt
  | _ => ret tt
  end ;;;
  for_each (items_of (prop "tool_calls" obj)) emit_tool ;;;
  for_each (items_of (prop "content" obj)) emit_text_part.

(** The route; [llmReply] is the text [askLlm] resolves with. *)
Definition post_responses (llmReply : string) : io unit :=
  responseId <- randId "resp" ;;
  sse "response.created" (Translator.created_event responseId) ;;;
  (let obj := tryParseJson llmReply in
   if truthy (Some obj)
   then mapJsonToSse (Some obj)
   else sse "response.output_item.done" (message_event llmReply)) ;;;
  sse "response.completed" (Translator.completed_event responseId) ;;;
  res_end.

End WithPlatform.
End Chat0.

(** ** The Qwen bridge *)

Module Bridge.
Import Js Sse.

Definition begin_marker : string := "*** Begin Patch".
Definition end_marker : string := "*** End Patch".

(** The [while (true)] loop of [findPatchBlocks]; [None] when the fuel
    runs out before a [break]. *)
Fixpoint findPatchBlocks_loop (fuel : nat) (text : string) (idx : nat)
  (blocks : list string) : option (list string) :=
  match fuel with
  | 0 => None
  | S fuel' =>
      match indexOf begin_marker idx text with
      | None => Some blocks
      | Some s =>
          match indexOf end_marker s text with
          | None => Some blocks
          | Some e =>
              findPatchBlocks_loop fuel' text (e + String.length end_marker)
                (blocks ++ [slice s (e + String.length end_marker) text])%list
          end
      end
  end.

Definition findPatchBlocks_fuel (text : string) : option (list string) :=
  findPatchBlocks_loop (S (String.length text)) text 0 [].

Definition findPatchBlocks (text : string) : list string :=
  match findPatchBlocks_fuel text with
  | Some blocks => blocks
  | None => []
  end.

(** *** The extraction as the specification words it *)

(** The marker [pat] stands in [text] at position [p]. *)
Definition occurs (pat : string) (p : nat) (text : string) : Prop :=
  String.substring p (String.length pat) text = pat.

(** A span is the position of its begin marker and that of its end
    marker; its text runs from the first to the end of the second. *)
Definition span_text (text : string) (span : nat * nat) : string :=
  String.substring (fst span) (snd span + String.length end_marker - fst span) text.

(** The complete spans of [text] from [idx] on, in order of appearance:
    the leftmost begin marker, the nearest end marker that follows it
    without overlapping it, then the spans after that end marker; none
    when no begin marker at or after [idx] is followed by an end marker. *)
Inductive complete_spans (text : string) : nat -> list (nat * nat) -> Prop :=
| spans_done : forall idx,
    (forall s e, idx <= s -> s <= e ->
       occurs begin_marker s text -> occurs end_marker e text -> False) ->
    complete_spans text idx []
| spans_next : forall idx s e rest,
    idx <= s ->
    occurs begin_marker s text ->
    (forall p, idx <= p -> p < s -> ~ occurs begin_marker p text) ->
    s + String.length begin_marker <= e ->
    occurs end_marker e text ->
    (forall p, s <= p -> p < e -> ~ occurs end_marker p text) ->
    complete_spans text (e + String.length end_marker) rest ->
    complete_spans text idx ((s, e) :: rest).

(** A block carries both markers: it starts with one and ends with the other. *)
Definition bounded_by_markers (block : string) : Prop :=
  String.substring 0 (String.length begin_marker) block = begin_marker /\
  String.length begin_marker + String.length end_marker <= String.length block /\
  String.substring (String.length block - String.length end_marker)
    (String.length end_marker) block = end_marker.

Definition fence : string := "```".

Definition stripJsonFence (text : string) : string :=
  let t := trim text in
  if String.prefix fence t
  then match indexOf newline 0 t with
       | Some firstNl =>
           let withoutFence := slice_from (firstNl + 1) t in
           match lastIndexOf fence withoutFence with
           | Some endFence => trim (slice 0 endFence withoutFence)
           | None => t
           end
       | None => t
       end
  else t.

Section WithPlatform.
Context {P : Platform}.

Definition tryParseJson (text : string) : Json :=
  let t := stripJsonFence text in
  match JSON_parse t with
  | Some v => v
  | None =>
      match indexOf "{" 0 t, lastIndexOf "}" t with
      | Some start, Some e =>
          if (start <? e)%nat
          then match JSON_parse (slice start (e + 1) t) with
               | Some v => v
               | None => JNull
               end
          else JNull
      | _, _ => JNull
      end
  end.

(** *** The request *)

Definition is_user_message (item : Json) : bool :=
  str_is "message" (prop "type" (Some item)) && str_is "user" (prop "role" (Some item)).

Definition input_texts (content : list Json) : list string :=
  flat_map (fun c => match prop "text" (Some c) with
                     | Some (JStr t) => if str_is "input_text" (prop "type" (Some c)) then [t] else []
                     | _ => []
                     end) content.

(** The [for] loop of [extractLatestUserText], over the items from the
    last to the first. *)
Fixpoint latest_user_text (reversed : list Json) : option string :=
  match reversed with
  | [] => None
  | item :: older =>
      if is_user_message item && isArray (prop "content" (Some item))
      then let t := String.concat newline (input_texts (items_of (prop "content" (Some item)))) in
           if t =? "" then latest_user_text older else Some t
      else latest_user_text older
  end.

Definition extractLatestUserText (inputArray : value) : string :=
  match inputArray with
  | Some (JArr items) =>
      match latest_user_text (rev items) with
      | Some t => t
      | None =>
          String.concat (newline ++ newline)
            (input_texts
               (flat_map (fun it => items_of (prop "content" (Some it)))
                  (filter is_user_message items)))
      end
  | _ => ""
  end.

(** [detectFileUpdateIntent(text)]; the result is [intent.path]. *)
Definition detectFileUpdateIntent (text : string) : option string :=
  if text =? "" then None
  else match match_update_file text with
       | Some path => if path =? "" then None else Some path
       | None => None
       end.

Definition intent_of (body : value) : option string :=
  detectFileUpdateIntent (extractLatestUserText (prop "input" body)).

(** *** The handler's state *)

(** The response and the handler's local variables [finished],
    [emittedAnyTool] and [fullText]; [timerFired] records that the
    8-second timer has run. *)
Record state : Type := State {
  res : world;
  finished : bool;
  emittedAnyTool : bool;
  fullText : string;
  timerFired : bool
}.

Definition with_res (s : state) (w : world) : state :=
  State w (finished s) (emittedAnyTool s) (fullText s) (timerFired s).

(** [writeSse(res, type, payload)]: nothing is written once the response
    has ended. *)
Definition writeSse (type : string) (payload : list (string * Json)) (s : state) : state :=
  if ended (res s) then s
  else with_res s (World (written (res s) ++ [Event type (Some (JObj (("type", JStr type) :: payload)))])
                     (ended (res s)) (draws (res s))).

Definition draw (s : state) : state :=
  with_res s (World (written (res s)) (ended (res s)) (S (draws (res s)))).

(** [`<prefix>_${Date.now().toString(36)}_${Math.random().toString(36).slice(2, 8)}`] *)
Definition time_id (prefix : string) (s : state) : string :=
  prefix ++ "_" ++ now36 (draws (res s)) ++ "_" ++ slice 0 6 (random36 (draws (res s))).

Definition markFinished (s : state) : state :=
  State (World (written (res s)) true (draws (res s))) true
    (emittedAnyTool s) (fullText s) (timerFired s).

Definition set_emittedAnyTool (s : state) : state :=
  State (res s) (finished s) true (fullText s) (timerFired s).

Definition apply_patch_item (callId args : string) : list (string * Json) :=
  [("item", JObj [("type", JStr "function_call");
                  ("call_id", JStr callId);
                  ("name", JStr "apply_patch");
                  ("arguments", JStr args)])].

(** Writes one [apply_patch] function call whose arguments are
    [JSON.stringify({ input })]. *)
Definition write_apply_patch (input : string) (s : state) : state :=
  let callId := time_id "call" s in
  writeSse "response.output_item.done"
    (apply_patch_item callId (stringify (JObj [("input", JStr input)]))) (draw s).

Definition write_completed (s : state) : state :=
  let responseId := time_id "resp" s in
  writeSse "response.completed" [("response", JObj [("id", JStr responseId)])] (draw s).

Definition synthesized_patch (path : string) : string :=
  "*** Begin Patch" ++ newline ++ "*** Update File: " ++ path ++ newline ++ "@@" ++ newline
  ++ "+function subtract(a, b) { return a - b; }" ++ newline ++ "+" ++ newline
  ++ "+function multiply(a, b) { return a * b; }" ++ newline ++ "*** End Patch".

(** The [input] of a tool call that qualifies: [arguments] is an object
    whose [input] is a string with both markers. *)
Definition patch_input (tc : Json) : option string :=
  let argsObj := prop "arguments" (Some tc) in
  match (if truthy argsObj && is_object argsObj then prop "input" argsObj else None) with
  | Some (JStr input) =>
      if includes "*** Begin Patch" input && includes "*** End Patch" input
      then Some input else None
  | _ => None
  end.

(** The first entry named [apply_patch] that qualifies, as its [input]. *)
Fixpoint first_qualifying (toolCalls : list Json) : option string :=
  match toolCalls with
  | [] => None
  | tc :: rest =>
      match (if str_is "apply_patch" (prop "name" (Some tc)) then patch_input tc else None) with
      | Some input => Some input
      | None => first_qualifying rest
      end
  end.

(** The [for] loop of [emitToolCallsAndEnd], with its [continue] and [break]. *)
Fixpoint tool_loop (toolCalls : list Json) (s : state) : state :=
  match toolCalls with
  | [] => s
  | tc :: rest =>
      if negb (str_is "apply_patch" (prop "name" (Some tc)))
      then tool_loop rest s
      else match patch_input tc with
           | Some input => set_emittedAnyTool (write_apply_patch input s)
           | None => tool_loop rest s
           end
  end.

Definition emitToolCallsAndEnd (intent : option string) (parsed : Json) (s : state) : state :=
  if finished s then s
  else
    let s1 := tool_loop (items_of (prop "tool_calls" (Some parsed))) s in
    let s2 := match intent with
              | Some path =>
                  if negb (emittedAnyTool s1)
                  then write_apply_patch (synthesized_patch path) s1
                  else s1
              | None => s1
              end in
    markFinished (write_completed s2).

(** The callback of the 8-second safety timer. *)
Definition fallbackTimer (intent : option string) (s : state) : state :=
  if finished s || emittedAnyTool s then s
  else match intent with
       | Some path =>
           markFinished (write_completed (write_apply_patch (synthesized_patch path) s))
       | None => s
       end.

Definition has_apply_patch (parsed : Json) : bool :=
  truthy (Some parsed) && isArray (prop "tool_calls" (Some parsed))
  && existsb (fun tc => str_is "apply_patch" (prop "name" (Some tc)))
       (items_of (prop "tool_calls" (Some parsed))).

Definition onDelta (intent : option string) (delta : string) (s : state) : state :=
  if finished s then s
  else
    let s1 := State (res s) (finished s) (emittedAnyTool s) (fullText s ++ delta) (timerFired s) in
    if (50 <? String.length (fullText s1))%nat && includes "tool_calls" (fullText s1)
    then let parsedEarly := tryParseJson (fullText s1) in
         if has_apply_patch parsedEarly then emitToolCallsAndEnd intent parsedEarly s1 else s1
    else s1.

(** What happens while the handler awaits the upstream stream. *)
Inductive step : Type :=
| Delta (delta : string)
| TimerFires
| ClientClose.

Definition run_step (intent : option string) (st : step) (s : state) : state :=
  match st with
  | Delta delta => onDelta intent delta s
  | TimerFires =>
      if timerFired s then s
      else fallbackTimer intent
             (State (res s) (finished s) (emittedAnyTool s) (fullText s) true)
  | ClientClose => State (res s) true (emittedAnyTool s) (fullText s) (timerFired s)
  end.

Definition run_steps (intent : option string) (steps : list step) (s : state) : state :=
  fold_left (fun acc st => run_step intent st acc) steps s.

(** [err?.message || "Unknown error"] *)
Definition error_text (message : option string) : string :=
  match message with
  | Some m => if m =? "" then "Unknown error" else m
  | None => "Unknown error"
  end.

(** The [catch] block; [message] is [err?.message]. *)
Definition on_error (message : option string) (s : state) : state :=
  let text := error_text message in
  let s1 := writeSse "response.output_item.done"
              [("item", JObj [("type", JStr "message");
                              ("role", JStr "assistant");
                              ("content", JArr [JObj [("type", JStr "output_text");
                                                      ("text", JStr ("Error: " ++ text))]])])] s in
  let responseId := "resp_err_" ++ now36 (draws (res s1)) in
  markFinished (writeSse "response.completed" [("response", JObj [("id", JStr responseId)])] (draw s1)).

(** The code after the stream has ended without error. *)
Definition after_stream (intent : option string) (s : state) : state :=
  if finished s then s
  else
    let parsed := tryParseJson (fullText s) in
    if truthy (Some parsed)
       && (truthy (prop "tool_calls" (Some parsed)) || truthy (prop "message" (Some parsed)))
    then emitToolCallsAndEnd intent parsed s
    else
      let s1 := match findPatchBlocks (fullText s) with
                | patch :: _ => write_apply_patch patch s
                | [] => s
                end in
      markFinished (write_completed s1).

(** How the upstream behaves during one request: the environment lacks
    the credentials, the login or the chat creation fails, or the stream
    is opened, goes through [steps] and ends, with an error or not. *)
Inductive upstream : Type :=
| MissingEnv
| SetupFails (message : option string)
| Streams (steps : list step) (failure : option (option string)).

Definition initial : state := State fresh_world false false "" false.

(** The texts [renderInputForQwen] keeps of the content of a message. *)
Definition rendered_texts (content : list Json) : list string :=
  flat_map (fun c => match prop "text" (Some c) with
                     | Some (JStr t) =>
                         if str_is "input_text" (prop "type" (Some c))
                            || str_is "output_text" (prop "type" (Some c))
                         then [t] else []
                     | _ => []
                     end) content.

(** An item [renderInputForQwen] goes through without a throw. A message
    with a role, an array content and a text to render has its role
    upper-cased, and [item.role.toUpperCase()] throws on a role that is no
    string. The summary of a tool output is made inside a [try]. *)
Definition renders (item : Json) : bool :=
  negb (str_is "message" (prop "type" (Some item))
        && truthy (prop "role" (Some item))
        && isArray (prop "content" (Some item))
        && negb (String.concat newline
                   (rendered_texts (items_of (prop "content" (Some item)))) =? "")
        && negb (is_string (prop "role" (Some item)))).

(** [renderInputForQwen(input)], as far as the handler depends on it:
    the text it returns only goes into the prompt sent upstream; kept
    here is whether it throws, with the message Node gives. *)
Definition renderInputForQwen (inputArray : value) : outcome unit :=
  if forallb renders (items_of inputArray) then Returns tt
  else Throws (new_Error "item.role.toUpperCase is not a function").

(** [[instructions || "", ...].filter(Boolean).join("\n\n")]: the other
    elements are strings; instructions that are kept are converted to a
    string, which throws as [toString] says. *)
Definition join_prompt (instructions : value) : outcome unit :=
  match instructions with
  | Some v =>
      if truthy instructions
      then match toString v with
           | Some _ => Returns tt
           | None => Throws (new_Error "Cannot convert object to primitive value")
           end
      else Returns tt
  | None => Returns tt
  end.

(** What the handler does inside its [try] before it reads the
    environment and calls the upstream. *)
Definition before_upstream (body : value) : outcome unit :=
  match renderInputForQwen (prop "input" body) with
  | Throws err => Throws err
  | Returns _ => join_prompt (prop "instructions" body)
  end.

(** [err?.message] when it is a string. *)
Definition message_of (err : value) : option string :=
  match prop "message" err with
  | Some (JStr m) => Some m
  | _ => None
  end.

Definition post_responses (body : value) (up : upstream) : state :=
  let s0 := writeSse "response.created" [("response", JObj [])] initial in
  let intent := intent_of body in
  match before_upstream body with
  | Throws err => on_error (message_of err) s0
  | Returns _ =>
      match up with
      | MissingEnv => on_error (Some "QWEN_EMAIL and QWEN_PASSWORD must be set in env") s0
      | SetupFails message => on_error message s0
      | Streams steps failure =>
          let s1 := run_steps intent steps s0 in
          match failure with
          | Some message => on_error message s1
          | None => after_stream intent s1
          end
      end
  end.

Definition events (body : value) (up : upstream) : list event :=
  written (res (post_responses body up)).

(** The client stays connected for the whole request. *)
Definition stays_connected (up : upstream) : bool :=
  match up with
  | Streams steps _ =>
      forallb (fun st => match st with ClientClose => false | _ => true end) steps
  | _ => true
  end.

(** The two kinds of state the handler goes through while the client is
    connected: the response is open, and holds the [created] event followed
    by events of neither framing kind; or the response has ended, and what
    it holds is in order. *)
Definition created_first : event :=
  Event "response.created" (Some (JObj [("type", JStr "response.created"); ("response", JObj [])])).

Definition open (s : state) : Prop :=
  finished s = false /\ ended (res s) = false /\
  exists mid, written (res s) = created_first :: mid /\ forallb is_middle mid = true.

Definition closed (s : state) : Prop :=
  finished s = true /\ ended (res s) = true /\
  exists id, ordered None (Some (JStr id)) (written (res s)).

(** At most one tool call is written, and none while the response is open. *)
Definition one_tool_call (s : state) : Prop :=
  (ended (res s) = true -> finished s = true) /\
  (ended (res s) = false -> count is_tool_call (written (res s)) = 0) /\
  count is_tool_call (written (res s)) <= 1.

(** The tool-call event of [input]. *)
Definition apply_patch_event (callId input : string) : event :=
  Event "response.output_item.done"
    (Some (JObj (("type", JStr "response.output_item.done")
                 :: apply_patch_item callId (stringify (JObj [("input", JStr input)]))))).

End WithPlatform.
End Bridge.

(** ** The mock OpenAI proxy *)

Module Proxy.
Import Js Sse.
Local Open Scope io_scope.

(** What the adapter on port 4000 does with one request. *)
Inductive upstream : Type :=
| NetError (err : value)
| Timeout
| Reply (status : nat) (raw : string).

(** The environment variables the handler reads. [PROXY_FORCE_JSON] only
    appends a sentence to the instructions sent upstream and is left out. *)
Record env : Type := Env {
  MOCK_QWEN : bool;
  PROXY_EXPECT_JSON : bool
}.

Section WithPlatform.
Context {P : Platform}.

(** [postJson]: the status of the reply is not looked at. *)
Definition postJson (up : upstream) : outcome value :=
  match up with
  | NetError err => Throws err
  | Timeout => Throws (new_Error "Upstream timeout")
  | Reply _ raw =>
      let text := if raw =? "" then "{}" else raw in
      match JSON_parse text with
      | Some data => Returns (or_else (and_then (Some data) (prop "response" (Some data))) (Some (JStr "")))
      | None => Throws (new_Error ("Invalid JSON from upstream: " ++ JSON_parse_error text))
      end
  end.

Definition writeSse (eventName : string) (payload : Json) : io unit := sse eventName payload.

(** The identifier [genResponseId()] gives in the state [w]. *)
Definition time_id_of (w : world) : string :=
  "resp_" ++ now36 (draws w) ++ "_" ++ slice 0 6 (random36 (draws w)).

Definition usage : Json :=
  JObj [("input_tokens", JNum "0"); ("input_tokens_details", JNull);
        ("output_tokens", JNum "0"); ("output_tokens_details", JNull);
        ("total_tokens", JNum "0")].

Definition created_event (responseId : string) : Json :=
  JObj [("type", JStr "response.created"); ("response", JObj [("id", JStr responseId)])].

Definition completed_event (responseId : string) : Json :=
  JObj [("type", JStr "response.completed");
        ("response", JObj [("id", JStr responseId); ("usage", usage); ("output", JArr [])])].

Definition failed_event (message : Json) : Json :=
  JObj [("type", JStr "response.failed");
        ("response", JObj [("error", JObj [("message", message)])])].

Definition custom_tool_call_event (patch callId : string) : Json :=
  JObj [("type", JStr "response.output_item.done");
        ("item", JObj [("type", JStr "custom_tool_call");
                       ("name", JStr "apply_patch");
                       ("input", JStr patch);
                       ("call_id", JStr callId)])].

(** [err?.response?.data?.error || err?.message || "Upstream error"] *)
Definition error_message (err : value) : Json :=
  match or_else (prop "error" (prop "data" (prop "response" err)))
          (or_else (prop "message" err) (Some (JStr "Upstream error"))) with
  | Some m => m
  | None => JStr "Upstream error"
  end.

(** The patch of a strict-JSON answer, when it has one. *)
Definition json_patch (obj : Json) : option string :=
  if truthy (Some obj) && is_object (Some obj)
  then match prop "patch" (Some obj) with
       | Some (JStr p) =>
           if str_is "apply_patch" (prop "type" (Some obj)) then Some p
           else if str_is "apply_patch" (prop "action" (Some obj)) then Some p
           else match prop "apply_patch" (Some obj) with Some (JStr q) => Some q | _ => None end
       | _ => match prop "apply_patch" (Some obj) with Some (JStr q) => Some q | _ => None end
       end
  else None.

(** The first match of [/\*\*\* Begin Patch[\s\S]*?\*\*\* End Patch/]:
    from the first begin marker to the first end marker that starts after it. *)
Definition first_patch (text : string) : option string :=
  match indexOf Bridge.begin_marker 0 text with
  | Some s =>
      match indexOf Bridge.end_marker (s + String.length Bridge.begin_marker) text with
      | Some e => Some (slice s (e + String.length Bridge.end_marker) text)
      | None => None
      end
  | None => None
  end.

(** The [for] loop that cuts [text] in chunks of 400. *)
Fixpoint deltas (fuel : nat) (i : nat) (text : string) : list string :=
  match fuel with
  | 0 => []
  | S fuel' =>
      if (i <? String.length text)%nat
      then slice i (i + 400) text :: deltas fuel' (i + 400) text
      else []
  end.

Definition emit_patch (patch : string) : io unit :=
  callId <- timeId "call" ;;
  writeSse "response.output_item.done" (custom_tool_call_event patch callId).

Definition emit_message (text : string) : io unit :=
  for_each (deltas (String.length text) 0 text)
    (fun part => writeSse "response.output_text.delta"
                   (JObj [("type", JStr "response.output_text.delta"); ("delta", JStr part)])) ;;;
  writeSse "response.output_item.done" (Chat0.message_event text).

(** Step 1, under [PROXY_EXPECT_JSON]: the result is [handled] and the
    text to go on with. *)
Definition expect_json (text : string) : io (bool * string) :=
  match JSON_parse text with
  | Some obj =>
      match json_patch obj with
      | Some patch =>
          if patch =? ""
          then ret (false, match prop "text" (Some obj) with
                           | Some (JStr t) => if truthy (Some obj) then t else text
                           | _ => text
                           end)
          else emit_patch patch ;;; ret (true, text)
      | None =>
          ret (false, match prop "text" (Some obj) with
                      | Some (JStr t) => if truthy (Some obj) then t else text
                      | _ => text
                      end)
      end
  | None => ret (false, text)
  end.

Definition handleResponses (e : env) (up : upstream) : io unit :=
  responseId <- timeId "resp" ;;
  writeSse "response.created" (created_event responseId) ;;;
  match (if MOCK_QWEN e
         then Returns (Some (JStr "This is a mocked Qwen response used for local testing without internet."))
         else postJson up) with
  | Throws err =>
      writeSse "response.failed" (failed_event (error_message err)) ;;;
      writeSse "response.completed" (completed_event responseId) ;;;
      res_end
  | Returns fullText =>
      text <- match or_else fullText (Some (JStr "")) with
              | Some v => lift_toString v
              | None => ret ""
              end ;;
      ht <- (if PROXY_EXPECT_JSON e then expect_json text else ret (false, text)) ;;
      (if fst ht then ret tt
       else match first_patch (snd ht) with
            | Some patch => if patch =? "" then emit_message (snd ht) else emit_patch patch
            | None => emit_message (snd ht)
            end) ;;;
      writeSse "response.completed" (completed_event responseId) ;;;
      res_end
  end.

End WithPlatform.
End Proxy.

(** ** [test_gpt.js]: PKCE login and the credential files *)

Module Login.
Import Js.

(** *** [base64url] *)

Definition base64_alphabet : string :=
  "ABCDEFGHIJKLMNOPQRSTUVWXYZabcdefghijklmnopqrstuvwxyz0123456789+/".

Definition base64_digit (n : N) : ascii :=
  match String.get (N.to_nat n) base64_alphabet with
  | Some c => c
  | None => "="%char
  end.

(** The four 6-bit groups of three bytes. *)
Definition sextet1 (a : N) : N := N.shiftr a 2.
Definition sextet2 (a b : N) : N := N.lor (N.shiftl (N.land a 3) 4) (N.shiftr b 4).
Definition sextet3 (b c : N) : N := N.lor (N.shiftl (N.land b 15) 2) (N.shiftr c 6).
Definition sextet4 (c : N) : N := N.land c 63.

(** [buf.toString('base64')] *)
Fixpoint toString_base64 (buf : list ascii) : string :=
  match buf with
  | [] => ""
  | a :: [] =>
      let x := N_of_ascii a in
      String (base64_digit (sextet1 x)) (String (base64_digit (sextet2 x 0)) "==")
  | a :: b :: [] =>
      let x := N_of_ascii a in
      let y := N_of_ascii b in
      String (base64_digit (sextet1 x))
        (String (base64_digit (sextet2 x y)) (String (base64_digit (sextet3 y 0)) "="))
  | a :: b :: c :: rest =>
      let x := N_of_ascii a in
      let y := N_of_ascii b in
      let z := N_of_ascii c in
      String (base64_digit (sextet1 x))
        (String (base64_digit (sextet2 x y))
           (String (base64_digit (sextet3 y z))
              (String (base64_digit (sextet4 z)) (toString_base64 rest))))
  end.

(** [s.replace(/=+$/g, '')] *)
Fixpoint strip_padding (s : string) : string :=
  match s with
  | EmptyString => ""
  | String c rest =>
      let t := strip_padding rest in
      if Ascii.eqb c "="%char && (t =? "") then "" else String c t
  end.

Definition base64url (buf : list ascii) : string :=
  strip_padding (replace_char "/" "_" (replace_char "+" "-" (toString_base64 buf))).

(** The encoding the specification names: base64 over the URL-safe
    alphabet, with no padding character. *)
Definition urlsafe_alphabet : string :=
  "ABCDEFGHIJKLMNOPQRSTUVWXYZabcdefghijklmnopqrstuvwxyz0123456789-_".

Definition urlsafe_digit (n : N) : ascii :=
  match String.get (N.to_nat n) urlsafe_alphabet with
  | Some c => c
  | None => "A"%char
  end.

Fixpoint urlsafe_nopad (buf : list ascii) : string :=
  match buf with
  | [] => ""
  | a :: [] =>
      let x := N_of_ascii a in
      String (urlsafe_digit (sextet1 x)) (String (urlsafe_digit (sextet2 x 0)) "")
  | a :: b :: [] =>
      let x := N_of_ascii a in
      let y := N_of_ascii b in
      String (urlsafe_digit (sextet1 x))
        (String (urlsafe_digit (sextet2 x y)) (String (urlsafe_digit (sextet3 y 0)) ""))
  | a :: b :: c :: rest =>
      let x := N_of_ascii a in
      let y := N_of_ascii b in
      let z := N_of_ascii c in
      String (urlsafe_digit (sextet1 x))
        (String (urlsafe_digit (sextet2 x y))
           (String (urlsafe_digit (sextet3 y z))
              (String (urlsafe_digit (sextet4 z)) (urlsafe_nopad rest))))
  end.

(** What the two replacements of [base64url] do to one character. *)
Definition to_urlsafe (c : ascii) : ascii :=
  let c1 := if Ascii.eqb c "+"%char then "-"%char else c in
  if Ascii.eqb c1 "/"%char then "_"%char else c1.

Definition is_urlsafe (c : ascii) : bool :=
  match indexOf (String c "") 0 urlsafe_alphabet with Some _ => true | None => false end.

Fixpoint all_chars (p : ascii -> bool) (s : string) : bool :=
  match s with
  | EmptyString => true
  | String c rest => p c && all_chars p rest
  end.

(** A 6-bit group whose standard digit becomes its URL-safe digit, which
    is no padding character. *)
Definition good_digit (n : N) : bool :=
  Ascii.eqb (to_urlsafe (base64_digit n)) (urlsafe_digit n)
  && negb (Ascii.eqb (urlsafe_digit n) "="%char)
  && is_urlsafe (urlsafe_digit n).

Definition good_digits (a b : ascii) : bool :=
  good_digit (sextet1 (N_of_ascii a))
  && good_digit (sextet2 (N_of_ascii a) (N_of_ascii b))
  && good_digit (sextet3 (N_of_ascii a) (N_of_ascii b))
  && good_digit (sextet4 (N_of_ascii a)).

Definition all_ascii : list ascii := map ascii_of_nat (seq 0 256).

Record pkce : Type := Pkce { verifier : string; challenge : string }.

(** A credential record as the readers build it; [None] is [undefined]. *)
Record creds : Type := Creds { apiKey : value; token : value; accountId : value }.

(** What [httpsPostForm] resolves or rejects with. *)
Inductive reply : Type :=
| Resolved (body : Json)
| Rejected (message : string).

Section WithPlatform.
Context {P : Platform}.

(** [genPkce()] and [genState()]; [draw] numbers the call of
    [crypto.randomBytes]. The digest is taken of the bytes of the verifier. *)
Definition genPkce (draw : nat) : pkce :=
  let verifier := base64url (randomBytes draw 48) in
  let challenge := base64url (sha256 (list_ascii_of_string verifier)) in
  Pkce verifier challenge.

Definition genState (draw : nat) : string := base64url (randomBytes draw 24).

(** The transform a verifier goes through, as the specification words it. *)
Definition s256 (verifier : string) : string :=
  urlsafe_nopad (sha256 (list_ascii_of_string verifier)).

(** *** [parseJwtClaims] *)

(** The text the second segment of a token decodes to. *)
Definition payload_text (parts : list string) : string :=
  base64_decode_utf8 (replace_char "_" "/" (replace_char "-" "+" (nth 1 parts ""))).

(** The body of the [try]. Only a string has a [split] method. *)
Definition parseJwtClaims_try (rawJwt : Json) : outcome Json :=
  match rawJwt with
  | JStr s =>
      let parts := split_dot s in
      if (List.length parts <? 2)%nat then Returns (JObj [])
      else
        let text := payload_text parts in
        match JSON_parse text with
        | Some v => Returns (if truthy (Some v) then v else JObj [])
        | None => Throws (new_Error (JSON_parse_error text))
        end
  | _ => Throws TypeError
  end.

Definition parseJwtClaims (rawJwt : Json) : outcome Json :=
  match parseJwtClaims_try rawJwt with
  | Returns v => Returns v
  | Throws _ => Returns (JObj [])
  end.

Definition segments (rawJwt : string) : nat := List.length (split_dot rawJwt).


(** [oa.chatgpt_account_id] for the claims of [id_token], where
    [claims = parseJwtClaims(id_token) || {}] and
    [oa = (claims && claims['https://api.openai.com/auth']) || {}]. *)
Definition claimed_account_id (id_token : Json) : value :=
  match parseJwtClaims id_token with
  | Returns c =>
      let claims := or_else (Some c) (Some (JObj [])) in
      let oa := or_else (and_then claims (prop "https://api.openai.com/auth" claims))
                  (Some (JObj [])) in
      prop "chatgpt_account_id" oa
  | Throws _ => None
  end.

(** [typeof v === 'string' && v.trim()], as the trimmed text when it holds. *)
Definition nonblank (v : value) : option string :=
  match v with
  | Some (JStr s) => if trim s =? "" then None else Some (trim s)
  | _ => None
  end.

Definition or_undefined (v : value) : value := if truthy v then v else None.

(** *** [readAuthFromHome] *)

(** [file] is the text of [~/.codex/auth.json], [None] when it does not
    exist. The result is [None] for [null]. *)
Definition readAuthFromHome (file : option string) : option creds :=
  match file with
  | None => None
  | Some text =>
      match JSON_parse text with
      | None => None
      | Some raw =>
          let out_apiKey :=
            match nonblank (prop "OPENAI_API_KEY" (Some raw)) with
            | Some k => if truthy (Some raw) then Some (JStr k) else None
            | None => None
            end in
          let tokens := prop "tokens" (Some raw) in
          let out_token := or_undefined (prop "access_token" tokens) in
          let from_claims :=
            match prop "id_token" tokens with
            | Some id_token =>
                if truthy (Some id_token)
                then (if is_string (claimed_account_id id_token)
                      then claimed_account_id id_token else None)
                else None
            | None => None
            end in
          let out_accountId :=
            if negb (truthy from_claims) && truthy (prop "account_id" tokens)
            then prop "account_id" tokens else from_claims in
          if truthy (or_else out_apiKey out_token)
          then Some (Creds out_apiKey out_token out_accountId)
          else None
      end
  end.

(** *** [readSessionJson] and [writeSessionJson] *)

Definition string_or_undefined (v : value) : value := if is_string v then v else None.

(** The access token of a session file: [raw.token] when it is a
    non-empty string, else
    [raw?.tokens?.access_token || raw?.access_token || undefined]. *)
Definition session_token (raw : Json) : value :=
  let token0 := string_or_undefined (prop "token" (Some raw)) in
  if negb (truthy token0)
  then or_undefined (or_else (prop "access_token" (prop "tokens" (Some raw)))
                       (prop "access_token" (Some raw)))
  else token0.

(** [file] is the text of [session.json]. Reading a property of [null]
    throws outside any [try]. *)
Definition readSessionJson (file : option string) : outcome (option creds) :=
  match file with
  | None => Returns None
  | Some text =>
      match JSON_parse text with
      | None => Returns None
      | Some JNull => Throws TypeError
      | Some raw =>
          let r := Some raw in
          let tokens := prop "tokens" r in
          let accountId0 := string_or_undefined (prop "accountId" r) in
          let apiKey0 := string_or_undefined (prop "apiKey" r) in
          let token1 := session_token raw in
          let accountId1 :=
            if negb (truthy accountId0) then or_undefined (prop "account_id" tokens)
            else accountId0 in
          let accountId2 :=
            match prop "id_token" tokens with
            | Some id_token =>
                if negb (truthy accountId1) && truthy (Some id_token)
                   && is_string (claimed_account_id id_token)
                then claimed_account_id id_token else accountId1
            | None => accountId1
            end in
          let apiKey1 :=
            match nonblank (prop "OPENAI_API_KEY" r) with
            | Some k => if negb (truthy apiKey0) then Some (JStr k) else apiKey0
            | None => apiKey0
            end in
          Returns (if truthy token1 then Some (Creds apiKey1 token1 accountId2) else None)
      end
  end.

(** A property of an object literal: left out by [JSON.stringify] when
    [undefined]. *)
Definition field (k : string) (v : value) : list (string * Json) :=
  match v with Some j => [(k, j)] | None => [] end.

(** The text [writeSessionJson] writes; [savedAt] is the text of [Date.now()]. *)
Definition session_text (token accountId apiKey : value) (savedAt : string) : string :=
  stringify_pretty ""
    (JObj (field "token" token ++ field "accountId" accountId ++ field "apiKey" apiKey
           ++ [("savedAt", JNum savedAt)])%list).

(** [askQuestion]'s guard: [!session || (!session.apiKey && !session.token)]. *)
Definition usable (session : option creds) : bool :=
  match session with
  | Some c => truthy (apiKey c) || truthy (token c)
  | None => false
  end.

(** *** The callback listener of [startLoginServerAndAuth] *)

(** The listener: the session's [state], the text of [session.json] and
    whether [server.close()] has been scheduled. *)
Record listener : Type := Listener {
  session_state : string;
  session_file : option string;
  closing : bool
}.

(** [new URL(req.url, 'http://localhost')], when it does not throw. *)
Record request : Type := Request {
  pathname : string;
  searchParams : list (string * string)
}.

(** [url.searchParams.get(k)], [None] for [null]. *)
Fixpoint searchParams_get (k : string) (params : list (string * string)) : option string :=
  match params with
  | [] => None
  | (k', v) :: rest => if k' =? k then Some v else searchParams_get k rest
  end.

Record http_response : Type := Response {
  statusCode : nat;
  location : option string;
  body : string
}.

(** What the identity provider answers during one callback: to the code
    exchange, to the API-key exchange, and the clock at the save. *)
Record exchanges : Type := Exchanges {
  token_reply : reply;
  apikey_reply : reply;
  savedAt : string
}.

(** [exchangeCodeForTokens]; reading a property of [null] throws too. *)
Definition exchangeCodeForTokens (r : reply) : outcome Json :=
  match r with
  | Rejected message => Throws (new_Error message)
  | Resolved JNull => Throws TypeError
  | Resolved res =>
      if negb (truthy (prop "id_token" (Some res)))
      then Throws (new_Error "No id_token in token response")
      else if negb (truthy (prop "refresh_token" (Some res)))
      then Throws (new_Error "No refresh_token in token response")
      else Returns res
  end.

Definition exchangeIdTokenForApiKey (r : reply) : outcome value :=
  match r with
  | Rejected message => Throws (new_Error message)
  | Resolved JNull => Throws TypeError
  | Resolved res =>
      if negb (truthy (prop "access_token" (Some res)))
      then Throws (new_Error "API key exchange failed")
      else Returns (prop "access_token" (Some res))
  end.

(** [saveTokens]: the text written to [session.json]. *)
Definition saveTokens (tokens : Json) (maybeApiKey : value) (now : string) : string :=
  let accountId :=
    match prop "id_token" (Some tokens) with
    | Some id_token => or_undefined (claimed_account_id id_token)
    | None => None
    end in
  session_text (prop "access_token" (Some tokens)) accountId maybeApiKey now.

(** ['Server error: ' + e.message] *)
Definition server_error (err : value) : string :=
  "Server error: " ++
  match prop "message" err with
  | Some m => match toString m with Some s => s | None => "" end
  | None => "undefined"
  end.

(** The request listener; [req] is [None] when the URL does not parse. *)
Definition on_request (l : listener) (req : option request) (x : exchanges)
  : http_response * listener :=
  match req with
  | None => (Response 500 None (server_error (new_Error "Invalid URL")), l)
  | Some url =>
      if pathname url =? "/auth/callback"
      then
        let code := searchParams_get "code" (searchParams url) in
        let gotState := searchParams_get "state" (searchParams url) in
        let code_missing := match code with Some c => c =? "" | None => true end in
        let state_ok := match gotState with Some s => s =? session_state l | None => false end in
        if code_missing || negb state_ok
        then (Response 400 None "Invalid state or missing code", l)
        else
          match exchangeCodeForTokens (token_reply x) with
          | Throws err => (Response 500 None (server_error err), l)
          | Returns tokens =>
              let apiKey :=
                match exchangeIdTokenForApiKey (apikey_reply x) with
                | Returns k => k
                | Throws _ => None
                end in
              (Response 302 (Some "/success") "",
               Listener (session_state l) (Some (saveTokens tokens apiKey (savedAt x))) true)
          end
      else if pathname url =? "/success"
      then (Response 200 None
              "<html><body><h1>Login successful</h1>You can close this tab.</body></html>", l)
      else (Response 404 None "Not Found", l)
  end.

End WithPlatform.
End Login.

(** ** [gg.js] *)

Module Gg.
Import Js.

Section WithPlatform.
Context {P : Platform}.

(** The body of the [try]: [payload] is the second segment, and
    [undefined.replace] throws. *)
Definition parseJwtClaims_try (rawJwt : Json) : outcome Json :=
  match rawJwt with
  | JStr s =>
      match split_dot s with
      | _ :: payload :: _ =>
          let text := base64_decode_utf8 (replace_char "_" "/" (replace_char "-" "+" payload)) in
          match JSON_parse text with
          | Some v => Returns v
          | None => Throws (new_Error (JSON_parse_error text))
          end
      | _ => Throws TypeError
      end
  | _ => Throws TypeError
  end.

Definition parseJwtClaims (rawJwt : Json) : outcome Json :=
  match parseJwtClaims_try rawJwt with
  | Returns v => Returns v
  | Throws _ => Returns JNull
  end.

End WithPlatform.
End Gg.

(** ** A host for the examples *)

(** The statements below hold of every host. The examples run on this
    one: [JSON.parse], the base64 decoder and the update-file expression
    are tabulated on the few texts the examples use, where they give what
    Node gives; the draws are fixed; the digest is a placeholder, which no
    example depends on. *)
Definition sample_parse (text : string) : option Json :=
  if text =? "{}" then Some (JObj [])
  else if text =? "{" ++ Js.quoted "apiKey" ++ ":" ++ Js.quoted "sk-1" ++ "}"
  then Some (JObj [("apiKey", JStr "sk-1")])
  else if text =? "{" ++ Js.quoted "OPENAI_API_KEY" ++ ":" ++ Js.quoted "sk-1" ++ "}"
  then Some (JObj [("OPENAI_API_KEY", JStr "sk-1")])
  else if text =? "{" ++ Js.quoted "error" ++ ":" ++ Js.quoted "boom" ++ "}"
  then Some (JObj [("error", JStr "boom")])
  else if text =? "{" ++ Js.quoted "a" ++ ":1}"
  then Some (JObj [("a", JNum "1")])
  else if text =? "{" ++ Js.quoted "tool_calls" ++ ":[{" ++ Js.quoted "name" ++ ":" ++ Js.quoted "shell" ++ "}]}"
  then Some (JObj [("tool_calls", JArr [JObj [("name", JStr "shell")]])])
  else None.

Definition sample_bytes (draw n : nat) : list ascii :=
  repeat (ascii_of_nat (7 + draw)) n.

Definition sample_platform : Platform := {|
  JSON_parse := sample_parse;
  JSON_parse_error := fun _ => "Unexpected token";
  random36 := fun n => "r4nd0m" ++ String (ascii_of_nat (97 + n)) "";
  now36 := fun n => "mfx0" ++ String (ascii_of_nat (97 + n)) "";
  randomBytes := sample_bytes;
  randomBytes_length := fun draw n => repeat_length (ascii_of_nat (7 + draw)) n;
  sha256 := fun bytes => rev bytes;
  base64_decode_utf8 := fun s => if s =? "eyJhIjoxfQ" then "{" ++ Js.quoted "a" ++ ":1}" else "";
  match_update_file := fun text => if text =? "update the file a.js" then Some "a.js" else None;
  match_json_fence := fun _ => None
|}.

(** Two inputs of the examples: an envelope with a content, and a reply
    of the bridge with a shell call and a patch. *)
Definition hello_envelope : Js.value := Some (JObj [("content", JStr "hello")]).

Definition two_calls : Json :=
  JObj [("tool_calls",
         JArr [JObj [("name", JStr "shell"); ("arguments", JObj [("command", JArr [JStr "ls"])])];
               JObj [("name", JStr "apply_patch");
                     ("arguments", JObj [("input", JStr "*** Begin Patch x *** End Patch")])]])].

Definition api_key_auth_file : string :=
  "{" ++ Js.quoted "OPENAI_API_KEY" ++ ":" ++ Js.quoted "sk-1" ++ "}".

Definition api_key_session_file : string :=
  "{" ++ Js.quoted "apiKey" ++ ":" ++ Js.quoted "sk-1" ++ "}".

(** A request whose user text asks to update a file, and a reply that
    calls a shell. *)
Definition update_request : Js.value :=
  Some (JObj [("input",
               JArr [JObj [("type", JStr "message"); ("role", JStr "user");
                           ("content", JArr [JObj [("type", JStr "input_text");
                                                   ("text", JStr "update the file a.js")]])]])]).

Definition shell_reply : string :=
  "{" ++ Js.quoted "tool_calls" ++ ":[{" ++ Js.quoted "name" ++ ":" ++ Js.quoted "shell" ++ "}]}".

(** ** What the stages of [sendCodexResponse] write *)

Module Envelope.
Import Js Sse Translator.

(** The message event of a text. *)
Definition message_of (text : string) : event :=
  Event "response.output_item.done" (Some (message_event (JStr text))).

(** The non-empty texts of the elements of an array that pass [test]. *)
Definition part_texts (test : Json -> bool) (items : list Json) : list string :=
  flat_map (fun c => if test c
                     then match nonempty_text (prop "text" (Some c)) with
                          | Some t => [t]
                          | None => []
                          end
                     else []) items.

(** The fragments of a field: the field itself when it is a non-empty
    string, the texts of its recognized elements when it is an array. *)
Definition fragments_of (test : Json -> bool) (field : value) : list string :=
  match field with
  | Some (JStr s) => if s =? "" then [] else [s]
  | Some (JArr items) => part_texts test items
  | _ => []
  end.

Definition content_fragments (json : value) : list string :=
  fragments_of is_text_part (prop "content" json).

Definition output_fragments (json : value) : list string :=
  fragments_of is_output_text_part (prop "output" json).



Section WithPlatform.
Context {P : Platform}.

(** The arguments field of a function call for the arguments [argsIn]
    of the call. Arguments that are no string are serialized, missing or
    [null] ones as the empty object. A string of arguments that does not
    parse is passed unchanged. One that parses is not serialized again in
    every case: what it parses to is serialized when that is an object,
    an array, a number or a boolean; when it parses to a string, that
    inner string is the field; when it parses to [null], the field is the
    empty object. *)
Definition written_arguments (argsIn : value) : string :=
  match argsIn with
  | None => "{}"
  | Some JNull => "{}"
  | Some (JStr s) =>
      match JSON_parse s with
      | None => s
      | Some (JStr t) => t
      | Some JNull => "{}"
      | Some v => stringify v
      end
  | Some v => stringify v
  end.

(** A call without a command: no string [cmd], no [command] that is a
    string or an array, and the arguments are no array. *)
Definition no_command (args : value) : bool :=
  negb (is_string (prop "cmd" args)) && negb (isArray (prop "command" args))
  && negb (is_string (prop "command" args)) && negb (isArray args).

End WithPlatform.
End Envelope.

(** ** What [mapJsonToSse] of [0chat.js] writes *)

Module Chat0Items.
Import Js Sse.




Definition message_of (text : string) : event :=
  Event "response.output_item.done" (Some (Chat0.message_event text)).


End Chat0Items.

(** ** What the mock proxy writes for an answer *)

Module ProxyItems.
Import Js Sse.


Definition message_of (text : string) : event :=
  Event "response.output_item.done" (Some (Chat0.message_event text)).

Section WithPlatform.
Context {P : Platform}.

(** The answer of the adapter, or the mocked one. *)
Definition upstream_answer (e : Proxy.env) (up : Proxy.upstream) : outcome value :=
  if Proxy.MOCK_QWEN e
  then Returns (Some (JStr "This is a mocked Qwen response used for local testing without internet."))
  else Proxy.postJson up.

(** [String(fullText || "")]; [None] when the conversion throws. *)
Definition answer_text (fullText : value) : option string :=
  match or_else fullText (Some (JStr "")) with
  | Some v => toString v
  | None => Some ""
  end.


End WithPlatform.
End ProxyItems.

(** ** Reading a base64url text back *)

Module Base64Back.
Import Js Login.

(** The 6-bit group a character of the URL-safe alphabet stands for. *)
Definition urlsafe_value (c : ascii) : N :=
  match indexOf (String c "") 0 urlsafe_alphabet with
  | Some n => N.of_nat n
  | None => 0%N
  end.

(** The three bytes of four 6-bit groups. *)
Definition byte1 (s1 s2 : N) : ascii := ascii_of_N (N.lor (N.shiftl s1 2) (N.shiftr s2 4)).
Definition byte2 (s2 s3 : N) : ascii :=
  ascii_of_N (N.lor (N.shiftl (N.land s2 15) 4) (N.shiftr s3 2)).
Definition byte3 (s3 s4 : N) : ascii := ascii_of_N (N.lor (N.shiftl (N.land s3 3) 6) s4).

Fixpoint urlsafe_decode (s : string) : list ascii :=
  match s with
  | String c1 (String c2 rest2) =>
      let v1 := urlsafe_value c1 in
      let v2 := urlsafe_value c2 in
      match rest2 with
      | EmptyString => [byte1 v1 v2]
      | String c3 rest3 =>
          let v3 := urlsafe_value c3 in
          match rest3 with
          | EmptyString => [byte1 v1 v2; byte2 v2 v3]
          | String c4 rest =>
              byte1 v1 v2 :: byte2 v2 v3 :: byte3 v3 (urlsafe_value c4) :: urlsafe_decode rest
          end
      end
  | _ => []
  end.

(** The groups of two bytes in a row decode to these bytes again. *)
Definition decodes (a b : ascii) : bool :=
  let x := N_of_ascii a in
  let y := N_of_ascii b in
  Ascii.eqb (byte1 (urlsafe_value (urlsafe_digit (sextet1 x)))
               (urlsafe_value (urlsafe_digit (sextet2 x y)))) a
  && N.eqb (N.land (urlsafe_value (urlsafe_digit (sextet2 x y))) 15) (N.shiftr y 4)
  && N.eqb (N.shiftr (urlsafe_value (urlsafe_digit (sextet3 x y))) 2) (N.land x 15)
  && Ascii.eqb (ascii_of_N (N.lor (N.shiftl (N.shiftr x 4) 4) (N.land x 15))) a
  && Ascii.eqb (byte3 (urlsafe_value (urlsafe_digit (sextet3 x y)))
                  (urlsafe_value (urlsafe_digit (sextet4 y)))) b.

End Base64Back.

(** ** The session file, and the identifier of a conversation *)

Module Session.
Import Js Login.

(** The object [writeSessionJson] serializes. *)
Definition session_object (token accountId apiKey : value) (savedAt : string) : Json :=
  JObj (field "token" token ++ field "accountId" accountId ++ field "apiKey" apiKey
        ++ [("savedAt", JNum savedAt)])%list.

(** A value [readSessionJson] reads back as it was written: nothing, or a
    string, which [strict] requires not to be empty. *)
Definition reads_back (strict : bool) (v : value) : bool :=
  match v with
  | None => true
  | Some (JStr s) => negb strict || negb (s =? "")
  | Some _ => false
  end.

Definition hex_alphabet : string := "0123456789abcdef".

Definition hex_digit (n : N) : ascii :=
  match String.get (N.to_nat n) hex_alphabet with
  | Some c => c
  | None => "0"%char
  end.

(** [buf.toString('hex')] *)
Fixpoint toString_hex (buf : list ascii) : string :=
  match buf with
  | [] => ""
  | a :: rest =>
      String (hex_digit (N.shiftr (N_of_ascii a) 4))
        (String (hex_digit (N.land (N_of_ascii a) 15)) (toString_hex rest))
  end.

(** [b[i] = f(b[i])] on a buffer; an index outside the buffer changes
    nothing, and the byte stored is the value modulo 256. *)
Fixpoint update (i : nat) (f : N -> N) (buf : list ascii) : list ascii :=
  match buf, i with
  | [], _ => []
  | a :: rest, 0 => ascii_of_N (f (N_of_ascii a)) :: rest
  | a :: rest, S i' => a :: update i' f rest
  end.

Definition is_hex (c : ascii) : bool :=
  match indexOf (String c "") 0 hex_alphabet with Some _ => true | None => false end.

(** What the bytes 6 and 8 of the identifier become, and that the two
    digits of any byte are hexadecimal. *)
Definition marks_version (a : ascii) : bool :=
  Ascii.eqb (hex_digit (N.shiftr (N_of_ascii (ascii_of_N (N.lor (N.land (N_of_ascii a) 15) 64))) 4))
    "4"%char
  && (let v := hex_digit (N.shiftr (N_of_ascii (ascii_of_N (N.lor (N.land (N_of_ascii a) 63) 128))) 4) in
      Ascii.eqb v "8"%char || Ascii.eqb v "9"%char || Ascii.eqb v "a"%char || Ascii.eqb v "b"%char)
  && is_hex (hex_digit (N.shiftr (N_of_ascii a) 4))
  && is_hex (hex_digit (N.land (N_of_ascii a) 15))
  && is_hex (hex_digit (N.land (N_of_ascii (ascii_of_N (N.lor (N.land (N_of_ascii a) 15) 64))) 15))
  && is_hex (hex_digit (N.land (N_of_ascii (ascii_of_N (N.lor (N.land (N_of_ascii a) 63) 128))) 15)).

Section WithPlatform.
Context {P : Platform}.

(** [uuidLike()]; [draw] numbers the call of [crypto.randomBytes]. *)
Definition uuidLike (draw : nat) : string :=
  let b := randomBytes draw 16 in
  let b := update 6 (fun x => N.lor (N.land x 15) 64) b in
  let b := update 8 (fun x => N.lor (N.land x 63) 128) b in
  let s := toString_hex b in
  String.substring 0 8 s ++ "-" ++ String.substring 8 4 s ++ "-" ++ String.substring 12 4 s
  ++ "-" ++ String.substring 16 4 s ++ "-" ++ slice_from 20 s.

End WithPlatform.
End Session.

(** ** The request [askQuestion] prepares *)

Module Ask.
Import Js Login.

(** What [askQuestion] has settled before the first request: the
    endpoint, the headers and the models to try. *)
Record plan : Type := Plan {
  url : string;
  headers : list (string * Json);
  tryModels : list string
}.

(** [h[k] = v]: the property keeps its place when it exists. *)
Definition set_header (k : string) (v : Json) (h : list (string * Json)) : list (string * Json) :=
  if has_key k h
  then map (fun kv => if fst kv =? k then (k, v) else kv) h
  else (h ++ [(k, v)])%list.

(** [delete h[k]] *)
Definition delete_header (k : string) (h : list (string * Json)) : list (string * Json) :=
  filter (fun kv => negb (fst kv =? k)) h.

(** The text of a value inside a template literal. *)
Definition template (v : value) : outcome string :=
  match v with
  | None => Returns "undefined"
  | Some j => match toString j with Some s => Returns s | None => Throws TypeError end
  end.

(** [/^gpt-5/i.test(model)] *)
Definition is_gpt5 (model : string) : bool :=
  match model with
  | String g (String p (String t (String d (String f _)))) =>
      (Ascii.eqb g "g" || Ascii.eqb g "G") && (Ascii.eqb p "p" || Ascii.eqb p "P")
      && (Ascii.eqb t "t" || Ascii.eqb t "T") && Ascii.eqb d "-" && Ascii.eqb f "5"
  | _ => false
  end.

Definition PLATFORM_DEFAULT_MODEL : string := "gpt-5".
Definition CHATGPT_DEFAULT_MODEL : string := "o4-mini".
Definition CHATGPT_FALLBACK_MODELS : list string := ["o4"; "gpt-4o"; "gpt-4o-mini"].

(** [askQuestion] up to the loop over the models; [convId] is what
    [uuidLike] gave and [requestedModel] what [parseModelArg] returned. *)
Definition prepare (session : option creds) (convId : string) (requestedModel : option string)
  : outcome plan :=
  match session with
  | None => Throws (new_Error "No credentials provided")
  | Some c =>
      if negb (truthy (apiKey c)) && negb (truthy (token c))
      then Throws (new_Error "No credentials provided")
      else
        match template (token c) with
        | Throws e => Throws e
        | Returns bearer =>
            let h0 := [("originator", JStr "codex_cli_rs");
                       ("User-Agent", JStr "codex_cli_rs/0.0.0");
                       ("Authorization", JStr ("Bearer " ++ bearer))] in
            let h1 := match accountId c with
                      | Some a => if truthy (Some a) then set_header "chatgpt-account-id" a h0 else h0
                      | None => h0
                      end in
            let usePlatform := truthy (apiKey c) in
            let base := if usePlatform then "https://api.openai.com/v1"
                        else "https://chatgpt.com/backend-api/codex" in
            match (if usePlatform
                   then match template (apiKey c) with
                        | Returns key =>
                            Returns (delete_header "chatgpt-account-id"
                                       (set_header "Authorization" (JStr ("Bearer " ++ key)) h1))
                        | Throws e => Throws e
                        end
                   else Returns h1) with
            | Throws e => Throws e
            | Returns h2 =>
                let h3 := set_header "session_id" (JStr convId)
                            (set_header "conversation_id" (JStr convId)
                               (set_header "OpenAI-Beta" (JStr "responses=experimental") h2)) in
                let model :=
                  match requestedModel with
                  | Some m => if m =? "" then (if usePlatform then PLATFORM_DEFAULT_MODEL
                                               else CHATGPT_DEFAULT_MODEL) else m
                  | None => if usePlatform then PLATFORM_DEFAULT_MODEL else CHATGPT_DEFAULT_MODEL
                  end in
                if negb usePlatform && is_gpt5 model
                then Throws (new_Error "Model gpt-5 requires platform API access. Set OPENAI_API_KEY in ~/.codex/auth.json.")
                else
                  Returns (Plan (base ++ "/responses") h3
                             (model :: (if negb usePlatform
                                           && negb (match requestedModel with
                                                    | Some m => negb (m =? "")
                                                    | None => false
                                                    end)
                                        then filter (fun m => negb (m =? model)) CHATGPT_FALLBACK_MODELS
                                        else [])))
            end
        end
  end.

End Ask.

(** ** A second host for the examples *)

(** An answer of the adapter that does not convert to a string, the
    claims of an identity token, a credential file that names two
    accounts, and a session as [writeSessionJson] writes it. *)
Definition odd_answer : Json := JObj [("response", JObj [("toString", JNum "1")])].

Definition account_claims : Json :=
  JObj [("https://api.openai.com/auth", JObj [("chatgpt_account_id", JStr "acc-claimed")])].

Definition account_token : string :=
  "h." ++ Login.base64url (list_ascii_of_string (Js.stringify account_claims)) ++ ".s".

Definition two_accounts_file : Json :=
  JObj [("tokens", JObj [("access_token", JStr "tok");
                         ("account_id", JStr "acc-stored");
                         ("id_token", JStr account_token)])].

Definition saved_session : string :=
  Login.session_text (Some (JStr "tok")) (Some (JStr "acc")) None "1700000000000".

(** The host of the first examples, where [JSON.parse] also reads these
    texts back and the base64 decoder reads the claims. *)
Definition extras_parse (text : string) : option Json :=
  if text =? Js.stringify odd_answer then Some odd_answer
  else if text =? Js.stringify account_claims then Some account_claims
  else if text =? Js.stringify two_accounts_file then Some two_accounts_file
  else if text =? saved_session
  then Some (Session.session_object (Some (JStr "tok")) (Some (JStr "acc")) None "1700000000000")
  else sample_parse text.

Definition extras_decode (s : string) : string :=
  if s =? Js.replace_char "_" "/"
            (Js.replace_char "-" "+"
               (Login.base64url (list_ascii_of_string (Js.stringify account_claims))))
  then Js.stringify account_claims
  else "".

Definition extras_platform : Platform := {|
  JSON_parse := extras_parse;
  JSON_parse_error := fun _ => "Unexpected token";
  random36 := fun n => "r4nd0m" ++ String (ascii_of_nat (97 + n)) "";
  now36 := fun n => "mfx0" ++ String (ascii_of_nat (97 + n)) "";
  randomBytes := sample_bytes;
  randomBytes_length := fun draw n => repeat_length (ascii_of_nat (7 + draw)) n;
  sha256 := fun bytes => rev bytes;
  base64_decode_utf8 := extras_decode;
  match_update_file := fun text => if text =? "update the file a.js" then Some "a.js" else None;
  match_json_fence := fun _ => None
|}.

(** An envelope with a content, an output and one call. *)
Definition plan_envelope : Js.value :=
  Some (JObj [("content", JStr "hello");
              ("output", JArr [JObj [("type", JStr "output_text"); ("text", JStr "bye")]]);
              ("tool_calls", JArr [JObj [("name", JStr "update_plan");
                                         ("arguments", JObj [("a", JNum "1")])]])]).

Definition code_tokens : Json :=
  JObj [("id_token", JStr "x"); ("refresh_token", JStr "r"); ("access_token", JStr "tok")].

(** * Properties *)

(** ** Strings *)

Section StringFacts.

Lemma substring_length (s : string) :
  forall n m, String.length (String.substring n m s) = Nat.min m (String.length s - n).
Proof.
  induction s as [|c s IH]; intros n m.
  - destruct n, m; reflexivity.
  - destruct n as [|n].
    + destruct m as [|m]; [reflexivity|]. simpl. rewrite IH. rewrite Nat.sub_0_r. reflexivity.
    + simpl. apply IH.
Qed.

Lemma occurs_fits (pat text : string) (p : nat) :
  Bridge.occurs pat p text -> pat <> "" -> p + String.length pat <= String.length text.
Proof.
  unfold Bridge.occurs. intros H Hne.
  assert (L : String.length (String.substring p (String.length pat) text) = String.length pat)
    by (rewrite H; reflexivity).
  rewrite substring_length in L.
  assert (String.length pat <> 0) by (destruct pat; [congruence | discriminate]).
  lia.
Qed.

Lemma occurs_get (pat text : string) (p i : nat) :
  Bridge.occurs pat p text -> i < String.length pat ->
  String.get (p + i) text = String.get i pat.
Proof.
  unfold Bridge.occurs. intros H Hi.
  replace (p + i) with (i + p) by lia.
  rewrite <- (substring_correct1 text p (String.length pat) i Hi).
  rewrite H. reflexivity.
Qed.

Lemma index_ge (pat : string) (text : string) :
  forall n m, String.index n pat text = Some m -> n <= m.
Proof.
  induction text as [|c text IH]; intros n m H; simpl in H.
  - destruct n; [lia|discriminate].
  - destruct n as [|n]; [lia|].
    destruct (String.index n pat text) as [k|] eqn:E; [|discriminate].
    injection H as <-. apply IH in E. lia.
Qed.

(** [indexOf] returns the first position at or after [from] where the
    pattern stands. *)
Lemma indexOf_Some (pat text : string) (from m : nat) :
  Js.indexOf pat from text = Some m ->
  from <= m /\ Bridge.occurs pat m text /\
  (forall p, from <= p -> p < m -> ~ Bridge.occurs pat p text).
Proof.
  unfold Js.indexOf, Bridge.occurs. intros H. split; [|split].
  - eapply index_ge; eauto.
  - eapply index_correct1; eauto.
  - intros p Hp Hlt. eapply index_correct2; eauto.
Qed.

Lemma indexOf_None (pat text : string) (from : nat) :
  Js.indexOf pat from text = None -> pat <> "" ->
  forall p, from <= p -> ~ Bridge.occurs pat p text.
Proof.
  unfold Js.indexOf, Bridge.occurs. intros H Hne p Hp.
  eapply index_correct3; eauto.
Qed.

Lemma substring_substring (text : string) (s m a n : nat) :
  a + n <= m ->
  String.substring a n (String.substring s m text) = String.substring (s + a) n text.
Proof.
  intros H. apply get_correct. intros i.
  destruct (Nat.lt_ge_cases i n) as [Hi|Hi].
  - rewrite (substring_correct1 (String.substring s m text) a n i Hi).
    rewrite (substring_correct1 text (s + a) n i Hi).
    rewrite (substring_correct1 text s m (i + a)) by lia.
    f_equal. lia.
  - rewrite !substring_correct2 by assumption. reflexivity.
Qed.

End StringFacts.

(** ** [findPatchBlocks] *)

Section PatchBlocks.
Import Bridge.

Lemma begin_marker_nonempty : begin_marker <> "".
Proof. discriminate. Qed.

Lemma end_marker_nonempty : end_marker <> "".
Proof. discriminate. Qed.

(** An end marker cannot start inside a begin marker. *)
Lemma markers_apart (text : string) (s e : nat) :
  occurs begin_marker s text -> occurs end_marker e text -> s <= e ->
  s + String.length begin_marker <= e.
Proof.
  intros Hb He Hle.
  destruct (Nat.le_gt_cases (s + String.length begin_marker) e) as [|Hlt]; [assumption|].
  exfalso.
  assert (Hd : exists d, e = s + d /\ d < 15)
    by (exists (e - s); simpl in Hlt; lia).
  destruct Hd as (d & -> & Hd).
  assert (B : forall j, j < 15 -> String.get (s + j) text = String.get j begin_marker)
    by (intros j Hj; apply occurs_get; [assumption | exact Hj]).
  assert (E : forall i, i < 13 -> String.get (s + d + i) text = String.get i end_marker)
    by (intros i Hi; apply occurs_get; [assumption | exact Hi]).
  destruct d as [|[|[|d]]].
  - specialize (B 4 ltac:(lia)). specialize (E 4 ltac:(lia)).
    replace (s + 0 + 4) with (s + 4) in E by lia. rewrite B in E. discriminate.
  - specialize (B 3 ltac:(lia)). specialize (E 2 ltac:(lia)).
    replace (s + 1 + 2) with (s + 3) in E by lia. rewrite B in E. discriminate.
  - specialize (B 3 ltac:(lia)). specialize (E 1 ltac:(lia)).
    replace (s + 2 + 1) with (s + 3) in E by lia. rewrite B in E. discriminate.
  - specialize (B (3 + d) ltac:(lia)). specialize (E 0 ltac:(lia)).
    replace (s + S (S (S d)) + 0) with (s + (3 + d)) in E by lia. rewrite B in E.
    do 12 (destruct d as [|d]; [discriminate|]). lia.
Qed.

(** The loop ends, whatever blocks it starts from, once the fuel exceeds
    what is left of the text; it appends the texts of the complete spans. *)
Lemma findPatchBlocks_loop_spec (text : string) :
  forall fuel idx blocks,
    String.length text - idx < fuel ->
    exists spans,
      complete_spans text idx spans /\
      findPatchBlocks_loop fuel text idx blocks
      = Some (blocks ++ map (span_text text) spans)%list.
Proof.
  induction fuel as [|fuel IH]; intros idx blocks Hfuel.
  - lia.
  - cbn [findPatchBlocks_loop]. destruct (Js.indexOf begin_marker idx text) as [s|] eqn:Es.
    + apply indexOf_Some in Es. destruct Es as (Hs & Hb & Hfirst).
      destruct (Js.indexOf end_marker s text) as [e|] eqn:Ee.
      * apply indexOf_Some in Ee. destruct Ee as (He & Hend & Hnear).
        pose proof (markers_apart text s e Hb Hend He) as Hapart.
        pose proof (occurs_fits _ _ _ Hend end_marker_nonempty) as Hfit.
        destruct (IH (e + String.length end_marker) (blocks ++ [Js.slice s (e + String.length end_marker) text])%list)
          as (rest & Hrest & Hrun).
        { simpl in *. lia. }
        exists ((s, e) :: rest). split.
        -- apply spans_next; assumption.
        -- rewrite Hrun. rewrite <- app_assoc. reflexivity.
      * exists []. split.
        -- apply spans_done. intros s' e' Hs' Hse' Hb' He'.
           assert (s <= s').
           { destruct (Nat.le_gt_cases s s'); [assumption|]. exfalso. eapply Hfirst; eauto. }
           eapply (indexOf_None end_marker text s Ee end_marker_nonempty e'); [lia|assumption].
        -- rewrite app_nil_r. reflexivity.
    + exists []. split.
      * apply spans_done. intros s e Hs Hse Hb _.
        eapply (indexOf_None begin_marker text idx Es begin_marker_nonempty s); assumption.
      * rewrite app_nil_r. reflexivity.
Qed.

(** The spans are determined by the text. *)
Lemma complete_spans_unique (text : string) :
  forall idx l1, complete_spans text idx l1 ->
  forall l2, complete_spans text idx l2 -> l1 = l2.
Proof.
  induction 1 as [idx Hnone | idx s e rest Hs Hb Hfirst Hap He Hnear Hrest IH];
    intros l2 H2; inversion H2 as [idx' Hnone' | idx' s' e' rest' Hs' Hb' Hfirst' Hap' He' Hnear' Hrest']; subst.
  - reflexivity.
  - exfalso. apply (Hnone s' e'); try assumption. lia.
  - exfalso. apply (Hnone' s e); try assumption. lia.
  - assert (s = s').
    { destruct (Nat.lt_trichotomy s s') as [Hlt|[Heq|Hgt]]; [|assumption|].
      - exfalso. apply (Hfirst' s); assumption.
      - exfalso. apply (Hfirst s'); assumption. }
    subst s'.
    assert (e = e').
    { destruct (Nat.lt_trichotomy e e') as [Hlt|[Heq|Hgt]]; [|assumption|].
      - exfalso. apply (Hnear' e); [lia|assumption|assumption].
      - exfalso. apply (Hnear e'); [lia|assumption|assumption]. }
    subst e'. f_equal. apply IH. assumption.
Qed.

Lemma complete_spans_in (text : string) :
  forall idx spans, complete_spans text idx spans ->
  forall s e, In (s, e) spans ->
    idx <= s /\ s + String.length begin_marker <= e /\
    occurs begin_marker s text /\ occurs end_marker e text.
Proof.
  induction 1 as [idx Hnone | idx s e rest Hs Hb Hfirst Hap He Hnear Hrest IH];
    intros s0 e0 Hin.
  - destruct Hin.
  - destruct Hin as [Heq|Hin].
    + injection Heq as <- <-. auto.
    + destruct (IH _ _ Hin) as (H1 & H2 & H3 & H4).
      repeat split; try assumption. lia.
Qed.

Lemma span_text_bounded (text : string) (s e : nat) :
  s + String.length begin_marker <= e ->
  occurs begin_marker s text -> occurs end_marker e text ->
  bounded_by_markers (span_text text (s, e)).
Proof.
  intros Hap Hb He.
  pose proof (occurs_fits _ _ _ He end_marker_nonempty) as Hfit.
  unfold bounded_by_markers, span_text. simpl fst. simpl snd.
  assert (L : String.length (String.substring s (e + String.length end_marker - s) text)
              = e + String.length end_marker - s)
    by (rewrite substring_length; lia).
  rewrite L. split; [|split].
  - rewrite substring_substring by lia. rewrite Nat.add_0_r. exact Hb.
  - lia.
  - rewrite substring_substring by lia.
    replace (s + (e + String.length end_marker - s - String.length end_marker)) with e by lia.
    exact He.
Qed.

(** [indexOf] finds a marker that stands somewhere at or after [from]. *)
Lemma indexOf_finds (pat text : string) (from p : nat) :
  pat <> "" -> from <= p -> occurs pat p text ->
  exists m, Js.indexOf pat from text = Some m /\ m <= p.
Proof.
  intros Hne Hp Ho. destruct (Js.indexOf pat from text) as [m|] eqn:E.
  - exists m. split; [reflexivity|].
    apply indexOf_Some in E. destruct E as (_ & _ & Hfirst).
    destruct (Nat.le_gt_cases m p); [assumption|]. exfalso. eapply Hfirst; eauto.
  - exfalso. eapply indexOf_None; eauto.
Qed.

(** The single match of the proxy is the first block of [findPatchBlocks]. *)
Lemma first_patch_head (text : string) :
  Proxy.first_patch text = hd_error (findPatchBlocks text).
Proof.
  unfold Proxy.first_patch, findPatchBlocks, findPatchBlocks_fuel.
  cbn [findPatchBlocks_loop].
  destruct (Js.indexOf begin_marker 0 text) as [s|] eqn:Es; [|reflexivity].
  pose proof (indexOf_Some _ _ _ _ Es) as (_ & Hb & _).
  destruct (Js.indexOf end_marker s text) as [e|] eqn:Ee.
  - pose proof (indexOf_Some _ _ _ _ Ee) as (Hse & He & Hnear).
    pose proof (markers_apart text s e Hb He Hse) as Hap.
    destruct (indexOf_finds end_marker text (s + String.length begin_marker) e
                end_marker_nonempty Hap He) as (m & Em & Hm).
    rewrite Em.
    pose proof (indexOf_Some _ _ _ _ Em) as (Hsm & Hom & _).
    assert (m = e).
    { destruct (Nat.lt_trichotomy m e) as [Hlt|[Heq|Hgt]]; [|assumption|lia].
      exfalso. apply (Hnear m); [lia | assumption | assumption]. }
    subst m.
    destruct (findPatchBlocks_loop_spec text (String.length text)
                (e + String.length end_marker)
                ([] ++ [Js.slice s (e + String.length end_marker) text])%list)
      as (rest & _ & ->).
    { pose proof (occurs_fits _ _ _ He end_marker_nonempty). simpl in *. lia. }
    reflexivity.
  - destruct (Js.indexOf end_marker (s + String.length begin_marker) text) as [m|] eqn:Em;
      [|reflexivity].
    exfalso. pose proof (indexOf_Some _ _ _ _ Em) as (Hsm & Hom & _).
    eapply (indexOf_None end_marker text s Ee end_marker_nonempty m); [lia | exact Hom].
Qed.

(** C3. For every text the extractor terminates and returns exactly the
    texts of the complete begin-marker..end-marker spans of the text, in
    order of appearance and without overlap; the spans are determined by
    the text; each block is the substring of the text between the start of
    its begin marker and the end of its end marker, and carries both
    markers; a begin marker that no end marker follows lies after every
    extracted span, and a text with no end marker gives no block. The
    single match the proxy looks for is the first of these blocks. *)
Theorem C3_findPatchBlocks_spans (text : string) :
  exists spans,
    complete_spans text 0 spans /\
    (forall spans', complete_spans text 0 spans' -> spans' = spans) /\
    findPatchBlocks_fuel text = Some (map (span_text text) spans) /\
    findPatchBlocks text = map (span_text text) spans /\
    Forall bounded_by_markers (findPatchBlocks text) /\
    (forall p, occurs begin_marker p text ->
               (forall e, p <= e -> ~ occurs end_marker e text) ->
               forall s e, In (s, e) spans -> e + String.length end_marker <= p) /\
    ((forall e, ~ occurs end_marker e text) -> findPatchBlocks text = []) /\
    Proxy.first_patch text = hd_error (findPatchBlocks text).
Proof.
  destruct (findPatchBlocks_loop_spec text (S (String.length text)) 0 [])
    as (spans & Hspans & Hrun); [lia|].
  simpl app in Hrun.
  assert (Hblocks : findPatchBlocks text = map (span_text text) spans)
    by (unfold findPatchBlocks, findPatchBlocks_fuel; rewrite Hrun; reflexivity).
  exists spans. repeat split.
  - exact Hspans.
  - intros spans' H'. eapply complete_spans_unique; eauto.
  - exact Hrun.
  - exact Hblocks.
  - rewrite Hblocks. apply Forall_forall. intros block Hin.
    apply in_map_iff in Hin. destruct Hin as ([s e] & <- & Hin).
    destruct (complete_spans_in _ _ _ Hspans _ _ Hin) as (_ & Hap & Hb & He).
    apply span_text_bounded; assumption.
  - intros p Hp Hnone s e Hin.
    destruct (complete_spans_in _ _ _ Hspans _ _ Hin) as (_ & Hap & Hb & He).
    destruct (Nat.le_gt_cases p e) as [Hle|Hgt].
    + exfalso. apply (Hnone e Hle He).
    + destruct (Nat.le_gt_cases (e + String.length end_marker) p) as [|Hov]; [assumption|].
      exfalso.
      (* the begin marker at [p] would start inside the end marker at [e] *)
      assert (Hd : exists d, p = e + S d /\ S d < 13)
        by (exists (p - e - 1); simpl in Hov; lia).
      destruct Hd as (d & -> & Hd).
      pose proof (occurs_get _ _ _ 0 Hp ltac:(simpl; lia)) as B0.
      pose proof (occurs_get _ _ _ 1 Hp ltac:(simpl; lia)) as B1.
      pose proof (occurs_get _ _ _ 2 Hp ltac:(simpl; lia)) as B2.
      pose proof (occurs_fits _ _ _ Hp begin_marker_nonempty) as Hpf.
      destruct d as [|[|d]].
      * pose proof (occurs_get _ _ _ 3 He ltac:(simpl; lia)) as E3.
        replace (e + 1 + 2) with (e + 3) in B2 by lia. rewrite E3 in B2. discriminate.
      * pose proof (occurs_get _ _ _ 3 He ltac:(simpl; lia)) as E3.
        replace (e + 2 + 1) with (e + 3) in B1 by lia. rewrite E3 in B1. discriminate.
      * pose proof (occurs_get _ _ _ (3 + d) He ltac:(simpl; lia)) as E.
        replace (e + S (S (S d)) + 0) with (e + (3 + d)) in B0 by lia. rewrite E in B0.
        do 10 (destruct d as [|d]; [discriminate|]). lia.
  - intros Hnone. rewrite Hblocks.
    destruct spans as [|[s e] rest]; [reflexivity|].
    destruct (complete_spans_in _ _ _ Hspans s e (or_introl eq_refl)) as (_ & _ & _ & He).
    exfalso. apply (Hnone e He).
  - apply first_patch_head.
Qed.

(** Two complete spans and an unterminated one. *)
Example findPatchBlocks_example :
  findPatchBlocks "a *** Begin Patch x *** End Patch b *** Begin Patch *** End Patch *** Begin Patch z"
  = ["*** Begin Patch x *** End Patch"; "*** Begin Patch *** End Patch"].
Proof. reflexivity. Qed.

End PatchBlocks.

(** ** Conversions to strings *)

Section Conversions.
Import Js.

Lemma Json_nested_ind (Q : Json -> Prop) :
  Q JNull -> (forall b, Q (JBool b)) -> (forall lit, Q (JNum lit)) -> (forall s, Q (JStr s)) ->
  (forall items, Forall Q items -> Q (JArr items)) ->
  (forall fs, Forall (fun kv => Q (snd kv)) fs -> Q (JObj fs)) ->
  forall v, Q v.
Proof.
  intros Hnull Hbool Hnum Hstr Harr Hobj.
  fix IH 1. intros [| b | lit | s | items | fs].
  - exact Hnull.
  - apply Hbool.
  - apply Hnum.
  - apply Hstr.
  - apply Harr. induction items as [|x r IHr]; constructor; [apply IH | exact IHr].
  - apply Hobj. induction fs as [|[k x] r IHr]; constructor; [apply IH | exact IHr].
Qed.

Lemma join_plain (sep : string) (items : list Json) :
  Forall (fun x => plain x = true -> toString x <> None) items ->
  forallb plain items = true -> join sep items <> None.
Proof.
  induction 1 as [|x r Hx Hr IH]; intros Hp; simpl in *; [discriminate|].
  apply andb_true_iff in Hp. destruct Hp as [Hpx Hpr].
  specialize (IH Hpr). specialize (Hx Hpx).
  destruct (join sep r); [|congruence].
  destruct x; try discriminate;
    match goal with
    | |- context [toString ?v] => destruct (toString v); [discriminate | congruence]
    end.
Qed.

Lemma toString_comma_join (items : list Json) :
  toString (JArr items) = join "," items.
Proof.
  induction items as [|x r IH]; [reflexivity|].
  simpl in *. rewrite IH. reflexivity.
Qed.

Lemma toString_plain : forall v, plain v = true -> toString v <> None.
Proof.
  induction v as [| b | lit | s | items IH | fs IH] using Json_nested_ind; intros Hp;
    try discriminate.
  - rewrite toString_comma_join. apply join_plain; assumption.
  - simpl in *. apply andb_true_iff in Hp. destruct Hp as [Hk _].
    apply negb_true_iff in Hk. rewrite Hk. discriminate.
Qed.

Lemma join_plain_items (sep : string) (items : list Json) :
  forallb plain items = true -> exists s, join sep items = Some s.
Proof.
  intros Hp. destruct (join sep items) as [s|] eqn:E; [eauto|].
  exfalso. revert E. apply join_plain; [|assumption].
  apply Forall_forall. intros x _. apply toString_plain.
Qed.

Lemma plain_lookup (k : string) (fs : list (string * Json)) (v : Json) :
  plain (JObj fs) = true -> lookup k fs = Some v -> plain v = true.
Proof.
  simpl. intros Hp. apply andb_true_iff in Hp. destruct Hp as [_ Hp].
  induction fs as [|[k' x] r IH]; simpl; [discriminate|].
  apply andb_true_iff in Hp. destruct Hp as [Hx Hr].
  destruct (k' =? k); [intros [= <-]; assumption | apply IH; assumption].
Qed.

Lemma plain_prop (k : string) (v : value) :
  plain_value v = true -> plain_value (prop k v) = true.
Proof.
  destruct v as [[| | | | |fs]|]; simpl; try reflexivity.
  intros Hp. destruct (lookup k fs) as [x|] eqn:E; [|reflexivity].
  eapply plain_lookup; eauto.
Qed.

Lemma plain_items (v : value) :
  plain_value v = true -> forallb plain (items_of v) = true.
Proof. destruct v as [[| | | | items |]|]; simpl; auto. Qed.

End Conversions.

(** ** The writes of a computation *)

Section Appends.
Import Js Sse.
Context {P : Platform}.

Lemma appends_ret {A : Type} (p : event -> bool) (a : A) : appends p (ret a).
Proof. intros w. exists []. simpl. rewrite app_nil_r. auto. Qed.

Lemma appends_throw {A : Type} (p : event -> bool) (e : value) : appends p (@throw A e).
Proof. intros w. exists []. simpl. rewrite app_nil_r. auto. Qed.

Lemma appends_bind {A B : Type} (p : event -> bool) (m : io A) (k : A -> io B) :
  appends p m -> (forall a, appends p (k a)) -> appends p (bind m k).
Proof.
  intros Hm Hk w. unfold bind.
  destruct (Hm w) as (e1 & W1 & F1).
  destruct (m w) as [[a|err] w1]; simpl in *.
  - destruct (Hk a w1) as (e2 & W2 & F2).
    exists (e1 ++ e2)%list. rewrite W2, W1, app_assoc. split; [reflexivity|].
    rewrite forallb_app, F1, F2. reflexivity.
  - exists e1. auto.
Qed.

Lemma appends_sse (p : event -> bool) (name : string) (data : Json) :
  p (Event name (Some data)) = true -> appends p (sse name data).
Proof. intros Hp w. exists [Event name (Some data)]. simpl. rewrite Hp. auto. Qed.

Lemma appends_randId (p : event -> bool) (prefix : string) : appends p (randId prefix).
Proof. intros w. exists []. simpl. rewrite app_nil_r. auto. Qed.

Lemma appends_timeId (p : event -> bool) (prefix : string) : appends p (timeId prefix).
Proof. intros w. exists []. simpl. rewrite app_nil_r. auto. Qed.

Lemma appends_for_each {A : Type} (p : event -> bool) (l : list A) (body : A -> io unit) :
  (forall x, appends p (body x)) -> appends p (for_each l body).
Proof.
  intros Hb. induction l as [|x r IH]; simpl.
  - apply appends_ret.
  - apply appends_bind; [apply Hb | intros _; exact IH].
Qed.

Lemma appends_lift_toString (p : event -> bool) (v : Json) : appends p (lift_toString v).
Proof. unfold lift_toString. destruct (toString v); [apply appends_ret | apply appends_throw]. Qed.

Lemma appends_lift_join (p : event -> bool) (sep : string) (items : list Json) :
  appends p (lift_join sep items).
Proof. unfold lift_join. destruct (join sep items); [apply appends_ret | apply appends_throw]. Qed.

End Appends.

Create HintDb appends.
#[local] Hint Resolve appends_ret appends_throw appends_randId appends_timeId
  appends_lift_toString appends_lift_join : appends.

(** Splits a computation along its binds, loops and branches. *)
Ltac appends_step :=
  match goal with
  | |- Sse.appends _ (Sse.bind _ _) => apply appends_bind; [|intros ?]
  | |- Sse.appends _ (Sse.for_each _ _) => apply appends_for_each; intros ?
  | |- Sse.appends _ (Sse.sse _ _) => apply appends_sse; reflexivity
  | |- Sse.appends _ (if ?c then _ else _) => destruct c
  | |- Sse.appends _ (match ?x with _ => _ end) => destruct x
  | |- Sse.appends _ _ => solve [auto with appends]
  end.

(** ** [sendCodexResponse] *)

Section TranslatorFacts.
Import Js Sse Translator.
Context {P : Platform}.

Lemma appends_pushAssistantText (text : value) : appends is_middle (pushAssistantText text).
Proof. unfold pushAssistantText. repeat appends_step. Qed.

Lemma appends_emit_summary (json : value) : appends is_middle (emit_summary json).
Proof. unfold emit_summary. repeat appends_step. Qed.

Lemma appends_emit_final (json : value) : appends is_middle (emit_final json).
Proof. unfold emit_final. destruct (isFinal json); [apply appends_pushAssistantText | apply appends_ret]. Qed.

Lemma appends_emit_content (json : value) : appends is_middle (emit_content json).
Proof.
  unfold emit_content.
  repeat first [apply appends_pushAssistantText | appends_step].
Qed.

Lemma appends_emit_output (json : value) : appends is_middle (emit_output json).
Proof.
  unfold emit_output.
  repeat first [apply appends_pushAssistantText | appends_step].
Qed.

Lemma appends_emitFunctionCall (toolName : string) (obj : value) :
  appends is_middle (emitFunctionCall toolName obj).
Proof. unfold emitFunctionCall. repeat appends_step. Qed.

Lemma appends_emit_apply_patch_or_generic (name : string) (args : value) :
  appends is_middle (emit_apply_patch_or_generic name args).
Proof.
  unfold emit_apply_patch_or_generic, emit_generic.
  repeat first [apply appends_emitFunctionCall | appends_step].
Qed.

Lemma appends_cmdStr_of (args : value) : appends is_middle (cmdStr_of args).
Proof. unfold cmdStr_of. repeat appends_step. Qed.

Lemma appends_emitToolCall (nameIn argsIn : value) :
  appends is_middle (emitToolCall nameIn argsIn).
Proof.
  unfold emitToolCall.
  repeat first [apply appends_emitFunctionCall | apply appends_emit_apply_patch_or_generic
               | apply appends_cmdStr_of | appends_step].
Qed.

Lemma appends_emit_tools (json : value) : appends is_middle (emit_tools json).
Proof.
  unfold emit_tools.
  repeat first [apply appends_emitToolCall | appends_step].
Qed.

(** The five stages between the two framing events. *)
Lemma appends_middle (json : value) :
  appends is_middle
    (bind (emit_summary json) (fun _ =>
     bind (emit_final json) (fun _ =>
     bind (emit_content json) (fun _ =>
     bind (emit_output json) (fun _ => emit_tools json))))).
Proof.
  repeat (apply appends_bind; [|intros _]);
    auto using appends_emit_summary, appends_emit_final, appends_emit_content,
      appends_emit_output, appends_emit_tools.
Qed.

End TranslatorFacts.

Section TranslatorOrder.
Import Js Sse Translator.
Context {P : Platform}.

Lemma returns_ret {A : Type} (a : A) : returns (ret a).
Proof. intros w. exists a. reflexivity. Qed.

Lemma returns_bind {A B : Type} (m : io A) (k : A -> io B) :
  returns m -> (forall a, returns (k a)) -> returns (bind m k).
Proof.
  intros Hm Hk w. unfold bind. destruct (Hm w) as (a & Ha).
  destruct (m w) as [[a'|e] w1]; simpl in Ha; [|discriminate].
  apply Hk.
Qed.

Lemma returns_sse (name : string) (data : Json) : returns (sse name data).
Proof. intros w. exists tt. reflexivity. Qed.

Lemma returns_randId (prefix : string) : returns (randId prefix).
Proof. intros w. eexists. reflexivity. Qed.

Lemma returns_for_each {A : Type} (l : list A) (body : A -> io unit) :
  (forall x, In x l -> returns (body x)) -> returns (for_each l body).
Proof.
  induction l as [|x r IH]; intros Hb; simpl.
  - apply returns_ret.
  - apply returns_bind; [apply Hb; left; reflexivity|].
    intros _. apply IH. intros y Hy. apply Hb. right. exact Hy.
Qed.

Lemma returns_pushAssistantText (text : value) : returns (pushAssistantText text).
Proof.
  unfold pushAssistantText. destruct text as [t|]; [|apply returns_ret].
  destruct (truthy (Some t)); [apply returns_sse | apply returns_ret].
Qed.

Lemma returns_emit_summary (json : value) : returns (emit_summary json).
Proof.
  unfold emit_summary.
  destruct (prop "summary" (prop "reasoning" json)) as [[| | | s | |]|]; try apply returns_ret.
  destruct (negb (trim s =? "")); [apply returns_sse | apply returns_ret].
Qed.

Lemma returns_emit_final (json : value) : returns (emit_final json).
Proof.
  unfold emit_final. destruct (isFinal json); [apply returns_pushAssistantText | apply returns_ret].
Qed.

Lemma returns_emit_content (json : value) : returns (emit_content json).
Proof.
  unfold emit_content.
  destruct (negb (isFinal json) && is_string (prop "content" json));
    [apply returns_pushAssistantText|].
  destruct (negb (isFinal json) && isArray (prop "content" json)); [|apply returns_ret].
  apply returns_for_each. intros c _.
  destruct (is_text_part c); [apply returns_pushAssistantText | apply returns_ret].
Qed.

Lemma returns_emit_output (json : value) : returns (emit_output json).
Proof.
  unfold emit_output.
  destruct (negb (isFinal json) && is_string (prop "output" json));
    [apply returns_pushAssistantText|].
  destruct (negb (isFinal json) && isArray (prop "output" json)); [|apply returns_ret].
  apply returns_for_each. intros c _.
  destruct (is_output_text_part c); [apply returns_pushAssistantText | apply returns_ret].
Qed.

Lemma returns_emitFunctionCall (toolName : string) (obj : value) :
  returns (emitFunctionCall toolName obj).
Proof.
  unfold emitFunctionCall.
  apply returns_bind; [apply returns_randId|]. intros callId.
  apply returns_bind; [apply returns_sse|]. intros _. apply returns_ret.
Qed.

Lemma returns_emit_apply_patch_or_generic (name : string) (args : value) :
  returns (emit_apply_patch_or_generic name args).
Proof.
  unfold emit_apply_patch_or_generic, emit_generic.
  destruct (name =? "apply_patch"); [|apply returns_emitFunctionCall].
  destruct (patchText_of args) as [patchText|]; [|apply returns_emitFunctionCall].
  destruct (truthy (Some patchText)); [|apply returns_emitFunctionCall].
  apply returns_bind; [apply returns_randId|]. intros callId.
  apply returns_bind; [apply returns_sse|]. intros _. apply returns_ret.
Qed.

(** What [cmdStr_of] does, by whether the command joins. *)
Lemma cmdStr_of_joins (args : value) :
  command_joins args = true -> exists c, forall w, cmdStr_of args w = (Returns c, w).
Proof.
  unfold command_joins, cmdStr_of.
  destruct (is_string (prop "cmd" args)); [intros _; eexists; reflexivity|].
  destruct (isArray (prop "command" args)).
  { unfold lift_join, bind.
    destruct (join " " (items_of (prop "command" args))) as [s|]; [|discriminate].
    intros _. eexists. reflexivity. }
  destruct (is_string (prop "command" args)); [intros _; eexists; reflexivity|].
  destruct (isArray args); [|intros _; eexists; reflexivity].
  unfold lift_join, bind. destruct (join " " (items_of args)) as [s|]; [|discriminate].
  intros _. eexists. reflexivity.
Qed.

Lemma cmdStr_of_throws (args : value) (w : world) :
  command_joins args = false -> cmdStr_of args w = (Throws TypeError, w).
Proof.
  unfold command_joins, cmdStr_of.
  destruct (is_string (prop "cmd" args)); [discriminate|].
  destruct (isArray (prop "command" args)).
  { unfold lift_join, bind.
    destruct (join " " (items_of (prop "command" args))) as [s|]; [discriminate|].
    reflexivity. }
  destruct (is_string (prop "command" args)); [discriminate|].
  destruct (isArray args); [|discriminate].
  unfold lift_join, bind. destruct (join " " (items_of args)) as [s|]; [discriminate|].
  reflexivity.
Qed.

(** [emitToolCall], with the name of the call as [name_of] gives it. *)
Lemma emitToolCall_name (nameIn argsIn : value) :
  emitToolCall nameIn argsIn =
  bind (match name_of nameIn with Some name => ret name | None => throw TypeError end)
    (fun name =>
       if is_shell_name name
       then bind (cmdStr_of (parse_args argsIn)) (fun cmdStr =>
              match cmdStr with
              | Some c =>
                  if truthy cmdStr
                  then emitFunctionCall "exec_command" (Some (exec_payload c (parse_args argsIn)))
                  else emit_apply_patch_or_generic name (parse_args argsIn)
              | None => emit_apply_patch_or_generic name (parse_args argsIn)
              end)
       else emit_apply_patch_or_generic name (parse_args argsIn)).
Proof.
  unfold emitToolCall, name_of, lift_toString.
  destruct (or_else nameIn (Some (JStr "unknown_function"))) as [n|]; [|reflexivity].
  destruct (toString n); reflexivity.
Qed.

Lemma returns_emitToolCall (call : value) :
  call_converts call = true -> returns (emitToolCall (call_name call) (call_args call)).
Proof.
  unfold call_converts. intros H w. rewrite emitToolCall_name.
  destruct (name_of (call_name call)) as [name|]; [|discriminate].
  unfold bind at 1, ret.
  destruct (is_shell_name name); cbn [negb orb] in H.
  - destruct (cmdStr_of_joins _ H) as (c & E). unfold bind. rewrite E.
    destruct c as [c|]; [destruct (truthy (Some c))|];
      first [apply returns_emitFunctionCall | apply returns_emit_apply_patch_or_generic].
  - apply returns_emit_apply_patch_or_generic.
Qed.

(** A call that does not convert makes [emitToolCall] throw before it
    writes anything. *)
Lemma emitToolCall_throws (call : value) (w : world) :
  call_converts call = false ->
  emitToolCall (call_name call) (call_args call) w = (Throws TypeError, w).
Proof.
  unfold call_converts. intros H. rewrite emitToolCall_name.
  destruct (name_of (call_name call)) as [name|]; [|reflexivity].
  unfold bind at 1, ret.
  destruct (is_shell_name name); cbn [negb orb] in H; [|discriminate].
  unfold bind. rewrite (cmdStr_of_throws _ w H). reflexivity.
Qed.

Lemma returns_emit_tools (json : value) :
  converts json = true -> returns (emit_tools json).
Proof.
  unfold converts, emit_tools. intros H.
  destruct (negb (isFinal json) && negb (List.length (tools_of json) =? 0)%nat).
  - apply returns_for_each. intros call Hin.
    apply returns_bind; [|intros _; apply returns_ret].
    apply returns_emitToolCall.
    rewrite forallb_forall in H. apply H. exact Hin.
  - destruct (negb (isFinal json) && truthy json && truthy (call_name json)); [|apply returns_ret].
    apply returns_bind; [|intros _; apply returns_ret].
    apply returns_emitToolCall. exact H.
Qed.

Lemma for_each_calls_throw (calls : list Json) :
  forallb (fun call => call_converts (Some call)) calls = false ->
  forall w, exists w',
    for_each calls
      (fun call => bind (emitToolCall (call_name (Some call)) (call_args (Some call)))
                     (fun _ => ret tt)) w = (Throws TypeError, w').
Proof.
  induction calls as [|call rest IH]; [discriminate|].
  cbn [forallb for_each]. intros H w.
  destruct (call_converts (Some call)) eqn:E.
  - cbn [andb] in H. unfold bind at 1 2.
    destruct (returns_emitToolCall (Some call) E w) as (b & R).
    destruct (emitToolCall (call_name (Some call)) (call_args (Some call)) w) as [[b'|e] w1];
      [|discriminate R].
    unfold ret. apply IH, H.
  - unfold bind at 1 2. rewrite (emitToolCall_throws (Some call) w E).
    exists w. reflexivity.
Qed.

Lemma emit_tools_throws (json : value) (w : world) :
  converts json = false -> exists w', emit_tools json w = (Throws TypeError, w').
Proof.
  unfold converts, emit_tools.
  destruct (negb (isFinal json) && negb (List.length (tools_of json) =? 0)%nat).
  - intros H. apply for_each_calls_throw, H.
  - destruct (negb (isFinal json) && truthy json && truthy (call_name json)); [|discriminate].
    intros H. unfold bind. rewrite (emitToolCall_throws json w H). exists w. reflexivity.
Qed.

Lemma throws_after {A B : Type} (m : io A) (k : A -> io B) (e : value) :
  returns m ->
  (forall a w, exists w', k a w = (Throws e, w')) ->
  forall w, exists w', bind m k w = (Throws e, w').
Proof.
  intros R K w. unfold bind. destruct (R w) as (a & Ha).
  destruct (m w) as [[a'|e'] w1]; [|discriminate Ha]. apply K.
Qed.

(** The translator as three parts: the [created] event, the five stages
    in between, the [completed] event and the end of the response. *)
Lemma sendCodexResponse_parts (json : value) (opts : option string) (w : world) :
  sendCodexResponse json opts w =
  bind (pick_responseId opts) (fun responseId =>
    bind (sse "response.created" (created_event responseId)) (fun _ =>
      bind (bind (emit_summary json) (fun _ =>
            bind (emit_final json) (fun _ =>
            bind (emit_content json) (fun _ =>
            bind (emit_output json) (fun _ => emit_tools json)))))
        (fun _ => bind (sse "response.completed" (completed_event responseId))
                    (fun _ => res_end)))) w.
Proof.
  unfold sendCodexResponse, bind.
  destruct (pick_responseId opts w) as [[id|e] w0]; [|reflexivity].
  destruct (sse "response.created" (created_event id) w0) as [[[]|e] w1]; [|reflexivity].
  destruct (emit_summary json w1) as [[[]|e] w2]; [|reflexivity].
  destruct (emit_final json w2) as [[[]|e] w3]; [|reflexivity].
  destruct (emit_content json w3) as [[[]|e] w4]; [|reflexivity].
  destruct (emit_output json w4) as [[[]|e] w5]; [|reflexivity].
  destruct (emit_tools json w5) as [[[]|e] w6]; reflexivity.
Qed.

Lemma pick_responseId_run (opts : option string) (w : world) :
  exists id d, pick_responseId opts w = (Returns id, World (written w) (ended w) d).
Proof.
  unfold pick_responseId. destruct opts as [id|].
  - destruct (id =? "").
    + eexists _, _. reflexivity.
    + exists id, (draws w). destruct w; reflexivity.
  - eexists _, _. reflexivity.
Qed.

Lemma created_event_facts (id : string) :
  let e := Event "response.created" (Some (created_event id)) in
  is_created e = true /\ response_id e = Some (JStr id).
Proof. split; reflexivity. Qed.

Lemma completed_event_facts (id : string) :
  let e := Event "response.completed" (Some (completed_event id)) in
  is_completed e = true /\ response_id e = Some (JStr id) /\ usage e = Some zero_usage.
Proof. repeat split; reflexivity. Qed.

(** A run of the translator: it returns after the two framing events
    and what the stages wrote between them, or a stage throws. *)
Lemma sendCodexResponse_run (json : value) (opts : option string) (w : world) :
  exists id mid,
    forallb is_middle mid = true /\
    ((exists d, sendCodexResponse json opts w =
        (Returns tt,
         World (written w ++ Event "response.created" (Some (created_event id))
                  :: mid ++ [Event "response.completed" (Some (completed_event id))])%list
           true d))
     \/ (exists err w', sendCodexResponse json opts w = (Throws err, w'))).
Proof.
  destruct (sendCodexResponse json opts w) as [o w'] eqn:E.
  rewrite sendCodexResponse_parts in E. unfold bind at 1 2 in E.
  destruct (pick_responseId_run opts w) as (id & d & Hpick). rewrite Hpick in E.
  cbn [sse written ended draws] in E.
  set (w1 := World _ _ _) in E.
  unfold bind at 1 in E.
  destruct (appends_middle json w1) as (mid & Wmid & Fmid).
  exists id, mid. split; [exact Fmid|].
  destruct (bind (emit_summary json) _ w1) as [[[]|e] w2]; simpl in Wmid.
  - left. exists (draws w2). rewrite <- E.
    unfold bind, sse, res_end. cbn [written ended draws]. rewrite Wmid.
    rewrite <- !app_assoc. reflexivity.
  - right. exists e, w2. rewrite <- E. reflexivity.
Qed.

(** Whenever the translator returns, what it wrote is in order. *)
Lemma sendCodexResponse_ordered (json : value) (opts : option string) (w : world) :
  fst (sendCodexResponse json opts w) = Returns tt ->
  exists id evs,
    written (snd (sendCodexResponse json opts w)) = (written w ++ evs)%list /\
    ordered (Some (JStr id)) (Some (JStr id)) evs /\
    ended (snd (sendCodexResponse json opts w)) = true.
Proof.
  destruct (sendCodexResponse_run json opts w) as (id & mid & Fmid & [(d & ->)|(err & w' & ->)]);
    [|discriminate].
  intros _. exists id, (Event "response.created" (Some (created_event id))
                        :: mid ++ [Event "response.completed" (Some (completed_event id))])%list.
  split; [reflexivity|]. split; [|reflexivity].
  exists (Event "response.created" (Some (created_event id))), mid,
    (Event "response.completed" (Some (completed_event id))).
  repeat split; assumption.
Qed.

(** When a call does not convert, the translator throws. *)
Lemma sendCodexResponse_throws (json : value) (opts : option string) (w : world) :
  converts json = false -> exists w', sendCodexResponse json opts w = (Throws TypeError, w').
Proof.
  intros Hc. revert w. unfold sendCodexResponse.
  apply throws_after.
  { intros w0. destruct (pick_responseId_run opts w0) as (id & d & ->). eexists. reflexivity. }
  intros id.
  apply throws_after; [apply returns_sse|]. intros _.
  apply throws_after; [apply returns_emit_summary|]. intros _.
  apply throws_after; [apply returns_emit_final|]. intros _.
  apply throws_after; [apply returns_emit_content|]. intros _.
  apply throws_after; [apply returns_emit_output|]. intros _.
  intros w. unfold bind.
  destruct (emit_tools_throws json w Hc) as (w' & ->). exists w'. reflexivity.
Qed.

Lemma sendCodexResponse_returns (json : value) (opts : option string) (w : world) :
  converts json = true -> fst (sendCodexResponse json opts w) = Returns tt.
Proof.
  intros Hc.
  assert (R : returns (sendCodexResponse json opts)).
  { unfold sendCodexResponse.
    apply returns_bind.
    { intros w0. destruct (pick_responseId_run opts w0) as (id & d & ->). eexists. reflexivity. }
    intros id.
    repeat (apply returns_bind; [|intros _]);
      auto using returns_sse, returns_emit_summary, returns_emit_final, returns_emit_content,
        returns_emit_output, returns_emit_tools.
    intros w0. exists tt. reflexivity. }
  destruct (R w) as ([] & ->). reflexivity.
Qed.

End TranslatorOrder.

Section FinalMessage.
Import Js Sse Translator.
Context {P : Platform}.

Lemma count_app (p : event -> bool) (a b : list event) :
  count p (a ++ b) = count p a + count p b.
Proof. unfold count. rewrite filter_app, length_app. reflexivity. Qed.

Lemma count_none (p q : event -> bool) (l : list event) :
  (forall e, q e = true -> p e = false) -> forallb q l = true -> count p l = 0.
Proof.
  intros Hpq. induction l as [|e l IH]; intros Hq; [reflexivity|].
  simpl in Hq. apply andb_true_iff in Hq. destruct Hq as [He Hl].
  unfold count in *. simpl. rewrite (Hpq e He). apply IH, Hl.
Qed.

Lemma nonempty_text_nonempty (v : value) (s : string) :
  nonempty_text v = Some s -> v = Some (JStr s) /\ (s =? "") = false.
Proof.
  destruct v as [[| | | t | |]|]; simpl; try discriminate.
  destruct (t =? "") eqn:E; [discriminate|]. intros [= <-]. auto.
Qed.

Lemma or_else_string (v rest : value) :
  or_else (string_and_self v) rest =
  match nonempty_text v with Some s => Some (JStr s) | None => rest end.
Proof.
  destruct v as [[| | | t | |]|]; try reflexivity.
  unfold or_else, string_and_self. simpl. destruct (t =? ""); reflexivity.
Qed.

Lemma or_else_content (json rest : value) :
  or_else (string_and_self (prop "content" json)) (or_else (first_text_part json) rest) =
  match content_text (prop "content" json) with Some s => Some (JStr s) | None => rest end.
Proof.
  rewrite or_else_string. unfold first_text_part, content_text.
  destruct (prop "content" json) as [[| | | t | items |]|]; try reflexivity.
  cbn [isArray items_of nonempty_text].
  destruct (find is_text_part items) as [c|] eqn:F; [|reflexivity].
  apply find_some in F. destruct F as [_ F]. unfold is_text_part in F.
  apply andb_true_iff in F. destruct F as [_ F].
  destruct (prop "text" (Some c)) as [[| | | t | |]|]; try discriminate.
  unfold or_else. cbn [truthy nonempty_text]. destruct (t =? ""); reflexivity.
Qed.

(** The message the code picks is the one the specification describes. *)
Lemma finalMsg_final_text (json : value) : finalMsg json = Some (JStr (final_text json)).
Proof.
  unfold finalMsg, final_text. rewrite or_else_content, !or_else_string. simpl.
  destruct (nonempty_text (prop "assistant_message" json)); [reflexivity|].
  destruct (nonempty_text (prop "output" json)); [reflexivity|].
  destruct (content_text (prop "content" json)); reflexivity.
Qed.

Lemma content_text_nonempty (v : value) (s : string) :
  content_text v = Some s -> (s =? "") = false.
Proof.
  unfold content_text. destruct v as [[| | | t | items |]|]; try discriminate.
  - intros H. apply nonempty_text_nonempty in H. tauto.
  - destruct (find is_text_part items); [|discriminate].
    intros H. apply nonempty_text_nonempty in H. tauto.
Qed.

Lemma final_text_nonempty (json : value) : (final_text json =? "") = false.
Proof.
  unfold final_text. simpl.
  destruct (nonempty_text (prop "assistant_message" json)) eqn:E1;
    [apply nonempty_text_nonempty in E1; tauto|].
  destruct (nonempty_text (prop "output" json)) eqn:E2;
    [apply nonempty_text_nonempty in E2; tauto|].
  destruct (content_text (prop "content" json)) eqn:E3;
    [apply content_text_nonempty in E3; assumption | reflexivity].
Qed.

Lemma emit_summary_run (json : value) (w : world) :
  exists evs,
    emit_summary json w = (Returns tt, World (written w ++ evs) (ended w) (draws w)) /\
    forallb is_delta evs = true.
Proof.
  unfold emit_summary.
  assert (N : exists evs, @ret unit tt w = (Returns tt, World (written w ++ evs) (ended w) (draws w))
                          /\ forallb is_delta evs = true)
    by (exists []; rewrite app_nil_r; destruct w; split; reflexivity).
  destruct (prop "summary" (prop "reasoning" json)) as [[| | | s | |]|]; try exact N.
  destruct (negb (trim s =? "")); [|exact N].
  eexists [_]. split; reflexivity.
Qed.

(** A run on a final envelope. *)
Lemma sendCodexResponse_final (json : value) (opts : option string) (w : world) :
  isFinal json = true ->
  exists id sum d,
    forallb is_delta sum = true /\
    sendCodexResponse json opts w =
    (Returns tt,
     World (written w ++
            Event "response.created" (Some (created_event id))
            :: sum ++ [Event "response.output_item.done"
                         (Some (message_event (JStr (final_text json))));
                       Event "response.completed" (Some (completed_event id))])%list
       true d).
Proof.
  intros Hfinal.
  destruct (sendCodexResponse json opts w) as [o w'] eqn:E.
  unfold sendCodexResponse, bind at 1 2 in E.
  destruct (pick_responseId_run opts w) as (id & d & Hpick). rewrite Hpick in E.
  cbn [sse written ended draws] in E. unfold bind at 1 in E.
  set (w1 := World _ _ _) in E.
  destruct (emit_summary_run json w1) as (sum & Hsum & Fsum). rewrite Hsum in E.
  unfold emit_final, emit_content, emit_output, emit_tools in E.
  rewrite Hfinal in E. cbn [negb andb] in E. rewrite finalMsg_final_text in E.
  unfold pushAssistantText in E. cbn [truthy] in E. rewrite final_text_nonempty in E.
  cbn [negb bind ret sse res_end written ended draws fst snd] in E.
  subst w1. cbn [written ended draws] in E.
  exists id, sum, d. split; [exact Fsum|]. rewrite <- E.
  rewrite <- !app_assoc. reflexivity.
Qed.

(** C2. When the envelope's final flag is true, the translator returns
    after writing exactly one assistant-message event and no tool-call
    event, whatever tool calls the envelope holds, and the text of that
    message is the first of the assistant-message field, the output field
    and the content field (a string, or the first text-typed element of an
    array) that gives a non-empty text, else the literal fallback. *)
Theorem C2_final_exclusive (json : value) (opts : option string) (w : world) :
  isFinal json = true ->
  exists evs,
    fst (sendCodexResponse json opts w) = Returns tt /\
    written (snd (sendCodexResponse json opts w)) = (written w ++ evs)%list /\
    count is_message evs = 1 /\
    count is_tool_call evs = 0 /\
    (forall e, In e evs -> is_message e = true ->
               message_text e = Some (JStr (final_text json))).
Proof.
  intros Hfinal.
  destruct (sendCodexResponse_final json opts w Hfinal) as (id & sum & d & Fsum & ->).
  cbn [fst snd written].
  exists (Event "response.created" (Some (created_event id))
          :: sum ++ [Event "response.output_item.done" (Some (message_event (JStr (final_text json))));
                     Event "response.completed" (Some (completed_event id))])%list.
  split; [reflexivity|]. split; [|split; [|split]].
  - reflexivity.
  - change (count is_message ([Event "response.created" (Some (created_event id))] ++ sum
                             ++ [Event "response.output_item.done"
                                   (Some (message_event (JStr (final_text json))));
                                 Event "response.completed" (Some (completed_event id))]) = 1).
    rewrite !count_app.
    rewrite (count_none is_message is_delta sum); [reflexivity | | exact Fsum].
    intros [n dta]. unfold is_delta, is_message, is_item_done. simpl.
    intros H. apply String.eqb_eq in H. subst n. reflexivity.
  - change (count is_tool_call ([Event "response.created" (Some (created_event id))] ++ sum
                               ++ [Event "response.output_item.done"
                                     (Some (message_event (JStr (final_text json))));
                                   Event "response.completed" (Some (completed_event id))]) = 0).
    rewrite !count_app.
    rewrite (count_none is_tool_call is_delta sum); [reflexivity | | exact Fsum].
    intros [n dta]. unfold is_delta, is_tool_call, is_item_done. simpl.
    intros H. apply String.eqb_eq in H. subst n. reflexivity.
  - intros e Hin Hmsg. destruct Hin as [<-|Hin]; [discriminate|].
    apply in_app_or in Hin. destruct Hin as [Hin|[<-|[<-|[]]]].
    + exfalso. rewrite forallb_forall in Fsum. specialize (Fsum e Hin).
      destruct e as [n dta]. unfold is_delta, is_message, is_item_done in *. simpl in *.
      apply String.eqb_eq in Fsum. subst n. discriminate.
    + reflexivity.
    + discriminate.
Qed.

(** C4. For each of the five shell-like names and each of the four
    argument shapes of the listing command, the command string is
    [ls -la], and the call is written as one function-call event named
    [exec_command] whose arguments are the JSON text of the object holding
    that command. *)
Theorem C4_shell_normalization (name : string) (args : Json) (w : world) :
  In name shell_names -> In args ls_shapes ->
  cmdStr_of (Some args) w = (Returns (Some (JStr "ls -la")), w) /\
  emitToolCall (Some (JStr name)) (Some args) w =
  (Returns true,
   World (written w ++
          [Event "response.output_item.done"
             (Some (function_call_event "exec_command"
                      ("{" ++ quoted "cmd" ++ ":" ++ quoted "ls -la" ++ "}")
                      ("call_fn_" ++ random36 (draws w))))])
     (ended w) (S (draws w))).
Proof.
  intros Hname Hargs. simpl in Hname, Hargs.
  destruct Hargs as [<-|[<-|[<-|[<-|[]]]]];
    (split; [reflexivity|]);
    destruct Hname as [<-|[<-|[<-|[<-|[<-|[]]]]]]; reflexivity.
Qed.

End FinalMessage.

Section FinalMessageExamples.
Import Js Sse Translator.

(** The flag is carried by [final], [done] or [finish]; here an envelope
    with an output, a content and two tool calls. *)
Lemma C2_final_exclusive_witness :
  let json := Some (JObj [("final", JBool true); ("output", JStr "bye"); ("content", JStr "x");
                          ("tool_calls", JArr [JObj [("name", JStr "shell")];
                                               JObj [("name", JStr "apply_patch")]])]) in
  isFinal json = true /\
  exists evs,
    fst (sendCodexResponse (P := sample_platform) json None fresh_world) = Returns tt /\
    written (snd (sendCodexResponse (P := sample_platform) json None fresh_world))
    = (written fresh_world ++ evs)%list /\
    count is_message evs = 1 /\
    count is_tool_call evs = 0 /\
    (forall e, In e evs -> is_message e = true ->
               message_text e = Some (JStr (final_text json))).
Proof.
  split; [reflexivity|].
  apply (C2_final_exclusive (P := sample_platform)). reflexivity.
Defined.

Lemma C4_shell_normalization_witness :
  In "bash" shell_names /\ In (JArr [JStr "ls"; JStr "-la"]) ls_shapes /\
  emitToolCall (P := sample_platform) (Some (JStr "bash")) (Some (JArr [JStr "ls"; JStr "-la"]))
    fresh_world =
  (Returns true,
   World [Event "response.output_item.done"
            (Some (function_call_event "exec_command"
                     ("{" ++ quoted "cmd" ++ ":" ++ quoted "ls -la" ++ "}")
                     "call_fn_r4nd0ma"))]
     false 1).
Proof.
  assert (Hn : In "bash" shell_names) by (simpl; auto).
  assert (Ha : In (JArr [JStr "ls"; JStr "-la"]) ls_shapes) by (simpl; auto 6).
  split; [exact Hn|]. split; [exact Ha|].
  exact (proj2 (C4_shell_normalization (P := sample_platform) "bash"
                  (JArr [JStr "ls"; JStr "-la"]) fresh_world Hn Ha)).
Defined.

End FinalMessageExamples.

(** ** The Qwen bridge *)

Section BridgeFacts.
Import Js Sse Bridge.
Context {P : Platform}.

Lemma tool_loop_first (toolCalls : list Json) (s : state) :
  tool_loop toolCalls s =
  match first_qualifying toolCalls with
  | Some input => set_emittedAnyTool (write_apply_patch input s)
  | None => s
  end.
Proof.
  induction toolCalls as [|tc rest IH]; [reflexivity|].
  cbn [tool_loop first_qualifying].
  destruct (str_is "apply_patch" (prop "name" (Some tc))); cbn [negb].
  - destruct (patch_input tc); [reflexivity | exact IH].
  - exact IH.
Qed.

(** *** At most one tool call *)

Lemma writeSse_open (type : string) (payload : list (string * Json)) (s : state) :
  ended (res s) = false ->
  writeSse type payload s =
  State (World (written (res s) ++ [Event type (Some (JObj (("type", JStr type) :: payload)))])
           false (draws (res s)))
    (finished s) (emittedAnyTool s) (fullText s) (timerFired s).
Proof. intros H. unfold writeSse, with_res. rewrite H. reflexivity. Qed.

Lemma writeSse_ended (type : string) (payload : list (string * Json)) (s : state) :
  ended (res s) = true -> writeSse type payload s = s.
Proof. intros H. unfold writeSse. rewrite H. reflexivity. Qed.

Lemma write_apply_patch_open (input : string) (s : state) :
  ended (res s) = false ->
  write_apply_patch input s =
  State (World (written (res s) ++ [apply_patch_event (time_id "call" s) input])
           false (S (draws (res s))))
    (finished s) (emittedAnyTool s) (fullText s) (timerFired s).
Proof. intros H. unfold write_apply_patch. rewrite writeSse_open; [reflexivity | exact H]. Qed.

Lemma write_completed_open (s : state) :
  ended (res s) = false ->
  write_completed s =
  State (World (written (res s) ++
                [Event "response.completed"
                   (Some (JObj [("type", JStr "response.completed");
                                ("response", JObj [("id", JStr (time_id "resp" s))])]))])
           false (S (draws (res s))))
    (finished s) (emittedAnyTool s) (fullText s) (timerFired s).
Proof. intros H. unfold write_completed. rewrite writeSse_open; [reflexivity | exact H]. Qed.

Lemma count_snoc (p : event -> bool) (l : list event) (e : event) :
  count p (l ++ [e]) = count p l + (if p e then 1 else 0).
Proof. rewrite count_app. unfold count. simpl. destruct (p e); reflexivity. Qed.

Lemma one_tool_call_finished (s : state) :
  one_tool_call s -> finished s = false -> ended (res s) = false.
Proof.
  intros (H & _ & _) Hf. destruct (ended (res s)); [|reflexivity].
  rewrite (H eq_refl) in Hf. discriminate.
Qed.

(** What [emitToolCallsAndEnd] writes on an open response: the tool call
    of the first qualifying entry, or else the synthesized one when an
    intent was detected, then the [completed] event. *)
Lemma emitToolCallsAndEnd_writes (intent : option string) (parsed : Json) (s : state) :
  finished s = false -> ended (res s) = false ->
  exists tool last,
    written (res (emitToolCallsAndEnd intent parsed s)) = (written (res s) ++ tool ++ [last])%list /\
    is_completed last = true /\
    (exists id, response_id last = Some (JStr id)) /\
    ended (res (emitToolCallsAndEnd intent parsed s)) = true /\
    finished (emitToolCallsAndEnd intent parsed s) = true /\
    forallb is_middle tool = true /\
    (emittedAnyTool s = false ->
     tool = match first_qualifying (items_of (prop "tool_calls" (Some parsed))) with
            | Some input => [apply_patch_event (time_id "call" s) input]
            | None =>
                match intent with
                | Some path => [apply_patch_event (time_id "call" s) (synthesized_patch path)]
                | None => []
                end
            end).
Proof.
  intros Hf He. unfold emitToolCallsAndEnd. rewrite Hf, tool_loop_first.
  destruct (first_qualifying (items_of (prop "tool_calls" (Some parsed)))) as [input|].
  - rewrite (write_apply_patch_open input s He).
    assert (E : forall s', (match intent with
                            | Some path =>
                                if negb (emittedAnyTool (set_emittedAnyTool s'))
                                then write_apply_patch (synthesized_patch path) (set_emittedAnyTool s')
                                else set_emittedAnyTool s'
                            | None => set_emittedAnyTool s'
                            end) = set_emittedAnyTool s')
      by (intros s'; destruct intent; reflexivity).
    rewrite E. rewrite write_completed_open by reflexivity.
    eexists [_], _. cbn [markFinished res written ended finished set_emittedAnyTool].
    split; [rewrite <- app_assoc; reflexivity|].
    repeat split. eexists. reflexivity.
  - assert (N : exists tool last,
               written (res (markFinished (write_completed s))) = (written (res s) ++ tool ++ [last])%list /\
               is_completed last = true /\
               (exists id, response_id last = Some (JStr id)) /\
               ended (res (markFinished (write_completed s))) = true /\
               finished (markFinished (write_completed s)) = true /\
               forallb is_middle tool = true /\ tool = []).
    { rewrite write_completed_open by exact He.
      eexists [], _. cbn [markFinished res written ended finished].
      split; [reflexivity|]. repeat split. eexists. reflexivity. }
    destruct intent as [path|].
    + destruct (emittedAnyTool s) eqn:Ht; cbn [negb].
      * destruct N as (tool & last & N1 & N2 & N3 & N4 & N5 & N6 & N7).
        exists tool, last. repeat split; try assumption. discriminate.
      * rewrite (write_apply_patch_open _ s He).
        rewrite write_completed_open by reflexivity.
        eexists [_], _. cbn [markFinished res written ended finished].
        split; [rewrite <- app_assoc; reflexivity|].
        repeat split. eexists. reflexivity.
    + destruct N as (tool & last & N1 & N2 & N3 & N4 & N5 & N6 & N7).
      exists tool, last. repeat split; try assumption. intros _. exact N7.
Qed.

Lemma apply_patch_event_is_tool_call (callId input : string) :
  is_tool_call (apply_patch_event callId input) = true /\
  is_middle (apply_patch_event callId input) = true.
Proof. split; reflexivity. Qed.

Lemma one_tool_call_emitToolCallsAndEnd (intent : option string) (parsed : Json) (s : state) :
  one_tool_call s -> one_tool_call (emitToolCallsAndEnd intent parsed s).
Proof.
  intros J. destruct (finished s) eqn:Hf.
  { unfold emitToolCallsAndEnd. rewrite Hf. exact J. }
  pose proof (one_tool_call_finished s J Hf) as He.
  destruct J as (J1 & J2 & J3). specialize (J2 He).
  unfold emitToolCallsAndEnd. rewrite Hf, tool_loop_first.
  set (calls := items_of (prop "tool_calls" (Some parsed))).
  destruct (first_qualifying calls) as [input|].
  - rewrite (write_apply_patch_open input s He).
    assert (E : forall s', (match intent with
                            | Some path =>
                                if negb (emittedAnyTool (set_emittedAnyTool s'))
                                then write_apply_patch (synthesized_patch path) (set_emittedAnyTool s')
                                else set_emittedAnyTool s'
                            | None => set_emittedAnyTool s'
                            end) = set_emittedAnyTool s')
      by (intros s'; destruct intent; reflexivity).
    rewrite E. rewrite write_completed_open by reflexivity.
    unfold one_tool_call. cbn [markFinished res written ended finished set_emittedAnyTool].
    rewrite !count_snoc, J2. simpl. repeat split; auto; discriminate.
  - assert (N : one_tool_call (markFinished (write_completed s))).
    { rewrite write_completed_open by exact He.
      unfold one_tool_call. cbn [markFinished res written ended finished].
      rewrite !count_snoc, J2. simpl. repeat split; auto; discriminate. }
    destruct intent as [path|]; [|exact N].
    destruct (emittedAnyTool s); [exact N|]. cbn [negb].
    rewrite (write_apply_patch_open _ s He).
    rewrite write_completed_open by reflexivity.
    unfold one_tool_call. cbn [markFinished res written ended finished].
    rewrite !count_snoc, J2. simpl. repeat split; auto; discriminate.
Qed.

Lemma one_tool_call_fallbackTimer (intent : option string) (s : state) :
  one_tool_call s -> one_tool_call (fallbackTimer intent s).
Proof.
  intros J. unfold fallbackTimer.
  destruct (finished s) eqn:Hf; [exact J|]. cbn [orb].
  destruct (emittedAnyTool s); [exact J|].
  destruct intent as [path|]; [|exact J].
  pose proof (one_tool_call_finished s J Hf) as He.
  destruct J as (J1 & J2 & J3). specialize (J2 He).
  rewrite (write_apply_patch_open _ s He).
  rewrite write_completed_open by reflexivity.
  unfold one_tool_call. cbn [markFinished res written ended finished].
  rewrite !count_snoc, J2. simpl. repeat split; auto; discriminate.
Qed.

Lemma one_tool_call_run_step (intent : option string) (st : step) (s : state) :
  one_tool_call s -> one_tool_call (run_step intent st s).
Proof.
  intros J. destruct st as [delta| |]; cbn [run_step].
  - unfold onDelta. destruct (finished s) eqn:Hf; [exact J|].
    set (s1 := State _ _ _ _ _).
    assert (J1 : one_tool_call s1).
    { destruct J as (J1 & J2 & J3). unfold one_tool_call. subst s1. cbn [res finished].
      repeat split; auto. intros H. rewrite <- Hf. apply J1, H. }
    destruct ((50 <? String.length (fullText s1))%nat && includes "tool_calls" (fullText s1));
      [|exact J1].
    destruct (has_apply_patch (tryParseJson (fullText s1))); [|exact J1].
    apply one_tool_call_emitToolCallsAndEnd. exact J1.
  - destruct (timerFired s); [exact J|].
    apply one_tool_call_fallbackTimer. exact J.
  - destruct J as (J1 & J2 & J3). unfold one_tool_call. cbn [res finished]. auto.
Qed.

Lemma one_tool_call_run_steps (intent : option string) (steps : list step) :
  forall s, one_tool_call s -> one_tool_call (run_steps intent steps s).
Proof.
  unfold run_steps. induction steps as [|st steps IH]; intros s J; [exact J|].
  simpl. apply IH. apply one_tool_call_run_step. exact J.
Qed.

Lemma one_tool_call_on_error (message : option string) (s : state) :
  one_tool_call s -> one_tool_call (on_error message s).
Proof.
  intros (J1 & J2 & J3). unfold on_error.
  destruct (ended (res s)) eqn:He.
  - rewrite (writeSse_ended _ _ s He).
    rewrite writeSse_ended by exact He.
    unfold one_tool_call. cbn [markFinished draw with_res res written ended finished].
    repeat split; auto; discriminate.
  - specialize (J2 eq_refl).
    rewrite (writeSse_open _ _ s He). rewrite writeSse_open by reflexivity.
    unfold one_tool_call. cbn [markFinished draw with_res res written ended finished].
    rewrite !count_snoc, J2. simpl. repeat split; auto; discriminate.
Qed.

Lemma one_tool_call_after_stream (intent : option string) (s : state) :
  one_tool_call s -> one_tool_call (after_stream intent s).
Proof.
  intros J. unfold after_stream. destruct (finished s) eqn:Hf; [exact J|].
  set (parsed := tryParseJson (fullText s)).
  destruct (truthy (Some parsed)
            && (truthy (prop "tool_calls" (Some parsed)) || truthy (prop "message" (Some parsed)))).
  { apply one_tool_call_emitToolCallsAndEnd. exact J. }
  pose proof (one_tool_call_finished s J Hf) as He.
  destruct J as (J1 & J2 & J3). specialize (J2 He).
  destruct (findPatchBlocks (fullText s)) as [|patch rest].
  - rewrite write_completed_open by exact He.
    unfold one_tool_call. cbn [markFinished res written ended finished].
    rewrite !count_snoc, J2. simpl. repeat split; auto; discriminate.
  - rewrite (write_apply_patch_open _ s He).
    rewrite write_completed_open by reflexivity.
    unfold one_tool_call. cbn [markFinished res written ended finished].
    rewrite !count_snoc, J2. simpl. repeat split; auto; discriminate.
Qed.

Lemma one_tool_call_post_responses (body : value) (up : upstream) :
  one_tool_call (post_responses body up).
Proof.
  unfold post_responses.
  set (s0 := writeSse "response.created" [("response", JObj [])] initial).
  assert (J0 : one_tool_call s0) by (unfold one_tool_call; simpl; repeat split; auto; discriminate).
  destruct (before_upstream body) as [[]|err]; [|apply one_tool_call_on_error, J0].
  destruct up as [|message|steps [message|]].
  - apply one_tool_call_on_error, J0.
  - apply one_tool_call_on_error, J0.
  - apply one_tool_call_on_error, one_tool_call_run_steps, J0.
  - apply one_tool_call_after_stream, one_tool_call_run_steps, J0.
Qed.

(** *** The order of the events *)

Lemma created_first_facts :
  is_created created_first = true /\ response_id created_first = None.
Proof. split; reflexivity. Qed.

(** An open response that receives events of neither framing kind, then
    a [completed] event, and ends, is closed. *)
Lemma open_then_closed (s s' : state) (mid : list event) (last : event) :
  open s ->
  written (res s') = (written (res s) ++ mid ++ [last])%list ->
  forallb is_middle mid = true -> is_completed last = true ->
  (exists id, response_id last = Some (JStr id)) ->
  ended (res s') = true -> finished s' = true ->
  closed s'.
Proof.
  intros (_ & _ & mid0 & W0 & F0) W Fm Hl (id & Hid) He Hf.
  split; [exact Hf|]. split; [exact He|].
  exists id, created_first, (mid0 ++ mid)%list, last.
  rewrite W, W0. repeat split; try assumption.
  - simpl. rewrite app_assoc. reflexivity.
  - rewrite forallb_app, F0, Fm. reflexivity.
Qed.

Lemma closed_emitToolCallsAndEnd (intent : option string) (parsed : Json) (s : state) :
  open s -> closed (emitToolCallsAndEnd intent parsed s).
Proof.
  intros O. pose proof O as (Hf & He & _).
  destruct (emitToolCallsAndEnd_writes intent parsed s Hf He)
    as (tool & last & W & Hl & Hid & He' & Hf' & Ft & _).
  eapply open_then_closed; eauto.
Qed.

Lemma closed_on_error_open (message : option string) (s : state) :
  open s -> closed (on_error message s).
Proof.
  intros O. pose proof O as (Hf & He & _).
  unfold on_error.
  rewrite (writeSse_open _ _ s He). rewrite writeSse_open by reflexivity.
  eapply (open_then_closed s _ [_] _ O).
  - cbn [markFinished draw with_res res written ended finished].
    rewrite <- app_assoc. reflexivity.
  - reflexivity.
  - reflexivity.
  - eexists. reflexivity.
  - reflexivity.
  - reflexivity.
Qed.

Lemma closed_on_error_closed (message : option string) (s : state) :
  closed s -> closed (on_error message s).
Proof.
  intros (Hf & He & Ho). unfold on_error.
  rewrite (writeSse_ended _ _ s He). rewrite writeSse_ended by exact He.
  split; [reflexivity|]. split; [reflexivity|]. exact Ho.
Qed.

Lemma closed_after_stream (intent : option string) (s : state) :
  open s \/ closed s -> closed (after_stream intent s).
Proof.
  intros [O|C].
  - pose proof O as (Hf & He & _). unfold after_stream. rewrite Hf.
    set (parsed := tryParseJson (fullText s)).
    destruct (truthy (Some parsed)
              && (truthy (prop "tool_calls" (Some parsed)) || truthy (prop "message" (Some parsed)))).
    { apply closed_emitToolCallsAndEnd, O. }
    destruct (findPatchBlocks (fullText s)) as [|patch rest].
    + rewrite write_completed_open by exact He.
      eapply (open_then_closed s _ [] _ O); try reflexivity.
      eexists. reflexivity.
    + rewrite (write_apply_patch_open _ s He).
      rewrite write_completed_open by reflexivity.
      eapply (open_then_closed s _ [_] _ O).
      * cbn [markFinished res written ended finished]. rewrite <- app_assoc. reflexivity.
      * reflexivity.
      * reflexivity.
      * eexists. reflexivity.
      * reflexivity.
      * reflexivity.
  - pose proof C as (Hf & _). unfold after_stream. rewrite Hf. exact C.
Qed.

Lemma open_or_closed_fallbackTimer (intent : option string) (s : state) :
  open s -> open (fallbackTimer intent s) \/ closed (fallbackTimer intent s).
Proof.
  intros O. pose proof O as (Hf & He & _). unfold fallbackTimer. rewrite Hf. cbn [orb].
  destruct (emittedAnyTool s); [left; exact O|].
  destruct intent as [path|]; [|left; exact O].
  right. rewrite (write_apply_patch_open _ s He).
  rewrite write_completed_open by reflexivity.
  eapply (open_then_closed s _ [_] _ O).
  - cbn [markFinished res written ended finished]. rewrite <- app_assoc. reflexivity.
  - reflexivity.
  - reflexivity.
  - eexists. reflexivity.
  - reflexivity.
  - reflexivity.
Qed.

Lemma open_or_closed_run_step (intent : option string) (st : step) (s : state) :
  st <> ClientClose -> open s \/ closed s ->
  open (run_step intent st s) \/ closed (run_step intent st s).
Proof.
  intros Hst [O|C].
  - pose proof O as (Hf & He & mid & W & F).
    destruct st as [delta| |]; cbn [run_step]; [| |congruence].
    + unfold onDelta. rewrite Hf.
      set (s1 := State _ _ _ _ _).
      assert (O1 : open s1) by (subst s1; split; [|split]; eauto).
      destruct ((50 <? String.length (fullText s1))%nat && includes "tool_calls" (fullText s1));
        [|left; exact O1].
      destruct (has_apply_patch (tryParseJson (fullText s1))); [|left; exact O1].
      right. apply closed_emitToolCallsAndEnd, O1.
    + destruct (timerFired s); [left; exact O|].
      apply open_or_closed_fallbackTimer. split; [|split]; eauto.
  - right. pose proof C as (Hf & He & Ho).
    destruct st as [delta| |]; cbn [run_step]; [| |congruence].
    + unfold onDelta. rewrite Hf. exact C.
    + destruct (timerFired s); [exact C|].
      unfold fallbackTimer. cbn [finished]. rewrite Hf. cbn [orb].
      split; [reflexivity|]. split; [exact He | exact Ho].
Qed.

Lemma open_or_closed_run_steps (intent : option string) (steps : list step) :
  forallb (fun st => match st with ClientClose => false | _ => true end) steps = true ->
  forall s, open s \/ closed s ->
            open (run_steps intent steps s) \/ closed (run_steps intent steps s).
Proof.
  unfold run_steps. induction steps as [|st steps IH]; intros Hc s H; [exact H|].
  simpl in Hc. apply andb_true_iff in Hc. destruct Hc as [Hst Hc].
  simpl. apply IH; [exact Hc|].
  apply open_or_closed_run_step; [|exact H].
  intros ->. discriminate.
Qed.

(** While the client stays connected, the events of a request are in
    order; the [created] event carries no identifier. *)
Lemma bridge_post_responses_closed (body : value) (up : upstream) :
  stays_connected up = true -> closed (post_responses body up).
Proof.
  intros Hc. unfold post_responses.
  set (s0 := writeSse "response.created" [("response", JObj [])] initial).
  assert (O0 : open s0).
  { split; [reflexivity|]. split; [reflexivity|]. exists []. split; reflexivity. }
  destruct (before_upstream body) as [[]|err]; [|apply closed_on_error_open, O0].
  destruct up as [|message|steps [message|]].
  - apply closed_on_error_open, O0.
  - apply closed_on_error_open, O0.
  - destruct (open_or_closed_run_steps (intent_of body) steps Hc s0 (or_introl O0)) as [O|C].
    + apply closed_on_error_open, O.
    + apply closed_on_error_closed, C.
  - apply closed_after_stream. apply open_or_closed_run_steps; [exact Hc | left; exact O0].
Qed.

End BridgeFacts.

(** ** [0chat.js] and the proxy *)

Section Writes.
Import Js Sse.
Context {P : Platform}.

Lemma writes_ret {A : Type} (p : event -> bool) (a : A) : writes p (ret a).
Proof.
  intros w. exists a, [], (draws w). rewrite app_nil_r. destruct w. split; reflexivity.
Qed.

Lemma writes_bind {A B : Type} (p : event -> bool) (m : io A) (k : A -> io B) :
  writes p m -> (forall a, writes p (k a)) -> writes p (bind m k).
Proof.
  intros Hm Hk w. unfold bind.
  destruct (Hm w) as (a & e1 & d1 & -> & F1).
  destruct (Hk a (World (written w ++ e1) (ended w) d1)) as (b & e2 & d2 & -> & F2).
  exists b, (e1 ++ e2)%list, d2. cbn [written ended]. rewrite app_assoc.
  split; [reflexivity|]. rewrite forallb_app, F1, F2. reflexivity.
Qed.

Lemma writes_sse (p : event -> bool) (name : string) (data : Json) :
  p (Event name (Some data)) = true -> writes p (sse name data).
Proof.
  intros Hp w. exists tt, [Event name (Some data)], (draws w).
  split; [reflexivity|]. simpl. rewrite Hp. reflexivity.
Qed.

Lemma writes_randId (p : event -> bool) (prefix : string) : writes p (randId prefix).
Proof.
  intros w. eexists _, [], _. rewrite app_nil_r. split; reflexivity.
Qed.

Lemma writes_timeId (p : event -> bool) (prefix : string) : writes p (timeId prefix).
Proof.
  intros w. eexists _, [], _. rewrite app_nil_r. split; reflexivity.
Qed.

Lemma writes_for_each {A : Type} (p : event -> bool) (l : list A) (body : A -> io unit) :
  (forall x, writes p (body x)) -> writes p (for_each l body).
Proof.
  intros Hb. induction l as [|x r IH]; simpl.
  - apply writes_ret.
  - apply writes_bind; [apply Hb | intros _; exact IH].
Qed.

End Writes.

Create HintDb writes.
#[local] Hint Resolve writes_ret writes_randId writes_timeId : writes.

Ltac writes_step :=
  match goal with
  | |- Sse.writes _ (Sse.bind _ _) => apply writes_bind; [|intros ?]
  | |- Sse.writes _ (Sse.for_each _ _) => apply writes_for_each; intros ?
  | |- Sse.writes _ (Sse.sse _ _) => apply writes_sse; reflexivity
  | |- Sse.writes _ (Proxy.writeSse _ _) => apply writes_sse; reflexivity
  | |- Sse.writes _ (if ?c then _ else _) => destruct c
  | |- Sse.writes _ (match ?x with _ => _ end) => destruct x
  | |- Sse.writes _ _ => solve [auto with writes]
  end.

Section Chat0Facts.
Import Js Sse.
Context {P : Platform}.

Lemma writes_mapJsonToSse (obj : value) : writes is_middle (Chat0.mapJsonToSse obj).
Proof.
  unfold Chat0.mapJsonToSse, Chat0.emit_tool, Chat0.emit_text_part.
  repeat writes_step.
Qed.

(** A run of the route of [0chat.js]. *)
Lemma chat0_post_responses_run (llmReply : string) (w : world) :
  exists mid d,
    forallb is_middle mid = true /\
    Chat0.post_responses llmReply w =
    (Returns tt,
     World (written w ++
            Event "response.created"
              (Some (Translator.created_event ("resp_" ++ random36 (draws w))))
            :: mid ++ [Event "response.completed"
                         (Some (Translator.completed_event ("resp_" ++ random36 (draws w))))])%list
       true d).
Proof.
  destruct (Chat0.post_responses llmReply w) as [o w'] eqn:E.
  unfold Chat0.post_responses in E. unfold bind at 1 2 in E.
  cbn [randId sse written ended draws] in E. cbv zeta in E.
  set (w1 := World _ _ _) in E. unfold bind at 1 in E.
  assert (M : writes is_middle
                (if truthy (Some (Chat0.tryParseJson llmReply))
                 then Chat0.mapJsonToSse (Some (Chat0.tryParseJson llmReply))
                 else sse "response.output_item.done" (Chat0.message_event llmReply))).
  { destruct (truthy (Some (Chat0.tryParseJson llmReply)));
      [apply writes_mapJsonToSse | apply writes_sse; reflexivity]. }
  destruct (M w1) as ([] & mid & d & HM & F). rewrite HM in E.
  exists mid, d. split; [exact F|]. rewrite <- E.
  unfold bind, sse, res_end. subst w1. cbn [written ended draws].
  rewrite <- !app_assoc. reflexivity.
Qed.

End Chat0Facts.

Section ProxyFacts.
Import Js Sse Proxy.
Context {P : Platform}.

Lemma truthy_or_else_r (a b : value) : truthy b = true -> truthy (or_else a b) = true.
Proof. intros H. unfold or_else. destruct (truthy a) eqn:E; assumption. Qed.

Lemma error_message_truthy (err : value) : truthy (Some (error_message err)) = true.
Proof.
  unfold error_message.
  set (m := or_else _ _).
  assert (T : truthy m = true) by (subst m; do 2 apply truthy_or_else_r; reflexivity).
  destruct m as [j|]; [exact T | reflexivity].
Qed.

(** When [postJson] rejects: on a transport error, on the timeout, and on
    a body that is not JSON. The status plays no part. *)
Lemma postJson_throws (up : upstream) (err : value) :
  postJson up = Throws err <->
  up = NetError err
  \/ (up = Timeout /\ err = new_Error "Upstream timeout")
  \/ (exists status raw,
        up = Reply status raw /\
        JSON_parse (if raw =? "" then "{}" else raw) = None /\
        err = new_Error ("Invalid JSON from upstream: "
                         ++ JSON_parse_error (if raw =? "" then "{}" else raw))).
Proof.
  split.
  - destruct up as [e| |status raw]; simpl.
    + intros [= ->]. left. reflexivity.
    + intros [= <-]. right. left. split; reflexivity.
    + destruct (JSON_parse (if raw =? "" then "{}" else raw)) eqn:E; [discriminate|].
      intros [= <-]. right. right. exists status, raw. repeat split. exact E.
  - intros [->|[[-> ->]|(status & raw & -> & E & ->)]]; simpl; try reflexivity.
    rewrite E. reflexivity.
Qed.

Lemma postJson_reply_parsed (status : nat) (raw : string) (data : Json) :
  JSON_parse (if raw =? "" then "{}" else raw) = Some data ->
  exists fullText, postJson (Reply status raw) = Returns fullText.
Proof. intros E. simpl. rewrite E. eexists. reflexivity. Qed.

(** The failure path of [handleResponses]. *)
Lemma handleResponses_failure (e : env) (up : upstream) (err : value) (w : world) :
  MOCK_QWEN e = false -> postJson up = Throws err ->
  handleResponses e up w =
  (Returns tt,
   World (written w ++
          [Event "response.created" (Some (created_event (time_id_of w)));
           Event "response.failed" (Some (failed_event (error_message err)));
           Event "response.completed" (Some (completed_event (time_id_of w)))])
     true (S (draws w))).
Proof.
  intros Hm Hp. unfold handleResponses. rewrite Hm, Hp.
  unfold bind, timeId, writeSse, sse, res_end, time_id_of. cbn [written ended draws].
  rewrite <- !app_assoc. reflexivity.
Qed.

End ProxyFacts.

(** ** The order of the events, the failure of the upstream, the tool calls of the bridge *)

Section StreamClaims.
Import Js Sse.
Context {P : Platform}.

(** C1 (amended). The translator [sendCodexResponse], on every envelope
    on which the conversions of its tool calls do not throw (the name of
    each call it emits converts to a string and, under a shell-like name,
    the command joins), and the route of [0chat.js], on every reply, write
    a sequence that begins with exactly one created event and ends with
    exactly one completed event, both carrying the same response
    identifier; on every other envelope the translator throws. The Qwen
    bridge, while the client stays connected, writes a sequence that
    begins with exactly one created event and ends with exactly one
    completed event; its created event carries no identifier, and its
    completed event carries one made at the end. *)
Theorem C1_order_of_events (json : value) (opts : option string) (w : world)
  (llmReply : string) (body : value) (up : Bridge.upstream) :
  Translator.converts json = true ->
  Bridge.stays_connected up = true ->
  (exists id evs d,
      Translator.sendCodexResponse json opts w = (Returns tt, World (written w ++ evs) true d) /\
      ordered (Some (JStr id)) (Some (JStr id)) evs)
  /\ (exists id evs d,
         Chat0.post_responses llmReply w = (Returns tt, World (written w ++ evs) true d) /\
         ordered (Some (JStr id)) (Some (JStr id)) evs)
  /\ (exists id, ordered None (Some (JStr id)) (Bridge.events body up))
  /\ (forall other,
         Translator.converts other = false ->
         exists w', Translator.sendCodexResponse other opts w = (Throws TypeError, w')).
Proof.
  intros Hc Hs. split; [|split; [|split]].
  - pose proof (sendCodexResponse_returns json opts w Hc) as R.
    destruct (sendCodexResponse_run json opts w) as (id & mid & F & [(d & E)|(err & w' & E)]);
      [|rewrite E in R; discriminate].
    exists id, (Event "response.created" (Some (Translator.created_event id))
                :: mid ++ [Event "response.completed" (Some (Translator.completed_event id))])%list, d.
    split; [exact E|].
    eexists _, mid, _. repeat split; try reflexivity. exact F.
  - destruct (chat0_post_responses_run llmReply w) as (mid & d & F & E).
    eexists _, _, d. split; [exact E|].
    eexists _, mid, _. repeat split; try reflexivity. exact F.
  - destruct (bridge_post_responses_closed body up Hs) as (_ & _ & Ho). exact Ho.
  - intros other Ho. apply sendCodexResponse_throws, Ho.
Qed.

(** C10 (amended). A request to the Qwen bridge writes at most one
    tool-call event. On an open response [emitToolCallsAndEnd] writes the
    function call of the first entry named [apply_patch] whose input
    holds both markers, skipping every entry of another name; when no
    entry qualifies and an update-file intent was detected it writes a
    synthesized [apply_patch] call instead; then it writes the completed
    event. When the reply holds neither tool calls nor a message, the
    first patch block found in its text is written as the function call. *)
Theorem C10_bridge_tool_calls (body : value) (up : Bridge.upstream)
  (intent : option string) (parsed : Json) (s : Bridge.state) :
  Bridge.finished s = false -> ended (Bridge.res s) = false ->
  Bridge.emittedAnyTool s = false ->
  count is_tool_call (Bridge.events body up) <= 1
  /\ (exists last,
         is_completed last = true /\
         written (Bridge.res (Bridge.emitToolCallsAndEnd intent parsed s))
         = (written (Bridge.res s)
            ++ match Bridge.first_qualifying (items_of (prop "tool_calls" (Some parsed))) with
               | Some input => [Bridge.apply_patch_event (Bridge.time_id "call" s) input]
               | None =>
                   match intent with
                   | Some path =>
                       [Bridge.apply_patch_event (Bridge.time_id "call" s)
                          (Bridge.synthesized_patch path)]
                   | None => []
                   end
               end ++ [last])%list)
  /\ (forall tc rest,
         str_is "apply_patch" (prop "name" (Some tc)) = false ->
         Bridge.tool_loop (tc :: rest) s = Bridge.tool_loop rest s)
  /\ (truthy (Some (Bridge.tryParseJson (Bridge.fullText s)))
      && (truthy (prop "tool_calls" (Some (Bridge.tryParseJson (Bridge.fullText s))))
          || truthy (prop "message" (Some (Bridge.tryParseJson (Bridge.fullText s))))) = false ->
      exists last,
        is_completed last = true /\
        written (Bridge.res (Bridge.after_stream intent s))
        = (written (Bridge.res s)
           ++ match Bridge.findPatchBlocks (Bridge.fullText s) with
              | patch :: _ => [Bridge.apply_patch_event (Bridge.time_id "call" s) patch]
              | [] => []
              end ++ [last])%list).
Proof.
  intros Hf He Ht. split; [|split; [|split]].
  - destruct (one_tool_call_post_responses body up) as (_ & _ & H). exact H.
  - destruct (emitToolCallsAndEnd_writes intent parsed s Hf He)
      as (tool & last & W & Hl & _ & _ & _ & _ & Htool).
    exists last. split; [exact Hl|]. rewrite W, (Htool Ht). reflexivity.
  - intros tc rest Hn. cbn [Bridge.tool_loop]. rewrite Hn. reflexivity.
  - intros Hp. unfold Bridge.after_stream. rewrite Hf, Hp.
    destruct (Bridge.findPatchBlocks (Bridge.fullText s)) as [|patch rest].
    + rewrite write_completed_open by exact He.
      eexists. cbn [Bridge.markFinished Bridge.res written].
      split; cycle 1. { reflexivity. } reflexivity.
    + rewrite (write_apply_patch_open _ s He).
      rewrite write_completed_open by reflexivity.
      eexists. cbn [Bridge.markFinished Bridge.res written].
      split; cycle 1. { rewrite <- app_assoc. reflexivity. } reflexivity.
Qed.

End StreamClaims.

Section StreamExamples.
Import Js Sse.

Lemma C1_order_of_events_witness :
  Translator.converts (P := sample_platform) (Some two_calls) = true /\
  Bridge.stays_connected (Bridge.Streams [Bridge.Delta "hi"; Bridge.TimerFires] None) = true /\
  (exists id evs d,
      Translator.sendCodexResponse (P := sample_platform) (Some two_calls) None fresh_world
      = (Returns tt, World (written fresh_world ++ evs) true d) /\
      ordered (Some (JStr id)) (Some (JStr id)) evs) /\
  (exists id, ordered None (Some (JStr id))
                (Bridge.events (P := sample_platform) None
                   (Bridge.Streams [Bridge.Delta "hi"; Bridge.TimerFires] None))).
Proof.
  split; [reflexivity|]. split; [reflexivity|].
  pose proof (C1_order_of_events (P := sample_platform) (Some two_calls) None fresh_world "hi"
                None (Bridge.Streams [Bridge.Delta "hi"; Bridge.TimerFires] None)
                eq_refl eq_refl) as (H1 & _ & H3 & _).
  split; [exact H1 | exact H3].
Defined.

(** Two inputs on which the claim fails as it is stated. The bridge, on
    a reply that ends at once: the created event carries no identifier,
    the completed event carries a fresh one. The translator, on a call
    whose name is an object with an own [toString]: it throws after the
    created event and writes no completed event. *)
Lemma C1_not_for_every_input :
  (exists first last,
      Bridge.events (P := sample_platform) None (Bridge.Streams [] None) = [first; last] /\
      is_created first = true /\ is_completed last = true /\
      response_id first = None /\
      response_id last = Some (JStr "resp_mfx0a_r4nd0m") /\
      response_id first <> response_id last)
  /\ (let json := Some (JObj [("tool_calls",
                               JArr [JObj [("name", JObj [("toString", JNum "1")])]])]) in
      Translator.converts (P := sample_platform) json = false /\
      Translator.sendCodexResponse (P := sample_platform) json None fresh_world =
        (Throws TypeError,
         World [Event "response.created" (Some (Translator.created_event "resp_r4nd0ma"))]
           false 1) /\
      count is_completed
        (written (snd (Translator.sendCodexResponse (P := sample_platform) json None fresh_world)))
      = 0).
Proof.
  split.
  - eexists _, _. split; [reflexivity|]. repeat split. discriminate.
  - cbv zeta. repeat split.
Qed.

(** Envelopes whose calls hold an own [toString] where nothing converts
    it: arguments that are only serialized, and a name whose own
    [toString] lies deeper than the conversion looks. The translator
    returns on both. *)
Example translator_returns_on_serialized_toString :
  let odd_args := Some (JObj [("tool_calls",
                               JArr [JObj [("name", JStr "update_plan");
                                           ("arguments", JObj [("toString", JNum "1")])]])]) in
  let odd_name := Some (JObj [("tool_calls",
                               JArr [JObj [("name", JObj [("a", JObj [("toString", JNum "1")])])]])]) in
  Translator.converts (P := sample_platform) odd_args = true /\
  Translator.converts (P := sample_platform) odd_name = true /\
  map ev_name
    (written (snd (Translator.sendCodexResponse (P := sample_platform) odd_args None fresh_world)))
  = ["response.created"; "response.output_item.done"; "response.completed"] /\
  map ev_name
    (written (snd (Translator.sendCodexResponse (P := sample_platform) odd_name None fresh_world)))
  = ["response.created"; "response.output_item.done"; "response.completed"].
Proof. repeat split. Qed.

(** C5 (a defect of the code). The adapter answers a chat call that
    failed with status 500 and a JSON body that holds the error, and the
    documentation of the proxy says that such errors stream a failed event
    followed by a completed event. [postJson] never looks at the status:
    the body parses, so the call counts as an answer, here an empty one.
    On this reply the handler of the mock proxy writes the created event,
    an assistant message with an empty text and the completed event, and no
    failed event. On a transport failure of the same call it does write
    the failed event and then the completed event with a zero-valued usage
    structure. *)
Theorem C5_error_status_is_not_a_failure :
  let reply := Proxy.Reply 500 ("{" ++ quoted "error" ++ ":" ++ quoted "boom" ++ "}") in
  let evs := written (snd (Proxy.handleResponses (P := sample_platform) (Proxy.Env false false)
                             reply fresh_world)) in
  Proxy.postJson (P := sample_platform) reply = Returns (Some (JStr ""))
  /\ evs = [Event "response.created" (Some (Proxy.created_event "resp_mfx0a_r4nd0m"));
            Event "response.output_item.done" (Some (Chat0.message_event ""));
            Event "response.completed" (Some (Proxy.completed_event "resp_mfx0a_r4nd0m"))]
  /\ existsb is_failed evs = false
  /\ Proxy.handleResponses (P := sample_platform) (Proxy.Env false false)
       (Proxy.NetError (new_Error "connect ECONNREFUSED")) fresh_world =
     (Returns tt,
      World [Event "response.created" (Some (Proxy.created_event "resp_mfx0a_r4nd0m"));
             Event "response.failed"
               (Some (Proxy.failed_event (JStr "connect ECONNREFUSED")));
             Event "response.completed" (Some (Proxy.completed_event "resp_mfx0a_r4nd0m"))]
        true 1)
  /\ usage (Event "response.completed" (Some (Proxy.completed_event "resp_mfx0a_r4nd0m")))
     = Some Proxy.usage.
Proof. cbv zeta. repeat split. Qed.

(** The bridge when the stream breaks: a message and a completed event,
    no failed event and no usage structure. *)
Example bridge_failure_is_a_message :
  let evs := Bridge.events (P := sample_platform) None
               (Bridge.Streams [] (Some (Some "socket hang up"))) in
  existsb is_failed evs = false /\
  List.length evs = 3 /\
  map is_created evs = [true; false; false] /\
  map is_message evs = [false; true; false] /\
  map is_completed evs = [false; false; true] /\
  map message_text evs = [None; Some (JStr "Error: socket hang up"); None] /\
  map usage evs = [None; None; None].
Proof. repeat split. Qed.

Lemma C10_bridge_tool_calls_witness :
  let s := Bridge.writeSse "response.created" [("response", JObj [])] Bridge.initial in
  Bridge.finished s = false /\ ended (Bridge.res s) = false /\ Bridge.emittedAnyTool s = false /\
  count is_tool_call (Bridge.events (P := sample_platform) None (Bridge.Streams [] None)) <= 1 /\
  exists last,
    is_completed last = true /\
    written (Bridge.res (Bridge.emitToolCallsAndEnd (P := sample_platform) None two_calls s))
    = (written (Bridge.res s)
       ++ [Bridge.apply_patch_event (Bridge.time_id (P := sample_platform) "call" s)
             "*** Begin Patch x *** End Patch"] ++ [last])%list.
Proof.
  cbv zeta. split; [reflexivity|]. split; [reflexivity|]. split; [reflexivity|].
  pose proof (C10_bridge_tool_calls (P := sample_platform) None (Bridge.Streams [] None) None
                two_calls
                (Bridge.writeSse "response.created" [("response", JObj [])] Bridge.initial)
                eq_refl eq_refl eq_refl) as (H1 & H2 & _).
  split; [exact H1 | exact H2].
Defined.

(** A reply in plain text that holds a patch: it has no tool-call entry,
    and yet a function call is written. *)
Lemma C10_tool_call_without_entry :
  let reply := "*** Begin Patch x *** End Patch" in
  Bridge.first_qualifying
    (items_of (prop "tool_calls" (Some (Bridge.tryParseJson (P := sample_platform) reply)))) = None /\
  map is_tool_call
    (Bridge.events (P := sample_platform) None (Bridge.Streams [Bridge.Delta reply] None))
  = [false; true; false] /\
  ~ count is_tool_call
      (Bridge.events (P := sample_platform) None (Bridge.Streams [Bridge.Delta reply] None)) = 0.
Proof. cbv zeta. split; [reflexivity|]. split; [reflexivity|]. discriminate. Qed.

(** A reply whose only call is a shell call, to a request that asks to
    update a file: the entry is skipped and a synthesized call is written. *)
Example bridge_synthesizes_patch_for_intent :
  Bridge.intent_of (P := sample_platform) update_request = Some "a.js" /\
  Bridge.first_qualifying
    (items_of (prop "tool_calls" (Some (Bridge.tryParseJson (P := sample_platform) shell_reply))))
  = None /\
  map is_tool_call
    (Bridge.events (P := sample_platform) update_request
       (Bridge.Streams [Bridge.Delta shell_reply] None))
  = [false; true; false].
Proof. repeat split. Qed.

(** A request whose input holds a message with a role that is no
    string: rendering the input throws before the upstream is called, and
    the bridge writes the error as a message and completes, whatever the
    upstream would have done. *)
Example bridge_reports_a_throw_before_upstream :
  let body := Some (JObj [("input",
                           JArr [JObj [("type", JStr "message"); ("role", JNum "1");
                                       ("content", JArr [JObj [("type", JStr "input_text");
                                                               ("text", JStr "hi")]])]])]) in
  Bridge.before_upstream body = Throws (new_Error "item.role.toUpperCase is not a function") /\
  (forall up,
      map (fun e => (ev_name e, message_text e)) (Bridge.events (P := sample_platform) body up)
      = [("response.created", None);
         ("response.output_item.done",
          Some (JStr "Error: item.role.toUpperCase is not a function"));
         ("response.completed", None)]).
Proof. cbv zeta. split; [reflexivity|]. intros up. reflexivity. Qed.

(** The route ends the response with an [error] record when the
    translator throws. *)
Example route_reports_a_throw :
  let json := Some (JObj [("tool_calls", JArr [JObj [("name", JObj [("toString", JNum "1")])]])]) in
  map ev_name (written (snd (Translator.post_responses (P := sample_platform) (Returns json) fresh_world)))
  = ["response.created"; "error"].
Proof. reflexivity. Qed.

(** Scenario A: an envelope with a content and nothing else. *)
Example scenario_content_only :
  map (fun e => (ev_name e, message_text e))
    (written (snd (Translator.sendCodexResponse (P := sample_platform) hello_envelope None fresh_world)))
  = [("response.created", None);
     ("response.output_item.done", Some (JStr "hello"));
     ("response.completed", None)].
Proof. reflexivity. Qed.

End StreamExamples.

(** ** The login flow *)

Section Base64.
Import Js Login.

Lemma all_ascii_complete (p : ascii -> bool) :
  forallb p all_ascii = true -> forall a, p a = true.
Proof.
  intros H a. rewrite forallb_forall in H. apply H.
  unfold all_ascii. rewrite <- (ascii_nat_embedding a).
  apply in_map, in_seq. pose proof (nat_ascii_bounded a). lia.
Qed.

Lemma good_digits_all (a b : ascii) : good_digits a b = true.
Proof.
  revert b. apply all_ascii_complete. revert a. apply all_ascii_complete.
  vm_compute. reflexivity.
Qed.

Lemma good_digit_facts (n : N) :
  good_digit n = true ->
  to_urlsafe (base64_digit n) = urlsafe_digit n /\
  Ascii.eqb (urlsafe_digit n) "="%char = false /\
  is_urlsafe (urlsafe_digit n) = true.
Proof.
  unfold good_digit. intros H.
  apply andb_true_iff in H. destruct H as [H H3].
  apply andb_true_iff in H. destruct H as [H1 H2].
  apply Ascii.eqb_eq in H1. apply negb_true_iff in H2. auto.
Qed.

Lemma sextets_good (a b : ascii) :
  good_digit (sextet1 (N_of_ascii a)) = true /\
  good_digit (sextet2 (N_of_ascii a) (N_of_ascii b)) = true /\
  good_digit (sextet3 (N_of_ascii a) (N_of_ascii b)) = true /\
  good_digit (sextet4 (N_of_ascii a)) = true.
Proof.
  pose proof (good_digits_all a b) as H. unfold good_digits in H.
  apply andb_true_iff in H. destruct H as [H H4].
  apply andb_true_iff in H. destruct H as [H H3].
  apply andb_true_iff in H. destruct H as [H1 H2]. auto.
Qed.

Lemma sextet2_last (a : ascii) : good_digit (sextet2 (N_of_ascii a) 0) = true.
Proof. exact (proj1 (proj2 (sextets_good a zero))). Qed.

Lemma sextet3_last (a : ascii) : good_digit (sextet3 (N_of_ascii a) 0) = true.
Proof. exact (proj1 (proj2 (proj2 (sextets_good a zero)))). Qed.

Lemma list_ind3 {A : Type} (Q : list A -> Prop) :
  Q [] -> (forall a, Q [a]) -> (forall a b, Q [a; b]) ->
  (forall a b c rest, Q rest -> Q (a :: b :: c :: rest)) ->
  forall l, Q l.
Proof.
  intros H0 H1 H2 H3.
  assert (H : forall l, Q l /\ (forall a, Q (a :: l)) /\ (forall a b, Q (a :: b :: l))).
  { induction l as [|x l (IH0 & IH1 & IH2)].
    - auto.
    - repeat split; auto. }
  intros l. apply H.
Qed.

Lemma replace_both (c : ascii) (s : string) :
  replace_char "/" "_" (replace_char "+" "-" (String c s))
  = String (to_urlsafe c) (replace_char "/" "_" (replace_char "+" "-" s)).
Proof. reflexivity. Qed.

Lemma strip_padding_cons (c : ascii) (s : string) :
  Ascii.eqb c "="%char = false -> strip_padding (String c s) = String c (strip_padding s).
Proof. intros H. simpl. rewrite H. reflexivity. Qed.

(** Rewrites the head digit of an encoding into its URL-safe form. *)
Ltac head_digit G :=
  let T := fresh in let E := fresh in
  destruct (good_digit_facts _ G) as (T & E & _);
  rewrite replace_both, T, (strip_padding_cons _ _ E); clear T E.

(** [base64url] is the unpadded URL-safe encoding. *)
Lemma base64url_urlsafe_nopad : forall buf, base64url buf = urlsafe_nopad buf.
Proof.
  unfold base64url.
  induction buf as [| a | a b | a b c rest IH] using list_ind3.
  - reflexivity.
  - cbn [toString_base64 urlsafe_nopad].
    destruct (sextets_good a zero) as (G1 & _ & _ & _).
    head_digit G1. head_digit (sextet2_last a). reflexivity.
  - cbn [toString_base64 urlsafe_nopad].
    destruct (sextets_good a b) as (G1 & G2 & _ & _).
    head_digit G1. head_digit G2. head_digit (sextet3_last b). reflexivity.
  - cbn [toString_base64 urlsafe_nopad].
    destruct (sextets_good a b) as (G1 & G2 & _ & _).
    destruct (sextets_good b c) as (_ & _ & G3 & _).
    destruct (sextets_good c zero) as (_ & _ & _ & G4).
    head_digit G1. head_digit G2. head_digit G3. head_digit G4.
    rewrite IH. reflexivity.
Qed.

Lemma urlsafe_nopad_chars : forall buf, all_chars is_urlsafe (urlsafe_nopad buf) = true.
Proof.
  induction buf as [| a | a b | a b c rest IH] using list_ind3.
  - reflexivity.
  - cbn [urlsafe_nopad all_chars].
    destruct (sextets_good a zero) as (G1 & _ & _ & _).
    destruct (good_digit_facts _ G1) as (_ & _ & ->).
    destruct (good_digit_facts _ (sextet2_last a)) as (_ & _ & ->). reflexivity.
  - cbn [urlsafe_nopad all_chars].
    destruct (sextets_good a b) as (G1 & G2 & _ & _).
    destruct (good_digit_facts _ G1) as (_ & _ & ->).
    destruct (good_digit_facts _ G2) as (_ & _ & ->).
    destruct (good_digit_facts _ (sextet3_last b)) as (_ & _ & ->). reflexivity.
  - cbn [urlsafe_nopad all_chars].
    destruct (sextets_good a b) as (G1 & G2 & _ & _).
    destruct (sextets_good b c) as (_ & _ & G3 & _).
    destruct (sextets_good c zero) as (_ & _ & _ & G4).
    destruct (good_digit_facts _ G1) as (_ & _ & ->).
    destruct (good_digit_facts _ G2) as (_ & _ & ->).
    destruct (good_digit_facts _ G3) as (_ & _ & ->).
    destruct (good_digit_facts _ G4) as (_ & _ & ->).
    rewrite IH. reflexivity.
Qed.

(** Four digits for every three bytes. *)
Lemma urlsafe_nopad_length (k : nat) :
  forall buf, List.length buf = 3 * k -> String.length (urlsafe_nopad buf) = 4 * k.
Proof.
  induction k as [|k IH]; intros buf H.
  - destruct buf; [reflexivity | discriminate].
  - destruct buf as [|a [|b [|c rest]]]; try (simpl in H; lia).
    cbn [urlsafe_nopad String.length]. rewrite (IH rest); [lia|]. simpl in H. lia.
Qed.

Lemma is_urlsafe_not_padding (c : ascii) :
  is_urlsafe c = true -> c <> "="%char /\ c <> "+"%char /\ c <> "/"%char.
Proof. intros H. repeat split; intros ->; discriminate. Qed.

End Base64.

Section LoginClaims.
Import Js Login.
Context {P : Platform}.

(** C7. For every generated pair, the challenge is the unpadded URL-safe
    base64 encoding of the SHA-256 digest of the verifier, so that the
    transform of the verifier gives the challenge again; the verifier is
    the unpadded URL-safe encoding of 48 random bytes, 64 characters long;
    neither holds a character outside the URL-safe alphabet, which has no
    padding character. *)
Theorem C7_pkce_pair (draw : nat) :
  challenge (genPkce draw) = s256 (verifier (genPkce draw)) /\
  (exists bytes,
      32 <= List.length bytes /\ bytes = randomBytes draw 48 /\
      verifier (genPkce draw) = urlsafe_nopad bytes) /\
  String.length (verifier (genPkce draw)) = 64 /\
  all_chars is_urlsafe (verifier (genPkce draw)) = true /\
  all_chars is_urlsafe (challenge (genPkce draw)) = true /\
  is_urlsafe "="%char = false.
Proof.
  unfold genPkce, s256. cbn [verifier challenge].
  rewrite !base64url_urlsafe_nopad. repeat split.
  - exists (randomBytes draw 48). rewrite randomBytes_length. repeat split. lia.
  - apply (urlsafe_nopad_length 16). apply randomBytes_length.
  - apply urlsafe_nopad_chars.
  - apply urlsafe_nopad_chars.
Qed.

(** C6. A request to the callback path whose code is absent (or empty),
    or whose state is not the one of the session, is answered with status
    400; the listener is left as it was: the credential file is unchanged
    and no shutdown is scheduled. *)
Theorem C6_callback_rejected (l : listener) (params : list (string * string)) (x : exchanges) :
  searchParams_get "code" params = None
  \/ searchParams_get "code" params = Some ""
  \/ searchParams_get "state" params <> Some (session_state l) ->
  statusCode (fst (on_request l (Some (Request "/auth/callback" params)) x)) = 400 /\
  snd (on_request l (Some (Request "/auth/callback" params)) x) = l /\
  session_file (snd (on_request l (Some (Request "/auth/callback" params)) x)) = session_file l /\
  closing (snd (on_request l (Some (Request "/auth/callback" params)) x)) = closing l.
Proof.
  intros H.
  assert (E : on_request l (Some (Request "/auth/callback" params)) x
              = (Response 400 None "Invalid state or missing code", l)).
  { unfold on_request. cbn [pathname searchParams]. cbn [String.eqb Ascii.eqb Bool.eqb].
    destruct H as [H|[H|H]].
    - rewrite H. reflexivity.
    - rewrite H. reflexivity.
    - destruct (searchParams_get "state" params) as [s|] eqn:Es.
      + destruct (s =? session_state l) eqn:Eq.
        * apply String.eqb_eq in Eq. subst s. congruence.
        * cbn [negb]. rewrite orb_true_r. reflexivity.
      + cbn [negb]. rewrite orb_true_r. reflexivity. }
  rewrite E. repeat split.
Qed.

(** C9 (amended). Both [parseJwtClaims] return on every input and never
    throw. The one of [test_gpt.js] returns the empty object when the
    input is not a string, when it has fewer than two segments, and when
    the text its second segment decodes to is not JSON or parses to a
    falsy value; otherwise, whatever the number of segments from two on,
    it returns the parsed value. The one of [gg.js] returns [null] where
    the other returns the empty object for a malformed input. *)
Theorem C9_claims_extraction (rawJwt : Json) :
  (exists v, Login.parseJwtClaims rawJwt = Returns v) /\
  (exists v, Gg.parseJwtClaims rawJwt = Returns v) /\
  (is_string (Some rawJwt) = false ->
   Login.parseJwtClaims rawJwt = Returns (JObj []) /\ Gg.parseJwtClaims rawJwt = Returns JNull) /\
  (forall s, rawJwt = JStr s -> segments s < 2 ->
     Login.parseJwtClaims rawJwt = Returns (JObj []) /\ Gg.parseJwtClaims rawJwt = Returns JNull) /\
  (forall s, rawJwt = JStr s -> 2 <= segments s ->
     JSON_parse (payload_text (split_dot s)) = None ->
     Login.parseJwtClaims rawJwt = Returns (JObj []) /\ Gg.parseJwtClaims rawJwt = Returns JNull) /\
  (forall s v, rawJwt = JStr s -> 2 <= segments s ->
     JSON_parse (payload_text (split_dot s)) = Some v ->
     Login.parseJwtClaims rawJwt = Returns (if truthy (Some v) then v else JObj []) /\
     Gg.parseJwtClaims rawJwt = Returns v).
Proof.
  split; [|split; [|split; [|split; [|split]]]].
  - unfold Login.parseJwtClaims. destruct (Login.parseJwtClaims_try rawJwt); eauto.
  - unfold Gg.parseJwtClaims. destruct (Gg.parseJwtClaims_try rawJwt); eauto.
  - destruct rawJwt; try discriminate; intros _; split; reflexivity.
  - intros s -> H. unfold segments in H.
    unfold Login.parseJwtClaims, Gg.parseJwtClaims, Login.parseJwtClaims_try, Gg.parseJwtClaims_try.
    destruct (split_dot s) as [|p0 [|p1 rest]]; simpl in H; try lia; split; reflexivity.
  - intros s -> H E. unfold segments in H.
    unfold Login.parseJwtClaims, Gg.parseJwtClaims, Login.parseJwtClaims_try, Gg.parseJwtClaims_try.
    destruct (split_dot s) as [|p0 [|p1 rest]] eqn:Es; simpl in H; try lia.
    cbn [List.length Nat.ltb Nat.leb]. unfold payload_text in *. cbn [nth] in *.
    rewrite E. split; reflexivity.
  - intros s v -> H E. unfold segments in H.
    unfold Login.parseJwtClaims, Gg.parseJwtClaims, Login.parseJwtClaims_try, Gg.parseJwtClaims_try.
    destruct (split_dot s) as [|p0 [|p1 rest]] eqn:Es; simpl in H; try lia.
    cbn [List.length Nat.ltb Nat.leb]. unfold payload_text in *. cbn [nth] in *.
    rewrite E. split; reflexivity.
Qed.

End LoginClaims.

Section CredentialClaims.
Import Js Login.
Context {P : Platform}.

Lemma truthy_or_else (a b : value) : truthy (or_else a b) = truthy a || truthy b.
Proof. unfold or_else. destruct (truthy a) eqn:E; [rewrite E|]; reflexivity. Qed.

Lemma truthy_or_undefined (v : value) : truthy (or_undefined v) = truthy v.
Proof. unfold or_undefined. destruct (truthy v) eqn:E; [exact E | reflexivity]. Qed.

Lemma nonblank_Some (v : value) (k : string) :
  nonblank v = Some k -> (k =? "") = false.
Proof.
  destruct v as [[| | | s | |]|]; simpl; try discriminate.
  destruct (trim s =? "") eqn:E; [discriminate|]. intros [= <-]. exact E.
Qed.

Lemma prop_truthy (k : string) (raw : Json) (v : Json) :
  prop k (Some raw) = Some v -> truthy (Some raw) = true.
Proof. destruct raw; simpl; try discriminate. reflexivity. Qed.

Lemma nonblank_prop_truthy (k : string) (raw : Json) (key : string) :
  nonblank (prop k (Some raw)) = Some key -> truthy (Some raw) = true.
Proof.
  destruct (prop k (Some raw)) as [v|] eqn:E; [|discriminate].
  intros _. eapply prop_truthy; eauto.
Qed.

(** The record [readAuthFromHome] builds from a parsed file, and whether
    it returns it. *)
Lemma readAuthFromHome_parsed (text : string) (raw : Json) :
  JSON_parse text = Some raw ->
  exists out_accountId,
    readAuthFromHome (Some text) =
    if (match nonblank (prop "OPENAI_API_KEY" (Some raw)) with Some _ => true | None => false end)
       || truthy (prop "access_token" (prop "tokens" (Some raw)))
    then Some (Creds (match nonblank (prop "OPENAI_API_KEY" (Some raw)) with
                      | Some k => Some (JStr k)
                      | None => None
                      end)
                 (or_undefined (prop "access_token" (prop "tokens" (Some raw))))
                 out_accountId)
    else None.
Proof.
  intros E. unfold readAuthFromHome. rewrite E. eexists.
  rewrite truthy_or_else, truthy_or_undefined.
  destruct (nonblank (prop "OPENAI_API_KEY" (Some raw))) as [k|] eqn:Ek.
  - rewrite (nonblank_prop_truthy _ _ _ Ek).
    cbn [truthy]. rewrite (nonblank_Some _ _ Ek). reflexivity.
  - reflexivity.
Qed.

Lemma readSessionJson_parsed (text : string) (raw : Json) :
  JSON_parse text = Some raw -> raw <> JNull ->
  exists out_apiKey out_accountId,
    readSessionJson (Some text) =
    Returns (if truthy (session_token raw)
             then Some (Creds out_apiKey (session_token raw) out_accountId)
             else None).
Proof.
  intros E Hn. unfold readSessionJson. rewrite E.
  destruct raw; try congruence; eexists _, _; reflexivity.
Qed.

(** C8 (amended). A record is usable, for [askQuestion], exactly when its
    API key or its token is non-empty, and no record is not usable.
    [readAuthFromHome] returns a record exactly when the file holds a
    non-blank API key or an access token, so that a file with only an API
    key gives a usable record that holds this key and no token, and a file
    with neither gives none. [readSessionJson] returns a record exactly
    when the file holds an access token: a session file that holds an API
    key and no access token gives no record. Every record a reader returns
    is usable. *)
Theorem C8_usable_records (text : string) (raw : Json) :
  JSON_parse text = Some raw ->
  (forall c, usable (Some c) = truthy (apiKey c) || truthy (token c))
  /\ usable None = false
  /\ ((exists c, readAuthFromHome (Some text) = Some c) <->
      nonblank (prop "OPENAI_API_KEY" (Some raw)) <> None
      \/ truthy (prop "access_token" (prop "tokens" (Some raw))) = true)
  /\ (forall k, nonblank (prop "OPENAI_API_KEY" (Some raw)) = Some k ->
                truthy (prop "access_token" (prop "tokens" (Some raw))) = false ->
                exists c, readAuthFromHome (Some text) = Some c /\
                          apiKey c = Some (JStr k) /\ token c = None /\
                          usable (Some c) = true)
  /\ (forall c, readAuthFromHome (Some text) = Some c -> usable (Some c) = true)
  /\ (raw <> JNull ->
      ((exists c, readSessionJson (Some text) = Returns (Some c)) <->
       truthy (session_token raw) = true))
  /\ (raw <> JNull -> truthy (session_token raw) = false ->
      readSessionJson (Some text) = Returns None)
  /\ (forall c, readSessionJson (Some text) = Returns (Some c) -> usable (Some c) = true).
Proof.
  intros E.
  destruct (readAuthFromHome_parsed text raw E) as (acc & HA).
  split; [reflexivity|]. split; [reflexivity|].
  split; [|split; [|split; [|split; [|split]]]].
  - rewrite HA. split.
    + intros (c & Hc).
      destruct (nonblank (prop "OPENAI_API_KEY" (Some raw))) as [k|]; [left; discriminate|].
      right. cbn [orb] in Hc.
      destruct (truthy (prop "access_token" (prop "tokens" (Some raw)))); [reflexivity|discriminate].
    + intros [H|H].
      * destruct (nonblank (prop "OPENAI_API_KEY" (Some raw))) as [k|]; [|congruence].
        cbn [orb]. eauto.
      * rewrite H, orb_true_r. eauto.
  - intros k Hk Ht. rewrite HA, Hk. cbn [orb].
    eexists. split; [reflexivity|]. cbn [apiKey token usable].
    unfold or_undefined. rewrite Ht. cbn [truthy]. rewrite (nonblank_Some _ _ Hk).
    repeat split.
  - intros c. rewrite HA.
    destruct (nonblank (prop "OPENAI_API_KEY" (Some raw))) as [k|] eqn:Ek; cbn [orb].
    + intros [= <-]. cbn [usable apiKey token truthy]. rewrite (nonblank_Some _ _ Ek). reflexivity.
    + destruct (truthy (prop "access_token" (prop "tokens" (Some raw)))) eqn:Et; [|discriminate].
      intros [= <-]. cbn [usable apiKey token]. rewrite truthy_or_undefined. exact Et.
  - intros Hn. destruct (readSessionJson_parsed text raw E Hn) as (k & a & ->). split.
    + intros (c & Hc). destruct (truthy (session_token raw)); [reflexivity | discriminate].
    + intros ->. eauto.
  - intros Hn Ht. destruct (readSessionJson_parsed text raw E Hn) as (k & a & ->).
    rewrite Ht. reflexivity.
  - intros c Hc.
    assert (Hn : raw <> JNull).
    { intros ->. unfold readSessionJson in Hc. rewrite E in Hc. discriminate. }
    destruct (readSessionJson_parsed text raw E Hn) as (k & a & HS). rewrite HS in Hc.
    destruct (truthy (session_token raw)) eqn:Et; [|discriminate].
    injection Hc as <-. cbn [usable apiKey token].
    apply orb_true_iff. right. exact Et.
Qed.

End CredentialClaims.

Section LoginExamples.
Import Js Login.

Lemma C6_callback_rejected_witness :
  let l := Listener "Y" None false in
  let params := [("code", "abc"); ("state", "X")] in
  let x := Exchanges (Resolved (JObj [])) (Resolved (JObj [])) "0" in
  (searchParams_get "code" params = None
   \/ searchParams_get "code" params = Some ""
   \/ searchParams_get "state" params <> Some (session_state l)) /\
  statusCode (fst (on_request (P := sample_platform) l (Some (Request "/auth/callback" params)) x)) = 400 /\
  snd (on_request (P := sample_platform) l (Some (Request "/auth/callback" params)) x) = l.
Proof.
  cbv zeta.
  assert (H : searchParams_get "code" [("code", "abc"); ("state", "X")] = None
              \/ searchParams_get "code" [("code", "abc"); ("state", "X")] = Some ""
              \/ searchParams_get "state" [("code", "abc"); ("state", "X")]
                 <> Some (session_state (Listener "Y" None false)))
    by (right; right; simpl; discriminate).
  split; [exact H|].
  pose proof (C6_callback_rejected (P := sample_platform) (Listener "Y" None false)
                [("code", "abc"); ("state", "X")]
                (Exchanges (Resolved (JObj [])) (Resolved (JObj [])) "0") H) as (H1 & H2 & _).
  split; [exact H1 | exact H2].
Defined.

Lemma C8_usable_records_witness :
  JSON_parse (Platform := sample_platform) api_key_auth_file
  = Some (JObj [("OPENAI_API_KEY", JStr "sk-1")]) /\
  exists c, readAuthFromHome (P := sample_platform) (Some api_key_auth_file) = Some c /\
            apiKey c = Some (JStr "sk-1") /\ token c = None /\ usable (Some c) = true.
Proof.
  split; [reflexivity|].
  pose proof (C8_usable_records (P := sample_platform) api_key_auth_file
                (JObj [("OPENAI_API_KEY", JStr "sk-1")]) eq_refl) as (_ & _ & _ & H & _).
  exact (H "sk-1" eq_refl eq_refl).
Defined.

(** A session file that holds only an API key: the reader gives no
    record, although the record would pass the guard of [askQuestion]. *)
Lemma C8_api_key_only_session :
  JSON_parse (Platform := sample_platform) api_key_session_file = Some (JObj [("apiKey", JStr "sk-1")]) /\
  readSessionJson (P := sample_platform) (Some api_key_session_file) = Returns None /\
  usable (Some (Creds (Some (JStr "sk-1")) None None)) = true.
Proof. repeat split. Qed.

(** A token of one segment: [gg.js] gives [null], not the empty object.
    A token of two segments whose second one is the encoding of an
    object: [test_gpt.js] gives that object. *)
Lemma C9_null_for_one_segment :
  segments "abc" = 1 /\
  Gg.parseJwtClaims (P := sample_platform) (JStr "abc") = Returns JNull /\
  Gg.parseJwtClaims (P := sample_platform) (JStr "abc") <> Returns (JObj []) /\
  segments "x.eyJhIjoxfQ" = 2 /\
  base64url (list_ascii_of_string ("{" ++ quoted "a" ++ ":1}")) = "eyJhIjoxfQ" /\
  Login.parseJwtClaims (P := sample_platform) (JStr "x.eyJhIjoxfQ")
  = Returns (JObj [("a", JNum "1")]) /\
  Login.parseJwtClaims (P := sample_platform) (JStr "x.eyJhIjoxfQ") <> Returns (JObj []).
Proof. repeat split; discriminate. Qed.

End LoginExamples.

(** ** The stages of [sendCodexResponse] on an envelope that is not final *)

Section EnvelopeFacts.
Import Js Sse Translator Envelope.
Context {P : Platform}.

Lemma world_eta (w : world) : World (written w) (ended w) (draws w) = w.
Proof. destruct w. reflexivity. Qed.

Lemma ret_run {A : Type} (a : A) (w : world) :
  ret a w = (Returns a, World (written w ++ []) (ended w) (draws w)).
Proof. unfold ret. rewrite app_nil_r, world_eta. reflexivity. Qed.

Lemma pushAssistantText_text (t : string) (w : world) :
  pushAssistantText (Some (JStr t)) w =
  (Returns tt,
   World (written w ++ map message_of (if t =? "" then [] else [t])) (ended w) (draws w)).
Proof.
  unfold pushAssistantText. cbn [truthy]. destruct (t =? ""); cbn [negb map].
  - apply ret_run.
  - reflexivity.
Qed.

Lemma nonempty_text_fragment (t : string) :
  match nonempty_text (Some (JStr t)) with Some x => [x] | None => [] end
  = if t =? "" then [] else [t].
Proof. simpl. destruct (t =? ""); reflexivity. Qed.

(** A loop that pushes the text of the elements that pass a test which
    requires a string text. *)
Lemma push_loop (test : Json -> bool) (items : list Json) :
  (forall c, test c = true -> is_string (prop "text" (Some c)) = true) ->
  forall w,
    for_each items (fun c => if test c then pushAssistantText (prop "text" (Some c)) else ret tt) w
    = (Returns tt,
       World (written w ++ map message_of (part_texts test items)) (ended w) (draws w)).
Proof.
  intros Htest. induction items as [|c r IH]; intros w.
  - apply ret_run.
  - cbn [for_each part_texts flat_map]. unfold bind.
    destruct (test c) eqn:T.
    + specialize (Htest c T).
      destruct (prop "text" (Some c)) as [[| | | t | |]|]; try discriminate.
      rewrite pushAssistantText_text, IH. cbn [written ended draws].
      rewrite nonempty_text_fragment, map_app, app_assoc. reflexivity.
    + rewrite ret_run, IH. cbn [written ended draws]. rewrite app_nil_r. reflexivity.
Qed.

Lemma is_text_part_string (c : Json) :
  is_text_part c = true -> is_string (prop "text" (Some c)) = true.
Proof. unfold is_text_part. intros H. apply andb_true_iff in H. tauto. Qed.

Lemma is_output_text_part_string (c : Json) :
  is_output_text_part c = true -> is_string (prop "text" (Some c)) = true.
Proof. unfold is_output_text_part. intros H. apply andb_true_iff in H. tauto. Qed.

Lemma emit_content_run (json : value) (w : world) :
  isFinal json = false ->
  emit_content json w =
  (Returns tt,
   World (written w ++ map message_of (content_fragments json)) (ended w) (draws w)).
Proof.
  intros Hf. unfold emit_content, content_fragments, fragments_of. rewrite Hf. cbn [negb andb].
  destruct (prop "content" json) as [[| | | s | items |]|]; cbn [is_string isArray items_of];
    try apply ret_run.
  - apply pushAssistantText_text.
  - apply push_loop, is_text_part_string.
Qed.

Lemma emit_output_run (json : value) (w : world) :
  isFinal json = false ->
  emit_output json w =
  (Returns tt,
   World (written w ++ map message_of (output_fragments json)) (ended w) (draws w)).
Proof.
  intros Hf. unfold emit_output, output_fragments, fragments_of. rewrite Hf. cbn [negb andb].
  destruct (prop "output" json) as [[| | | s | items |]|]; cbn [is_string isArray items_of];
    try apply ret_run.
  - apply pushAssistantText_text.
  - apply push_loop, is_output_text_part_string.
Qed.

(** X1. On an envelope that is not final, the content stage and the
    output stage write one assistant message for each non-empty
    fragment, in the order of the input: the fragments of [content]
    first, then those of [output]; an empty text writes nothing. *)
Theorem X1_message_fragments (json : value) (w : world) :
  isFinal json = false ->
  bind (emit_content json) (fun _ => emit_output json) w =
  (Returns tt,
   World (written w ++ map message_of (content_fragments json ++ output_fragments json))
     (ended w) (draws w)).
Proof.
  intros Hf. unfold bind. rewrite (emit_content_run json w Hf).
  rewrite emit_output_run by exact Hf. cbn [written ended draws].
  rewrite map_app, app_assoc. reflexivity.
Qed.

End EnvelopeFacts.

(** ** The calls of an envelope *)

Section CallFacts.
Import Js Sse Translator Envelope.
Context {P : Platform}.

Lemma emitFunctionCall_run (toolName : string) (obj : value) (w : world) :
  emitFunctionCall toolName obj w =
  (Returns true,
   World (written w ++
          [Event "response.output_item.done"
             (Some (function_call_event toolName (argsStr_of obj)
                      ("call_fn_" ++ random36 (draws w))))])
     (ended w) (S (draws w))).
Proof. reflexivity. Qed.

Lemma argsStr_written (argsIn : value) :
  argsStr_of (nullish (parse_args argsIn) (Some (JObj []))) = written_arguments argsIn.
Proof.
  destruct argsIn as [[| b | lit | s | items | fs]|]; try reflexivity.
  unfold parse_args, written_arguments.
  destruct (JSON_parse s) as [[| b | lit | t | items | fs]|]; reflexivity.
Qed.

(** The name of a call that has a non-empty string name, and of one
    that has no name. *)
Lemma name_of_string (name : string) :
  (name =? "") = false -> name_of (Some (JStr name)) = Some name.
Proof. intros H. unfold name_of, or_else. cbn [truthy]. rewrite H. reflexivity. Qed.

Lemma name_of_missing (nameIn : value) :
  truthy nameIn = false -> name_of nameIn = Some "unknown_function".
Proof. intros H. unfold name_of, or_else. rewrite H. reflexivity. Qed.

Lemma shell_name_nonempty (name : string) :
  is_shell_name name = true -> (name =? "") = false.
Proof.
  intros H. destruct (name =? "") eqn:E; [|reflexivity].
  apply String.eqb_eq in E. subst name. discriminate.
Qed.

Lemma emit_generic_run (name : string) (argsIn : value) (w : world) :
  emit_generic name (parse_args argsIn) w =
  (Returns true,
   World (written w ++
          [Event "response.output_item.done"
             (Some (function_call_event name (written_arguments argsIn)
                      ("call_fn_" ++ random36 (draws w))))])
     (ended w) (S (draws w))).
Proof.
  unfold emit_generic. rewrite emitFunctionCall_run, argsStr_written. reflexivity.
Qed.

Lemma shell_name_not_apply_patch (name : string) :
  is_shell_name name = true -> (name =? "apply_patch") = false.
Proof.
  intros H. destruct (name =? "apply_patch") eqn:E; [|reflexivity].
  apply String.eqb_eq in E. subst name. discriminate.
Qed.

(** X4. A call whose name converts to a string that is neither
    shell-like nor [apply_patch] is written as one function call under
    that name, which is [unknown_function] when the call has no name or a
    falsy one. Its arguments field is what [written_arguments] says:
    arguments that are no string are serialized, missing or [null] ones
    as the empty object; a string of arguments is passed unchanged when it
    does not parse, replaced by the serialization of what it parses to
    when that is an object, an array, a number or a boolean, replaced by
    the string it parses to when it parses to a string, and by the empty
    object when it parses to [null]. *)
Theorem X4_generic_call (nameIn argsIn : value) (name : string) (w : world) :
  name_of nameIn = Some name ->
  is_shell_name name = false ->
  (name =? "apply_patch") = false ->
  emitToolCall nameIn argsIn w =
  (Returns true,
   World (written w ++
          [Event "response.output_item.done"
             (Some (function_call_event name (written_arguments argsIn)
                      ("call_fn_" ++ random36 (draws w))))])
     (ended w) (S (draws w)))
  /\ (truthy nameIn = false -> name = "unknown_function")
  /\ (forall s, argsIn = Some (JStr s) ->
        written_arguments argsIn =
        match JSON_parse s with
        | None => s
        | Some (JStr inner) => inner
        | Some JNull => "{}"
        | Some parsed => stringify parsed
        end)
  /\ (is_string argsIn = false ->
        written_arguments argsIn =
        match argsIn with
        | None => "{}"
        | Some JNull => "{}"
        | Some v => stringify v
        end).
Proof.
  intros Hn Hs Hp. split; [|split; [|split]].
  - rewrite emitToolCall_name, Hn. unfold bind at 1, ret.
    rewrite Hs. unfold emit_apply_patch_or_generic. rewrite Hp. apply emit_generic_run.
  - intros Hf. rewrite (name_of_missing nameIn Hf) in Hn. injection Hn as <-. reflexivity.
  - intros s ->. reflexivity.
  - intros Hstr. destruct argsIn as [[| b | lit | s | items | fs]|];
      try reflexivity; discriminate.
Qed.

Lemma cmdStr_of_no_command (args : value) (w : world) :
  no_command args = true -> cmdStr_of args w = (Returns None, w).
Proof.
  unfold no_command, cmdStr_of. intros H.
  apply andb_true_iff in H. destruct H as [H H4].
  apply andb_true_iff in H. destruct H as [H H3].
  apply andb_true_iff in H. destruct H as [H1 H2].
  apply negb_true_iff in H1, H2, H3, H4. rewrite H1, H2, H3, H4. reflexivity.
Qed.

(** X5. A call with a shell-like name that carries no command (or an
    empty [cmd]) is not turned into [exec_command]: it is written as one
    function call under its own name with its arguments serialized. *)
Theorem X5_shell_without_command (name : string) (argsIn : value) (w : world) :
  is_shell_name name = true ->
  no_command (parse_args argsIn) = true \/ prop "cmd" (parse_args argsIn) = Some (JStr "") ->
  emitToolCall (Some (JStr name)) argsIn w =
  (Returns true,
   World (written w ++
          [Event "response.output_item.done"
             (Some (function_call_event name (written_arguments argsIn)
                      ("call_fn_" ++ random36 (draws w))))])
     (ended w) (S (draws w))).
Proof.
  intros Hs Hc.
  rewrite emitToolCall_name, (name_of_string name (shell_name_nonempty name Hs)).
  unfold bind at 1, ret. rewrite Hs. unfold bind.
  assert (G : emit_apply_patch_or_generic name (parse_args argsIn) w =
              (Returns true,
               World (written w ++
                      [Event "response.output_item.done"
                         (Some (function_call_event name (written_arguments argsIn)
                                  ("call_fn_" ++ random36 (draws w))))])
                 (ended w) (S (draws w)))).
  { unfold emit_apply_patch_or_generic. rewrite (shell_name_not_apply_patch name Hs).
    apply emit_generic_run. }
  destruct Hc as [Hc|Hc].
  - rewrite (cmdStr_of_no_command _ w Hc). exact G.
  - unfold cmdStr_of. rewrite Hc. cbn [is_string ret truthy String.eqb negb]. exact G.
Qed.

(** X3. An [apply_patch] call whose patch text is not empty is written
    as one custom tool call that carries the patch text as it came: from
    the [input] of the arguments, else from their [patch], else from the
    arguments themselves when they are a string. *)
Theorem X3_apply_patch_call (argsIn : value) (p : string) (w : world) :
  (p =? "") = false ->
  prop "input" (parse_args argsIn) = Some (JStr p)
  \/ (is_string (prop "input" (parse_args argsIn)) = false /\
      prop "patch" (parse_args argsIn) = Some (JStr p))
  \/ parse_args argsIn = Some (JStr p) ->
  emitToolCall (Some (JStr "apply_patch")) argsIn w =
  (Returns true,
   World (written w ++
          [Event "response.output_item.done"
             (Some (custom_tool_call_event (JStr p)
                      ("call_apply_patch_" ++ random36 (draws w))))])
     (ended w) (S (draws w))).
Proof.
  intros Hp Hshape.
  assert (Hpatch : patchText_of (parse_args argsIn) = Some (JStr p)).
  { unfold patchText_of. destruct Hshape as [H|[[H1 H2]|H]].
    - rewrite H. reflexivity.
    - rewrite H1, H2. reflexivity.
    - rewrite H. reflexivity. }
  rewrite emitToolCall_name, (name_of_string "apply_patch" eq_refl).
  unfold bind at 1, ret.
  cbn [String.eqb Ascii.eqb Bool.eqb is_shell_name shell_names existsb orb].
  unfold emit_apply_patch_or_generic. cbn [String.eqb Ascii.eqb Bool.eqb].
  rewrite Hpatch. cbn [truthy]. rewrite Hp. reflexivity.
Qed.

(** An [apply_patch] call without a patch text is a generic call. *)
Lemma apply_patch_without_text (argsIn : value) (w : world) :
  patchText_of (parse_args argsIn) = None
  \/ patchText_of (parse_args argsIn) = Some (JStr "") ->
  emitToolCall (Some (JStr "apply_patch")) argsIn w =
  (Returns true,
   World (written w ++
          [Event "response.output_item.done"
             (Some (function_call_event "apply_patch" (written_arguments argsIn)
                      ("call_fn_" ++ random36 (draws w))))])
     (ended w) (S (draws w))).
Proof.
  intros H. rewrite emitToolCall_name, (name_of_string "apply_patch" eq_refl).
  unfold bind at 1, ret.
  cbn [String.eqb Ascii.eqb Bool.eqb is_shell_name shell_names existsb orb].
  unfold emit_apply_patch_or_generic. cbn [String.eqb Ascii.eqb Bool.eqb].
  destruct H as [-> | ->]; apply emit_generic_run.
Qed.

End CallFacts.

Section CallCount.
Import Js Sse Translator Envelope.
Context {P : Platform}.







Lemma message_of_facts (t : string) :
  is_message (message_of t) = true /\ is_tool_call (message_of t) = false /\
  message_text (message_of t) = Some (JStr t).
Proof. repeat split. Qed.





End CallCount.

(** ** The route of the fake-LLM server *)

Section RouteFacts.
Import Js Sse Translator.
Context {P : Platform}.

(** A run of the translator, with what it had written when it throws. *)
Lemma sendCodexResponse_outcome (json : value) (opts : option string) (w : world) :
  exists id mid,
    forallb is_middle mid = true /\
    ((exists d, sendCodexResponse json opts w =
        (Returns tt,
         World (written w ++ Event "response.created" (Some (created_event id))
                  :: mid ++ [Event "response.completed" (Some (completed_event id))])%list
           true d))
     \/ (exists err w',
           sendCodexResponse json opts w = (Throws err, w') /\
           written w' = (written w ++ Event "response.created" (Some (created_event id)) :: mid)%list)).
Proof.
  destruct (sendCodexResponse json opts w) as [o w'] eqn:E.
  rewrite sendCodexResponse_parts in E. unfold bind at 1 2 in E.
  destruct (pick_responseId_run opts w) as (id & d & Hpick). rewrite Hpick in E.
  cbn [sse written ended draws] in E.
  set (w1 := World _ _ _) in E.
  unfold bind at 1 in E.
  destruct (appends_middle json w1) as (mid & Wmid & Fmid).
  exists id, mid. split; [exact Fmid|].
  destruct (bind (emit_summary json) _ w1) as [[[]|e] w2]; simpl in Wmid.
  - left. exists (draws w2). rewrite <- E.
    unfold bind, sse, res_end. cbn [written ended draws]. rewrite Wmid.
    rewrite <- !app_assoc. reflexivity.
  - right. exists e, w2. rewrite <- E. split; [reflexivity|].
    rewrite Wmid. rewrite <- app_assoc. reflexivity.
Qed.

Lemma count_middle_completed (mid : list event) :
  forallb is_middle mid = true -> count is_completed mid = 0.
Proof.
  apply count_none. intros e H. unfold is_middle in H.
  apply andb_true_iff in H. destruct H as [_ H]. apply negb_true_iff in H. exact H.
Qed.

(** X6. What the route of the fake-LLM server does with every outcome
    of the upstream call. When the call is rejected with [null] or
    [undefined], reading the message of the rejection throws inside the
    [catch]: the handler throws, nothing is written and the response is
    not ended. When it is rejected with anything else the route writes a
    single error record, with no created and no completed event, and ends
    the response. When the call answers, the route returns and ends the
    response: the stream is either in order, from the created event to the
    completed event with the same identifier, or, when a call of the
    envelope does not convert, the created event and what was written so
    far followed by an error record, with no completed event. *)
Theorem X6_route_outcomes (answer : outcome value) (w : world) :
  match answer with
  | Throws None => post_responses answer w = (Throws TypeError, w)
  | Throws (Some JNull) => post_responses answer w = (Throws TypeError, w)
  | Throws (Some e) =>
      post_responses answer w =
      (Returns tt,
       World (written w ++
              [Event "error" (Some (JObj (match prop "message" (Some e) with
                                          | Some m => [("error", m)]
                                          | None => []
                                          end)))])
         true (draws w))
  | Returns json =>
      exists evs d,
        post_responses answer w = (Returns tt, World (written w ++ evs) true d) /\
        ((converts json = true /\ exists id, ordered (Some (JStr id)) (Some (JStr id)) evs)
         \/ (converts json = false /\
             exists first mid last,
               evs = (first :: mid ++ [last])%list /\
               is_created first = true /\ ev_name last = "error" /\
               count is_completed evs = 0))
  end.
Proof.
  destruct answer as [json|[e|]]; [| |reflexivity].
  - unfold post_responses, try_catch.
    destruct (sendCodexResponse_outcome json None w)
      as (id & mid & F & [(d & E)|(e & w' & E & W)]).
    + rewrite E. eexists _, d. split; [reflexivity|]. left. split.
      * destruct (converts json) eqn:C; [reflexivity|].
        destruct (sendCodexResponse_throws json None w C) as (w2 & T).
        rewrite T in E. discriminate.
      * exists id. eexists _, mid, _. repeat split; try reflexivity. exact F.
    + assert (C : converts json = false).
      { destruct (converts json) eqn:C; [|reflexivity].
        pose proof (sendCodexResponse_returns json None w C) as R.
        rewrite E in R. discriminate. }
      destruct (sendCodexResponse_throws json None w C) as (w2 & T).
      rewrite E in T. injection T as -> ->.
      rewrite E. cbn [TypeError].
      unfold bind, sse, res_end. cbn [written ended draws]. rewrite W.
      eexists _, (draws w2). split; [rewrite <- app_assoc; reflexivity|].
      right. split; [exact C|]. eexists _, mid, _. split; [reflexivity|]. repeat split.
      unfold count. cbn [filter is_completed ev_name String.eqb Ascii.eqb Bool.eqb].
      rewrite filter_app. cbn [filter is_completed ev_name String.eqb Ascii.eqb Bool.eqb].
      rewrite app_nil_r. exact (count_middle_completed mid F).
  - destruct e; reflexivity.
Qed.

End RouteFacts.

(** ** [0chat.js] *)

Section Chat0Mapping.
Import Js Sse.
Context {P : Platform}.

(** X7. When the reply of the model cannot be read as JSON by any of the
    three strategies, or reads as a falsy value, the route of [0chat.js]
    writes the created event, one assistant message that carries the raw
    reply, and the completed event with the identifier of the created
    event, and ends the response. *)
Theorem X7_chat0_raw_reply (llmReply : string) (w : world) :
  truthy (Some (Chat0.tryParseJson llmReply)) = false ->
  Chat0.post_responses llmReply w =
  (Returns tt,
   World (written w ++
          [Event "response.created"
             (Some (Translator.created_event ("resp_" ++ random36 (draws w))));
           Event "response.output_item.done" (Some (Chat0.message_event llmReply));
           Event "response.completed"
             (Some (Translator.completed_event ("resp_" ++ random36 (draws w))))])
     true (S (draws w))).
Proof.
  intros H. unfold Chat0.post_responses. cbv zeta. rewrite H.
  unfold bind, randId, sse, res_end. cbn [written ended draws].
  rewrite <- !app_assoc. reflexivity.
Qed.

End Chat0Mapping.

Section Chat0Items.
Import Js Sse Chat0Items.
Context {P : Platform}.





End Chat0Items.

(** ** The Qwen bridge once the request is over, its timer, its reading of the request *)

Section BridgeQuiet.
Import Js Sse Bridge.
Context {P : Platform}.

Lemma run_step_finished (intent : option string) (st : step) (s : state) :
  finished s = true ->
  finished (run_step intent st s) = true /\ res (run_step intent st s) = res s.
Proof.
  intros Hf. destruct st as [delta| |]; cbn [run_step].
  - unfold onDelta. rewrite Hf. split; [exact Hf | reflexivity].
  - destruct (timerFired s); [split; [exact Hf | reflexivity]|].
    unfold fallbackTimer. cbn [finished emittedAnyTool]. rewrite Hf.
    cbn [orb finished res]. split; reflexivity.
  - split; reflexivity.
Qed.

Lemma run_steps_finished (intent : option string) (steps : list step) (s : state) :
  finished s = true ->
  finished (run_steps intent steps s) = true /\ res (run_steps intent steps s) = res s.
Proof.
  revert s. induction steps as [|st r IH]; intros s Hf; [split; [exact Hf | reflexivity]|].
  unfold run_steps. cbn [fold_left].
  destruct (run_step_finished intent st s Hf) as (Hf' & Hr).
  destruct (IH _ Hf') as (H1 & H2). unfold run_steps in H1, H2.
  split; [exact H1 | rewrite H2; exact Hr].
Qed.

Lemma run_steps_app (intent : option string) (a b : list step) (s : state) :
  run_steps intent (a ++ b) s = run_steps intent b (run_steps intent a s).
Proof. unfold run_steps. apply fold_left_app. Qed.

(** X9. On a request that reaches the upstream call (rendering the input
    and joining the prompt do not throw), once the client has closed the
    connection the bridge writes nothing more: whatever the upstream
    streams afterwards, and whether the timer fires or not, the response
    holds what it held when the client left, and a stream that then ends
    without error adds no completed event. A client that leaves before
    anything else happens receives the created event alone, and the
    handler does not end the response. *)
Theorem X9_nothing_after_close (body : value) (pre post : list step) :
  before_upstream body = Returns tt ->
  res (post_responses body (Streams (pre ++ ClientClose :: post) None)) =
    res (run_steps (intent_of body) pre
           (writeSse "response.created" [("response", JObj [])] initial))
  /\ res (post_responses body (Streams (ClientClose :: post) None)) =
       World [created_first] false 0.
Proof.
  intros Hb.
  assert (G : forall pre',
             res (post_responses body (Streams (pre' ++ ClientClose :: post) None)) =
             res (run_steps (intent_of body) pre'
                    (writeSse "response.created" [("response", JObj [])] initial))).
  { intros pre'. unfold post_responses. rewrite Hb.
    set (s0 := writeSse "response.created" [("response", JObj [])] initial).
    rewrite run_steps_app.
    set (s1 := run_steps (intent_of body) pre' s0).
    change (run_steps (intent_of body) (ClientClose :: post) s1)
      with (run_steps (intent_of body) post (run_step (intent_of body) ClientClose s1)).
    destruct (run_steps_finished (intent_of body) post
                (run_step (intent_of body) ClientClose s1) eq_refl) as (Hf & Hr).
    unfold after_stream. rewrite Hf, Hr. reflexivity. }
  split; [apply G|]. exact (G []).
Qed.

Lemma timerFired_writeSse (type : string) (payload : list (string * Json)) (s : state) :
  timerFired (writeSse type payload s) = timerFired s.
Proof. unfold writeSse. destruct (ended (res s)); reflexivity. Qed.

Lemma timerFired_fallbackTimer (intent : option string) (s : state) :
  timerFired (fallbackTimer intent s) = timerFired s.
Proof.
  unfold fallbackTimer. destruct (finished s || emittedAnyTool s); [reflexivity|].
  destruct intent as [path|]; [|reflexivity].
  unfold markFinished, write_completed, write_apply_patch. cbn [timerFired].
  rewrite timerFired_writeSse. unfold draw at 1. cbn [with_res timerFired].
  rewrite timerFired_writeSse. reflexivity.
Qed.

(** X10. The safety timer writes nothing when no update-file intent was
    detected, when a tool call was already written, or when the request
    is finished. Otherwise, on an open response, it writes the synthesized
    [apply_patch] call for the detected path and then a completed event,
    and ends the response; a second firing changes nothing. *)
Theorem X10_fallback_timer (intent : option string) (s : state) :
  (intent = None \/ emittedAnyTool s = true \/ finished s = true ->
   res (run_step intent TimerFires s) = res s)
  /\ (forall path,
        intent = Some path -> emittedAnyTool s = false -> finished s = false ->
        timerFired s = false -> ended (res s) = false ->
        exists last,
          is_completed last = true /\
          res (run_step intent TimerFires s) =
            World (written (res s)
                   ++ [apply_patch_event (time_id "call" s) (synthesized_patch path); last])
              true (S (S (draws (res s))))
          /\ finished (run_step intent TimerFires s) = true)
  /\ run_step intent TimerFires (run_step intent TimerFires s) = run_step intent TimerFires s.
Proof.
  split; [|split].
  - intros H. cbn [run_step]. destruct (timerFired s); [reflexivity|].
    unfold fallbackTimer. cbn [finished emittedAnyTool].
    destruct (finished s || emittedAnyTool s) eqn:E; [reflexivity|].
    apply orb_false_iff in E. destruct E as (Ef & Et).
    destruct H as [->|[H|H]]; [reflexivity | congruence | congruence].
  - intros path -> Ht Hf Hfired He. cbn [run_step]. rewrite Hfired.
    unfold fallbackTimer. cbn [finished emittedAnyTool]. rewrite Hf, Ht. cbn [orb].
    set (s' := State (res s) false false (fullText s) true).
    rewrite (write_apply_patch_open (synthesized_patch path) s' He).
    rewrite write_completed_open by reflexivity.
    eexists. cbn [markFinished res written ended finished draws with_res].
    split; cycle 1.
    { split; [|reflexivity]. rewrite <- app_assoc. reflexivity. }
    reflexivity.
  - cbn [run_step]. destruct (timerFired s) eqn:Hfired; [rewrite Hfired; reflexivity|].
    rewrite timerFired_fallbackTimer. reflexivity.
Qed.

Lemma latest_user_text_skip (newer older : list Json) :
  forallb (fun x => negb (is_user_message x)) newer = true ->
  latest_user_text (rev newer ++ older) = latest_user_text older.
Proof.
  revert older. induction newer as [|x r IH]; intros older H; [reflexivity|].
  cbn [forallb] in H. apply andb_true_iff in H. destruct H as (Hx & Hr).
  cbn [rev]. rewrite <- app_assoc. rewrite (IH _ Hr).
  cbn [app latest_user_text]. apply negb_true_iff in Hx. rewrite Hx. reflexivity.
Qed.

(** X11. [extractLatestUserText] returns the empty string when the input
    is no array. Otherwise the latest user message with text wins: when a
    user message holds input texts that join to a non-empty string and
    only items that are not user messages follow it, the result is that
    string, whatever comes before. *)
Theorem X11_latest_user_text (input : value) (older newer : list Json) (item : Json)
  (content : list Json) :
  (isArray input = false -> extractLatestUserText input = "")
  /\ (is_user_message item = true ->
      prop "content" (Some item) = Some (JArr content) ->
      (String.concat newline (input_texts content) =? "") = false ->
      forallb (fun x => negb (is_user_message x)) newer = true ->
      extractLatestUserText (Some (JArr (older ++ item :: newer))) =
        String.concat newline (input_texts content)).
Proof.
  split.
  - destruct input as [[| | | |items|]|]; try reflexivity. discriminate.
  - intros Hu Hc Ht Hn. unfold extractLatestUserText.
    rewrite rev_app_distr. cbn [rev]. rewrite <- app_assoc.
    rewrite (latest_user_text_skip newer _ Hn).
    cbn [app latest_user_text]. rewrite Hu, Hc. cbn [isArray andb items_of].
    rewrite Ht. reflexivity.
Qed.

End BridgeQuiet.

(** ** The mock proxy: the chunks of a message, the stream of an answer *)

Section Chunks.
Import Js.

Lemma append_empty_r (s : string) : s ++ "" = s.
Proof. induction s as [|c s IH]; [reflexivity | cbn; rewrite IH; reflexivity]. Qed.

Lemma substring_none (s : string) (n : nat) : String.substring n 0 s = "".
Proof. revert n. induction s as [|c s IH]; intros [|n]; cbn; auto. Qed.

Lemma substring_past (s : string) : forall n m, String.length s <= n -> String.substring n m s = "".
Proof.
  induction s as [|c s IH]; intros n m H.
  - destruct n, m; reflexivity.
  - destruct n as [|n]; cbn in H; [lia|]. cbn. apply IH. lia.
Qed.

Lemma substring_split (s : string) :
  forall i a b,
    String.substring i (a + b) s = String.substring i a s ++ String.substring (i + a) b s.
Proof.
  induction s as [|c s IH]; intros i a b.
  - destruct i, a, b; reflexivity.
  - destruct i as [|i].
    + destruct a as [|a]; [reflexivity|]. cbn. rewrite (IH 0 a b). reflexivity.
    + cbn. apply IH.
Qed.

Lemma substring_all (s : string) : String.substring 0 (String.length s) s = s.
Proof. induction s as [|c s IH]; [reflexivity | cbn; rewrite IH; reflexivity]. Qed.

Lemma concat_empty_cons (x : string) (l : list string) :
  String.concat "" (x :: l) = x ++ String.concat "" l.
Proof. destruct l; cbn; [rewrite append_empty_r|]; reflexivity. Qed.

Lemma chunk_is_substring (i : nat) (text : string) :
  slice i (i + 400) text = String.substring i 400 text.
Proof. unfold slice. replace (i + 400 - i) with 400 by lia. reflexivity. Qed.

Lemma deltas_concat (text : string) (fuel : nat) :
  forall i, String.length text - i <= fuel ->
    String.concat "" (Proxy.deltas fuel i text) =
    String.substring i (String.length text - i) text.
Proof.
  induction fuel as [|fuel IH]; intros i H.
  - replace (String.length text - i) with 0 by lia. rewrite substring_none. reflexivity.
  - cbn [Proxy.deltas]. destruct (i <? String.length text)%nat eqn:E.
    + apply Nat.ltb_lt in E. rewrite concat_empty_cons, chunk_is_substring.
      rewrite IH by lia.
      destruct (le_lt_dec 400 (String.length text - i)) as [G|G].
      * transitivity (String.substring i (400 + (String.length text - (i + 400))) text);
          [rewrite substring_split; reflexivity | f_equal; lia].
      * replace (String.length text - (i + 400)) with 0 by lia.
        rewrite substring_none, append_empty_r.
        transitivity (String.substring i
                        ((String.length text - i) + (400 - (String.length text - i))) text);
          [f_equal; lia|].
        rewrite substring_split.
        rewrite (substring_past text (i + (String.length text - i))) by lia.
        apply append_empty_r.
    + apply Nat.ltb_ge in E. replace (String.length text - i) with 0 by lia.
      rewrite substring_none. reflexivity.
Qed.

Lemma deltas_sizes (text : string) (fuel : nat) :
  forall i, String.length text - i <= fuel ->
    Forall (fun part => 1 <= String.length part <= 400) (Proxy.deltas fuel i text)
    /\ String.length text - i <= 400 * List.length (Proxy.deltas fuel i text)
    /\ 400 * List.length (Proxy.deltas fuel i text) < String.length text - i + 400.
Proof.
  induction fuel as [|fuel IH]; intros i H.
  - cbn. split; [constructor | lia].
  - cbn [Proxy.deltas]. destruct (i <? String.length text)%nat eqn:E.
    + apply Nat.ltb_lt in E.
      destruct (IH (i + 400)) as (F & L1 & L2); [lia|].
      split; [|cbn [List.length]; lia].
      constructor; [|exact F].
      rewrite chunk_is_substring, substring_length. lia.
    + apply Nat.ltb_ge in E. cbn. split; [constructor | lia].
Qed.

(** X12. The chunks the mock proxy cuts a message in, put together again,
    give the text of the message. Every chunk holds between 1 and 400
    characters, and there are as few chunks as that allows: the number of
    chunks, times 400, is at least the length of the text and exceeds it by
    less than 400. *)
Theorem X12_deltas_cut (text : string) :
  String.concat "" (Proxy.deltas (String.length text) 0 text) = text
  /\ Forall (fun part => 1 <= String.length part <= 400)
       (Proxy.deltas (String.length text) 0 text)
  /\ String.length text <= 400 * List.length (Proxy.deltas (String.length text) 0 text)
  /\ 400 * List.length (Proxy.deltas (String.length text) 0 text) < String.length text + 400.
Proof.
  split.
  - rewrite deltas_concat by lia. rewrite Nat.sub_0_r. apply substring_all.
  - destruct (deltas_sizes text (String.length text) 0) as (F & L1 & L2); [lia|].
    rewrite Nat.sub_0_r in L1, L2. repeat split; assumption.
Qed.

End Chunks.

Section ProxyStream.
Import Js Sse Proxy ProxyItems.
Context {P : Platform}.










(** X14. When the answer of the adapter does not convert to a string,
    the handler of the mock proxy throws after the created event: it
    writes neither a failed nor a completed event and leaves the response
    open. *)
Theorem X14_proxy_answer_not_text (e : env) (up : upstream) (fullText : value) (w : world) :
  upstream_answer e up = Returns fullText ->
  answer_text fullText = None ->
  handleResponses e up w =
    (Throws TypeError,
     World (written w ++ [Event "response.created" (Some (created_event (time_id_of w)))])
       (ended w) (S (draws w))).
Proof.
  intros Hup Htext.
  unfold handleResponses. unfold bind at 1 2.
  cbn [timeId writeSse sse written ended draws].
  change (if MOCK_QWEN e
          then Returns (Some (JStr "This is a mocked Qwen response used for local testing without internet."))
          else postJson up) with (upstream_answer e up).
  rewrite Hup. unfold bind at 1.
  unfold answer_text in Htext. destruct (or_else fullText (Some (JStr ""))) as [v|];
    [|discriminate].
  unfold lift_toString. rewrite Htext. reflexivity.
Qed.

End ProxyStream.

(** ** [base64url] loses nothing; the state of a login *)

Section Base64Lossless.
Import Js Login Base64Back.

Lemma decodes_all (a b : ascii) : decodes a b = true.
Proof.
  revert b. apply all_ascii_complete. revert a. apply all_ascii_complete.
  vm_compute. reflexivity.
Qed.

Lemma decodes_facts (a b : ascii) :
  byte1 (urlsafe_value (urlsafe_digit (sextet1 (N_of_ascii a))))
    (urlsafe_value (urlsafe_digit (sextet2 (N_of_ascii a) (N_of_ascii b)))) = a
  /\ N.land (urlsafe_value (urlsafe_digit (sextet2 (N_of_ascii a) (N_of_ascii b)))) 15
     = N.shiftr (N_of_ascii b) 4
  /\ N.shiftr (urlsafe_value (urlsafe_digit (sextet3 (N_of_ascii a) (N_of_ascii b)))) 2
     = N.land (N_of_ascii a) 15
  /\ ascii_of_N (N.lor (N.shiftl (N.shiftr (N_of_ascii a) 4) 4) (N.land (N_of_ascii a) 15)) = a
  /\ byte3 (urlsafe_value (urlsafe_digit (sextet3 (N_of_ascii a) (N_of_ascii b))))
       (urlsafe_value (urlsafe_digit (sextet4 (N_of_ascii b)))) = b.
Proof.
  pose proof (decodes_all a b) as H. unfold decodes in H. cbv zeta in H.
  repeat (apply andb_true_iff in H; let H' := fresh in destruct H as [H H']).
  repeat split;
    first [apply Ascii.eqb_eq; assumption | apply N.eqb_eq; assumption].
Qed.

Lemma byte2_back (a b c : ascii) :
  byte2 (urlsafe_value (urlsafe_digit (sextet2 (N_of_ascii a) (N_of_ascii b))))
    (urlsafe_value (urlsafe_digit (sextet3 (N_of_ascii b) (N_of_ascii c)))) = b.
Proof.
  unfold byte2.
  destruct (decodes_facts a b) as (_ & -> & _).
  destruct (decodes_facts b c) as (_ & _ & -> & E & _). exact E.
Qed.

Lemma urlsafe_decode_back : forall buf, urlsafe_decode (urlsafe_nopad buf) = buf.
Proof.
  induction buf as [| a | a b | a b c rest IH] using list_ind3.
  - reflexivity.
  - cbn [urlsafe_nopad urlsafe_decode].
    change 0%N with (N_of_ascii zero).
    destruct (decodes_facts a zero) as (-> & _). reflexivity.
  - cbn [urlsafe_nopad urlsafe_decode].
    destruct (decodes_facts a b) as (-> & _).
    change 0%N with (N_of_ascii zero). rewrite byte2_back. reflexivity.
  - cbn [urlsafe_nopad urlsafe_decode].
    destruct (decodes_facts a b) as (-> & _).
    rewrite byte2_back.
    destruct (decodes_facts b c) as (_ & _ & _ & _ & ->).
    rewrite IH. reflexivity.
Qed.

(** X16. [base64url] loses nothing: two byte sequences with the same
    encoding are the same sequence. *)
Theorem X16_base64url_injective (a b : list ascii) :
  base64url a = base64url b -> a = b.
Proof.
  rewrite !base64url_urlsafe_nopad. intros H.
  rewrite <- (urlsafe_decode_back a), <- (urlsafe_decode_back b), H. reflexivity.
Qed.

Lemma urlsafe_nopad_size : forall buf,
  4 * List.length buf <= 3 * String.length (urlsafe_nopad buf) < 4 * List.length buf + 3.
Proof.
  induction buf as [| a | a b | a b c rest IH] using list_ind3;
    cbn [urlsafe_nopad String.length List.length]; lia.
Qed.

End Base64Lossless.

Section LoginState.
Import Js Login.
Context {P : Platform}.

(** X15. The text [base64url] gives holds only characters of the URL-safe
    alphabet, and four characters for every three bytes, rounded up. The
    state of a login, made of 24 random bytes, is 32 such characters. *)
Theorem X15_base64url_text (buf : list ascii) (draw : nat) :
  all_chars is_urlsafe (base64url buf) = true
  /\ 4 * List.length buf <= 3 * String.length (base64url buf) < 4 * List.length buf + 3
  /\ String.length (genState draw) = 32
  /\ all_chars is_urlsafe (genState draw) = true.
Proof.
  unfold genState. rewrite !base64url_urlsafe_nopad.
  split; [apply urlsafe_nopad_chars|]. split; [apply urlsafe_nopad_size|].
  split; [|apply urlsafe_nopad_chars].
  apply (urlsafe_nopad_length 8). apply randomBytes_length.
Qed.

(** X17. Whatever the request and whatever the identity provider
    answers, the listener keeps the state of its session. Only a redirect
    to the success page changes it, and then the session file is written
    and the server is closing; every other response leaves the listener as
    it was. *)
Theorem X17_listener_changes (l : listener) (req : option request) (x : exchanges) :
  session_state (snd (on_request l req x)) = session_state l
  /\ (statusCode (fst (on_request l req x)) <> 302 -> snd (on_request l req x) = l)
  /\ (statusCode (fst (on_request l req x)) = 302 ->
      location (fst (on_request l req x)) = Some "/success"
      /\ closing (snd (on_request l req x)) = true
      /\ exists text, session_file (snd (on_request l req x)) = Some text).
Proof.
  unfold on_request. destruct req as [url|]; [|cbn; repeat split; try discriminate].
  destruct (pathname url =? "/auth/callback").
  - destruct ((match searchParams_get "code" (searchParams url) with
               | Some c => c =? ""
               | None => true
               end)
              || negb (match searchParams_get "state" (searchParams url) with
                       | Some s => s =? session_state l
                       | None => false
                       end));
      [cbn; repeat split; try discriminate|].
    destruct (exchangeCodeForTokens (token_reply x)) as [tokens|err];
      [|cbn; repeat split; try discriminate].
    cbn [fst snd statusCode location session_state closing session_file].
    repeat split; try congruence. eexists. reflexivity.
  - destruct (pathname url =? "/success"); cbn; repeat split; try discriminate.
Qed.

(** X18. A callback with a code and the state of the session, whose code
    the identity provider exchanges for tokens, is answered with a
    redirect to the success page, and the tokens are saved. A failure of
    the exchange for an API key is not fatal: the session is saved without
    an API key. A failure of the exchange of the code is answered with
    status 500 and saves nothing. *)
Theorem X18_callback_accepted (l : listener) (params : list (string * string))
  (x : exchanges) (code : string) :
  searchParams_get "code" params = Some code -> (code =? "") = false ->
  searchParams_get "state" params = Some (session_state l) ->
  (forall tokens,
      exchangeCodeForTokens (token_reply x) = Returns tokens ->
      on_request l (Some (Request "/auth/callback" params)) x =
      (Response 302 (Some "/success") "",
       Listener (session_state l)
         (Some (saveTokens tokens
                  (match exchangeIdTokenForApiKey (apikey_reply x) with
                   | Returns k => k
                   | Throws _ => None
                   end) (savedAt x))) true))
  /\ (forall tokens err,
        exchangeCodeForTokens (token_reply x) = Returns tokens ->
        exchangeIdTokenForApiKey (apikey_reply x) = Throws err ->
        session_file (snd (on_request l (Some (Request "/auth/callback" params)) x)) =
        Some (session_text (prop "access_token" (Some tokens))
                (match prop "id_token" (Some tokens) with
                 | Some id_token => or_undefined (claimed_account_id id_token)
                 | None => None
                 end) None (savedAt x)))
  /\ (forall err,
        exchangeCodeForTokens (token_reply x) = Throws err ->
        on_request l (Some (Request "/auth/callback" params)) x =
        (Response 500 None (server_error err), l)).
Proof.
  intros Hc Hne Hs.
  assert (E : on_request l (Some (Request "/auth/callback" params)) x =
              match exchangeCodeForTokens (token_reply x) with
              | Throws err => (Response 500 None (server_error err), l)
              | Returns tokens =>
                  (Response 302 (Some "/success") "",
                   Listener (session_state l)
                     (Some (saveTokens tokens
                              (match exchangeIdTokenForApiKey (apikey_reply x) with
                               | Returns k => k
                               | Throws _ => None
                               end) (savedAt x))) true)
              end).
  { unfold on_request. cbn [pathname searchParams]. rewrite Hc, Hs, Hne.
    rewrite !String.eqb_refl. reflexivity. }
  rewrite E. split; [|split].
  - intros tokens ->. reflexivity.
  - intros tokens err -> ->. reflexivity.
  - intros err ->. reflexivity.
Qed.

End LoginState.

(** ** The session file read back, the account of the two readers, the identifier of a conversation *)

Section SessionFacts.
Import Js Login Session.
Context {P : Platform}.

(** X19. What [writeSessionJson] writes, [readSessionJson] reads back:
    when the parser gives back the object that was serialized, the token
    is a non-empty string, the account is absent or a non-empty string and
    the API key is absent or a string, the reader returns the record of
    these three values. *)
Theorem X19_session_round_trip (token accountId apiKey : value) (savedAt : string) :
  JSON_parse (session_text token accountId apiKey savedAt)
    = Some (session_object token accountId apiKey savedAt) ->
  is_string token = true -> truthy token = true ->
  reads_back true accountId = true ->
  reads_back false apiKey = true ->
  readSessionJson (Some (session_text token accountId apiKey savedAt))
    = Returns (Some (Creds apiKey token accountId)).
Proof.
  intros Hp Hs Ht Ha Hk. unfold readSessionJson. rewrite Hp.
  destruct token as [[| | |t| |]|]; try discriminate.
  cbn [truthy] in Ht.
  destruct accountId as [[| | |a| |]|]; try discriminate;
    destruct apiKey as [[| | |k| |]|]; try discriminate;
    cbn [reads_back negb orb] in Ha;
    unfold session_object, session_token, string_or_undefined, or_undefined;
    cbn [field app prop lookup String.eqb Ascii.eqb Bool.eqb is_string truthy negb andb
         nonblank or_else];
    rewrite ?Ht, ?Ha; cbn [negb andb truthy is_string]; rewrite ?Ht; reflexivity.
Qed.

Lemma truthy_session_token (raw : Json) :
  truthy (prop "access_token" (prop "tokens" (Some raw))) = true ->
  truthy (session_token raw) = true.
Proof.
  intros H. unfold session_token.
  destruct (truthy (string_or_undefined (prop "token" (Some raw)))) eqn:E; cbn [negb].
  - exact E.
  - rewrite truthy_or_undefined, truthy_or_else, H. reflexivity.
Qed.

(** X20. On a file whose tokens hold an access token, an account and an
    identity token that claims another account, and that names no account
    of its own, the two readers disagree: [readAuthFromHome] returns the
    account of the claims, [readSessionJson] the account stored beside the
    tokens. *)
Theorem X20_account_of_the_readers (text : string) (raw id_token : Json)
  (claimed stored : string) :
  JSON_parse text = Some raw ->
  truthy (prop "access_token" (prop "tokens" (Some raw))) = true ->
  prop "id_token" (prop "tokens" (Some raw)) = Some id_token ->
  truthy (Some id_token) = true ->
  claimed_account_id id_token = Some (JStr claimed) -> (claimed =? "") = false ->
  prop "account_id" (prop "tokens" (Some raw)) = Some (JStr stored) -> (stored =? "") = false ->
  is_string (prop "accountId" (Some raw)) = false ->
  exists c1 c2,
    readAuthFromHome (Some text) = Some c1 /\ accountId c1 = Some (JStr claimed)
    /\ readSessionJson (Some text) = Returns (Some c2) /\ accountId c2 = Some (JStr stored).
Proof.
  intros Hp Hacc Hid Htid Hcl Hcne Hst Hsne Hno.
  assert (Hraw : exists fs, raw = JObj fs).
  { destruct raw as [| | | | |fs]; try discriminate. exists fs. reflexivity. }
  destruct Hraw as (fs & ->).
  eexists _, _. split; [|split; [|split]].
  - unfold readAuthFromHome. rewrite Hp. cbv zeta.
    rewrite Hid, Htid, Hcl, Hst. cbn [is_string truthy negb andb].
    rewrite Hcne. cbn [negb andb].
    rewrite truthy_or_else, truthy_or_undefined, Hacc, orb_true_r. reflexivity.
  - reflexivity.
  - unfold readSessionJson. rewrite Hp. cbv zeta.
    rewrite (truthy_session_token _ Hacc). reflexivity.
  - cbn [accountId]. unfold string_or_undefined. rewrite Hno, Hid, Hst.
    assert (T : truthy (Some (JStr stored)) = true) by (cbn [truthy]; rewrite Hsne; reflexivity).
    unfold or_undefined. rewrite !T.
    change (truthy None) with false. cbn [negb]. rewrite T. reflexivity.
Qed.

Lemma marks_version_all (a : ascii) : marks_version a = true.
Proof. revert a. apply all_ascii_complete. vm_compute. reflexivity. Qed.

Lemma marks_version_facts (a : ascii) :
  hex_digit (N.shiftr (N_of_ascii (ascii_of_N (N.lor (N.land (N_of_ascii a) 15) 64))) 4) = "4"%char
  /\ (let v := hex_digit (N.shiftr (N_of_ascii (ascii_of_N (N.lor (N.land (N_of_ascii a) 63) 128))) 4) in
      v = "8"%char \/ v = "9"%char \/ v = "a"%char \/ v = "b"%char)
  /\ is_hex (hex_digit (N.shiftr (N_of_ascii a) 4)) = true
  /\ is_hex (hex_digit (N.land (N_of_ascii a) 15)) = true
  /\ is_hex (hex_digit (N.land (N_of_ascii (ascii_of_N (N.lor (N.land (N_of_ascii a) 15) 64))) 15)) = true
  /\ is_hex (hex_digit (N.land (N_of_ascii (ascii_of_N (N.lor (N.land (N_of_ascii a) 63) 128))) 15)) = true.
Proof.
  pose proof (marks_version_all a) as H. unfold marks_version in H.
  repeat (apply andb_true_iff in H; let H' := fresh in destruct H as [H H']).
  apply Ascii.eqb_eq in H. repeat split; try assumption.
  cbv zeta in *.
  repeat (match goal with
          | G : (_ || _) = true |- _ => apply orb_true_iff in G; destruct G as [G|G]
          end);
    match goal with G : Ascii.eqb _ _ = true |- _ => apply Ascii.eqb_eq in G end; auto.
Qed.

(** X21. The identifier [uuidLike] makes has the shape of a version 4
    UUID: five groups of 8, 4, 4, 4 and 12 lower-case hexadecimal digits
    separated by dashes, 36 characters in all, where the third group
    begins with 4 and the fourth with 8, 9, a or b. *)
Theorem X21_uuidLike_shape (draw : nat) :
  exists g1 g2 g3 g4 g5 v,
    uuidLike draw = g1 ++ "-" ++ g2 ++ "-" ++ String "4" g3 ++ "-" ++ String v g4 ++ "-" ++ g5
    /\ String.length (uuidLike draw) = 36
    /\ String.length g1 = 8 /\ String.length g2 = 4 /\ String.length g3 = 3
    /\ String.length g4 = 3 /\ String.length g5 = 12
    /\ all_chars is_hex (g1 ++ g2 ++ g3 ++ g4 ++ g5) = true
    /\ (v = "8" \/ v = "9" \/ v = "a" \/ v = "b")%char.
Proof.
  unfold uuidLike.
  pose proof (randomBytes_length draw 16) as L.
  destruct (randomBytes draw 16) as [|b0 [|b1 [|b2 [|b3 [|b4 [|b5 [|b6 [|b7 [|b8 [|b9
    [|b10 [|b11 [|b12 [|b13 [|b14 [|b15 [|b16 rest]]]]]]]]]]]]]]]]]; try discriminate L.
  cbn [update toString_hex]. unfold slice_from.
  cbn [String.length Nat.sub String.substring String.append].
  destruct (marks_version_facts b6) as (V4 & _ & _ & _ & H6 & _).
  destruct (marks_version_facts b8) as (_ & V8 & _ & _ & _ & H8).
  cbv zeta in V8. rewrite V4.
  exists (toString_hex [b0; b1; b2; b3]), (toString_hex [b4; b5]),
    (String (hex_digit (N.land (N_of_ascii (ascii_of_N (N.lor (N.land (N_of_ascii b6) 15) 64))) 15))
       (toString_hex [b7])),
    (String (hex_digit (N.land (N_of_ascii (ascii_of_N (N.lor (N.land (N_of_ascii b8) 63) 128))) 15))
       (toString_hex [b9])),
    (toString_hex [b10; b11; b12; b13; b14; b15]),
    (hex_digit (N.shiftr (N_of_ascii (ascii_of_N (N.lor (N.land (N_of_ascii b8) 63) 128))) 4)).
  cbn [toString_hex]. split; [reflexivity|].
  split; [reflexivity|]. do 5 (split; [reflexivity|]).
  split; [|exact V8].
  cbn [String.append all_chars].
  rewrite H6, H8.
  repeat match goal with
         | |- context [is_hex (hex_digit (N.shiftr (N_of_ascii ?a) 4))] =>
             let F := fresh in
             destruct (marks_version_facts a) as (_ & _ & F & _); rewrite F; clear F
         | |- context [is_hex (hex_digit (N.land (N_of_ascii ?a) 15))] =>
             let F := fresh in
             destruct (marks_version_facts a) as (_ & _ & _ & F & _); rewrite F; clear F
         end.
  reflexivity.
Qed.

End SessionFacts.

(** ** The request of [askQuestion] *)

Section AskFacts.
Import Js Login Ask.



(** X23. Without an API key, [askQuestion] refuses a requested model of
    the [gpt-5] family before any request is made. Otherwise it addresses
    the ChatGPT backend and authorizes with the token; the account is sent
    exactly when the record holds one; the conversation and the session
    carry the same identifier; a requested model is tried alone, and when
    none is requested [o4-mini] is tried first, then the three fallback
    models. *)
Theorem X23_chatgpt_request (c : creds) (tok convId : string) (requestedModel : option string) :
  truthy (apiKey c) = false ->
  token c = Some (JStr tok) -> (tok =? "") = false ->
  match requestedModel with Some m => m =? "" | None => false end = false ->
  if match requestedModel with Some m => is_gpt5 m | None => false end
  then exists e, prepare (Some c) convId requestedModel = Throws e
  else
    exists p,
      prepare (Some c) convId requestedModel = Returns p
      /\ url p = "https://chatgpt.com/backend-api/codex/responses"
      /\ lookup "Authorization" (headers p) = Some (JStr ("Bearer " ++ tok))
      /\ lookup "chatgpt-account-id" (headers p)
         = (if truthy (accountId c) then accountId c else None)
      /\ lookup "conversation_id" (headers p) = Some (JStr convId)
      /\ lookup "session_id" (headers p) = Some (JStr convId)
      /\ tryModels p = match requestedModel with
                       | Some m => [m]
                       | None => ["o4-mini"; "o4"; "gpt-4o"; "gpt-4o-mini"]
                       end.
Proof.
  intros Hk Ht Hne Hm. unfold prepare. rewrite Hk, Ht.
  assert (Tt : truthy (Some (JStr tok)) = true) by (cbn [truthy]; rewrite Hne; reflexivity).
  rewrite Tt. cbn [template toString negb andb].
  destruct requestedModel as [m|].
  - rewrite Hm. destruct (is_gpt5 m); cbn [negb andb].
    + destruct (accountId c) as [a|]; [destruct (truthy (Some a))|]; eexists; reflexivity.
    + destruct (accountId c) as [a|]; [destruct (truthy (Some a)) eqn:Ta|];
        (eexists; split; [reflexivity|]; repeat split; try reflexivity).
  - destruct (accountId c) as [a|]; [destruct (truthy (Some a)) eqn:Ta|];
      (eexists; split; [reflexivity|]; repeat split; try reflexivity).
Qed.

End AskFacts.

Section AskGuard.
Import Js Login Ask.
Context {P : Platform}.

Lemma readAuthFromHome_usable (file : option string) (c : creds) :
  readAuthFromHome file = Some c -> usable (Some c) = true.
Proof.
  destruct file as [text|]; [|discriminate].
  destruct (JSON_parse text) as [raw|] eqn:E;
    [|unfold readAuthFromHome; rewrite E; discriminate].
  destruct (readAuthFromHome_parsed text raw E) as (acc & ->).
  destruct (nonblank (prop "OPENAI_API_KEY" (Some raw))) as [k|] eqn:Ek; cbn [orb].
  - intros [= <-]. cbn [usable apiKey truthy]. rewrite (nonblank_Some _ _ Ek). reflexivity.
  - destruct (truthy (prop "access_token" (prop "tokens" (Some raw)))) eqn:Et; [|discriminate].
    intros [= <-]. cbn [usable apiKey token]. rewrite truthy_or_undefined.
    exact Et.
Qed.

Lemma readSessionJson_usable (file : option string) (c : creds) :
  readSessionJson file = Returns (Some c) -> usable (Some c) = true.
Proof.
  destruct file as [text|]; [|discriminate].
  destruct (JSON_parse text) as [raw|] eqn:E;
    [|unfold readSessionJson; rewrite E; discriminate].
  destruct raw as [|b|lit|s|items|fs];
    try (destruct (readSessionJson_parsed text _ E ltac:(discriminate)) as (k & acc & ->);
         match goal with
         | |- context [truthy (session_token ?r)] =>
             destruct (truthy (session_token r)) eqn:Et; [|discriminate]
         end;
         intros [= <-]; cbn [usable apiKey token]; rewrite Et; apply orb_true_r).
  unfold readSessionJson. rewrite E. discriminate.
Qed.

(** X24. The guard of [askQuestion] never fires on a record that one of
    the two readers returned: such a record is never refused for lack of
    credentials. *)
Theorem X24_reader_records_pass_the_guard (file : option string) (c : creds)
  (convId : string) (requestedModel : option string) :
  readAuthFromHome file = Some c \/ readSessionJson file = Returns (Some c) ->
  prepare (Some c) convId requestedModel <> Throws (new_Error "No credentials provided").
Proof.
  intros H.
  assert (U : usable (Some c) = true)
    by (destruct H as [H|H]; [eapply readAuthFromHome_usable | eapply readSessionJson_usable]; eauto).
  cbn [usable] in U. unfold prepare.
  assert (G : negb (truthy (apiKey c)) && negb (truthy (token c)) = false).
  { apply orb_true_iff in U. destruct U as [-> | ->]; [reflexivity | apply andb_false_r]. }
  rewrite G.
  destruct (template (token c)) as [bearer|e] eqn:Et.
  - destruct (truthy (apiKey c)).
    + destruct (template (apiKey c)) as [key|e] eqn:Ek.
      * cbn [negb andb]. discriminate.
      * unfold template in Ek. destruct (apiKey c) as [j|]; [|discriminate].
        destruct (toString j); [discriminate|]. injection Ek as <-. discriminate.
    + cbn [negb andb].
      match goal with |- context [is_gpt5 ?m] => destruct (is_gpt5 m) end; discriminate.
  - unfold template in Et. destruct (token c) as [j|]; [|discriminate].
    destruct (toString j); [discriminate|]. injection Et as <-. discriminate.
Qed.

End AskGuard.

(** ** Examples of the statements above *)

Section MoreExamples.
Import Js Sse.

Lemma X1_message_fragments_witness :
  Translator.isFinal plan_envelope = false /\
  bind (Translator.emit_content plan_envelope)
    (fun _ => Translator.emit_output plan_envelope) fresh_world =
  (Returns tt, World [Envelope.message_of "hello"; Envelope.message_of "bye"] false 0).
Proof.
  split; [reflexivity|].
  exact (X1_message_fragments plan_envelope fresh_world eq_refl).
Defined.


Lemma X3_apply_patch_call_witness :
  ("*** Begin Patch x *** End Patch" =? "") = false /\
  Translator.emitToolCall (P := sample_platform) (Some (JStr "apply_patch"))
    (Some (JObj [("input", JStr "*** Begin Patch x *** End Patch")])) fresh_world =
  (Returns true,
   World [Event "response.output_item.done"
            (Some (Translator.custom_tool_call_event (JStr "*** Begin Patch x *** End Patch")
                     "call_apply_patch_r4nd0ma"))] false 1).
Proof.
  split; [reflexivity|].
  exact (X3_apply_patch_call (P := sample_platform)
           (Some (JObj [("input", JStr "*** Begin Patch x *** End Patch")]))
           "*** Begin Patch x *** End Patch" fresh_world eq_refl (or_introl eq_refl)).
Defined.

Lemma X4_generic_call_witness :
  Translator.name_of (Some (JNum "7")) = Some "7" /\
  Translator.is_shell_name "7" = false /\
  Translator.emitToolCall (P := sample_platform) (Some (JNum "7"))
    (Some (JStr ("{" ++ quoted "a" ++ ":1}"))) fresh_world =
  (Returns true,
   World [Event "response.output_item.done"
            (Some (Translator.function_call_event "7"
                     (stringify (JObj [("a", JNum "1")])) "call_fn_r4nd0ma"))] false 1).
Proof.
  split; [reflexivity|]. split; [reflexivity|].
  exact (proj1 (X4_generic_call (P := sample_platform) (Some (JNum "7"))
                  (Some (JStr ("{" ++ quoted "a" ++ ":1}"))) "7" fresh_world
                  eq_refl eq_refl eq_refl)).
Defined.

Lemma X5_shell_without_command_witness :
  Translator.is_shell_name "bash" = true /\
  Envelope.no_command (Translator.parse_args (P := sample_platform) (Some (JObj []))) = true /\
  Translator.emitToolCall (P := sample_platform) (Some (JStr "bash")) (Some (JObj [])) fresh_world =
  (Returns true,
   World [Event "response.output_item.done"
            (Some (Translator.function_call_event "bash" "{}" "call_fn_r4nd0ma"))] false 1).
Proof.
  split; [reflexivity|]. split; [reflexivity|].
  exact (X5_shell_without_command (P := sample_platform) "bash" (Some (JObj [])) fresh_world
           eq_refl (or_introl eq_refl)).
Defined.

Lemma X7_chat0_raw_reply_witness :
  truthy (Some (Chat0.tryParseJson (P := sample_platform) "hello")) = false /\
  Chat0.post_responses (P := sample_platform) "hello" fresh_world =
  (Returns tt,
   World [Event "response.created" (Some (Translator.created_event "resp_r4nd0ma"));
          Event "response.output_item.done" (Some (Chat0.message_event "hello"));
          Event "response.completed" (Some (Translator.completed_event "resp_r4nd0ma"))]
     true 1).
Proof.
  split; [reflexivity|].
  exact (X7_chat0_raw_reply (P := sample_platform) "hello" fresh_world eq_refl).
Defined.

Lemma X9_nothing_after_close_witness :
  Bridge.before_upstream update_request = Returns tt /\
  Bridge.res (Bridge.post_responses (P := sample_platform) update_request
                (Bridge.Streams [Bridge.Delta "hi"; Bridge.ClientClose; Bridge.TimerFires] None)) =
  World [Bridge.created_first] false 0.
Proof.
  split; [reflexivity|].
  exact (proj1 (X9_nothing_after_close (P := sample_platform) update_request
                  [Bridge.Delta "hi"] [Bridge.TimerFires] eq_refl)).
Defined.

Lemma X10_fallback_timer_witness :
  let s := Bridge.writeSse "response.created" [("response", JObj [])] Bridge.initial in
  exists last,
    is_completed last = true /\
    Bridge.res (Bridge.run_step (P := sample_platform) (Some "a.js") Bridge.TimerFires s) =
      World (written (Bridge.res s)
             ++ [Bridge.apply_patch_event (Bridge.time_id (P := sample_platform) "call" s)
                   (Bridge.synthesized_patch "a.js"); last])
        true 2.
Proof.
  cbv zeta.
  destruct (proj1 (proj2 (X10_fallback_timer (P := sample_platform) (Some "a.js")
                            (Bridge.writeSse "response.created" [("response", JObj [])]
                               Bridge.initial)))
              "a.js" eq_refl eq_refl eq_refl eq_refl eq_refl) as (last & C & E & _).
  exists last. split; [exact C | exact E].
Defined.

Lemma X11_latest_user_text_witness :
  Bridge.extractLatestUserText (prop "input" update_request) = "update the file a.js".
Proof.
  exact (proj2 (X11_latest_user_text None []
                  [JObj [("type", JStr "function_call_output")]]
                  (JObj [("type", JStr "message"); ("role", JStr "user");
                         ("content", JArr [JObj [("type", JStr "input_text");
                                                 ("text", JStr "update the file a.js")]])])
                  [JObj [("type", JStr "input_text"); ("text", JStr "update the file a.js")]])
           eq_refl eq_refl eq_refl eq_refl).
Defined.


Lemma X14_proxy_answer_not_text_witness :
  ProxyItems.upstream_answer (P := extras_platform) (Proxy.Env false false)
    (Proxy.Reply 200 (stringify odd_answer))
    = Returns (Some (JObj [("toString", JNum "1")]))
  /\ ProxyItems.answer_text (Some (JObj [("toString", JNum "1")])) = None
  /\ Proxy.handleResponses (P := extras_platform) (Proxy.Env false false)
       (Proxy.Reply 200 (stringify odd_answer)) fresh_world =
     (Throws TypeError,
      World [Event "response.created" (Some (Proxy.created_event "resp_mfx0a_r4nd0m"))] false 1).
Proof.
  split; [reflexivity|]. split; [reflexivity|].
  exact (X14_proxy_answer_not_text (P := extras_platform) (Proxy.Env false false)
           (Proxy.Reply 200 (stringify odd_answer)) (Some (JObj [("toString", JNum "1")]))
           fresh_world eq_refl eq_refl).
Defined.

Lemma X16_base64url_injective_witness :
  Login.base64url ["h"; "i"]%char = Login.base64url (list_ascii_of_string "hi")
  /\ ["h"; "i"]%char = list_ascii_of_string "hi".
Proof.
  split; [reflexivity|].
  exact (X16_base64url_injective ["h"; "i"]%char (list_ascii_of_string "hi") eq_refl).
Defined.

Lemma X18_callback_accepted_witness :
  let l := Login.Listener "st" None false in
  let x := Login.Exchanges (Login.Resolved code_tokens) (Login.Rejected "no key") "1700000000000" in
  Login.searchParams_get "code" [("code", "c"); ("state", "st")] = Some "c"
  /\ Login.exchangeCodeForTokens (Login.token_reply x) = Returns code_tokens
  /\ Login.on_request (P := sample_platform) l
       (Some (Login.Request "/auth/callback" [("code", "c"); ("state", "st")])) x =
     (Login.Response 302 (Some "/success") "",
      Login.Listener "st"
        (Some (Login.saveTokens (P := sample_platform) code_tokens None "1700000000000")) true).
Proof.
  cbv zeta. split; [reflexivity|]. split; [reflexivity|].
  exact (proj1 (X18_callback_accepted (P := sample_platform) (Login.Listener "st" None false)
                  [("code", "c"); ("state", "st")]
                  (Login.Exchanges (Login.Resolved code_tokens) (Login.Rejected "no key")
                     "1700000000000")
                  "c" eq_refl eq_refl eq_refl) code_tokens eq_refl).
Defined.

Lemma X19_session_round_trip_witness :
  JSON_parse (Platform := extras_platform) saved_session
    = Some (Session.session_object (Some (JStr "tok")) (Some (JStr "acc")) None "1700000000000")
  /\ Login.readSessionJson (P := extras_platform) (Some saved_session)
     = Returns (Some (Login.Creds None (Some (JStr "tok")) (Some (JStr "acc")))).
Proof.
  split; [reflexivity|].
  exact (X19_session_round_trip (P := extras_platform) (Some (JStr "tok")) (Some (JStr "acc"))
           None "1700000000000" eq_refl eq_refl eq_refl eq_refl eq_refl).
Defined.

Lemma X20_account_of_the_readers_witness :
  JSON_parse (Platform := extras_platform) (stringify two_accounts_file) = Some two_accounts_file
  /\ Login.claimed_account_id (P := extras_platform) (JStr account_token)
     = Some (JStr "acc-claimed")
  /\ exists c1 c2,
       Login.readAuthFromHome (P := extras_platform) (Some (stringify two_accounts_file)) = Some c1
       /\ Login.accountId c1 = Some (JStr "acc-claimed")
       /\ Login.readSessionJson (P := extras_platform) (Some (stringify two_accounts_file))
          = Returns (Some c2)
       /\ Login.accountId c2 = Some (JStr "acc-stored").
Proof.
  split; [reflexivity|]. split; [reflexivity|].
  exact (X20_account_of_the_readers (P := extras_platform) (stringify two_accounts_file)
           two_accounts_file (JStr account_token) "acc-claimed" "acc-stored"
           eq_refl eq_refl eq_refl eq_refl eq_refl eq_refl eq_refl eq_refl eq_refl).
Defined.


Lemma X23_chatgpt_request_witness :
  let c := Login.Creds None (Some (JStr "tok")) (Some (JStr "acc")) in
  exists p,
    Ask.prepare (Some c) "conv" None = Returns p
    /\ lookup "Authorization" (Ask.headers p) = Some (JStr "Bearer tok")
    /\ lookup "chatgpt-account-id" (Ask.headers p) = Some (JStr "acc")
    /\ Ask.tryModels p = ["o4-mini"; "o4"; "gpt-4o"; "gpt-4o-mini"].
Proof.
  cbv zeta.
  destruct (X23_chatgpt_request (Login.Creds None (Some (JStr "tok")) (Some (JStr "acc")))
              "tok" "conv" None eq_refl eq_refl eq_refl eq_refl)
    as (p & E & _ & A & I & _ & _ & T).
  exists p. split; [exact E|]. split; [exact A|]. split; [exact I | exact T].
Defined.

Lemma X24_reader_records_pass_the_guard_witness :
  Login.readAuthFromHome (P := sample_platform) (Some api_key_auth_file)
    = Some (Login.Creds (Some (JStr "sk-1")) None None)
  /\ Ask.prepare (Some (Login.Creds (Some (JStr "sk-1")) None None)) "conv" None
     <> Throws (new_Error "No credentials provided").
Proof.
  split; [reflexivity|].
  exact (X24_reader_records_pass_the_guard (P := sample_platform) (Some api_key_auth_file)
           (Login.Creds (Some (JStr "sk-1")) None None) "conv" None (or_introl eq_refl)).
Defined.

End MoreExamples.
